(** * BrickCharts: the chart cache and the search engine

    A shallow embedding of [src/data/ChartCache.ts] and
    [src/search/SearchEngine.ts], with the properties the specification
    states about them.

    Conventions of the embedding.
    - A JavaScript [number] that holds a position, a count, a size or a
      time in milliseconds is an integer ([Z], or [nat] for lengths and
      indices); a score or a confidence is a rational ([Q]), so the
      arithmetic is exact.
    - A JavaScript string is a [string] of code units below 256
      (Latin-1); [toLowerCase] is the Unicode lower-casing on that range.
    - A [Date] is its [getTime()] value in milliseconds.
    - A [Map] is an association list in insertion order, since the code
      iterates over its maps.
    - [Date.now()] and [new Date()] read a clock that the model receives
      as a function from the number of the reading to the time read. *)

From Stdlib Require Import ZArith QArith Qminmax Lqa List String Ascii Bool Arith Lia.
From Stdlib Require Import Permutation Sorted.
Import ListNotations.

Close Scope Q_scope.
Open Scope nat_scope.

(** ** JavaScript primitives *)

Module JS.

(** [String.prototype.toLowerCase] on one Latin-1 code unit: the
    letters A-Z, and the accented capitals U+00C0..U+00DE except the
    multiplication sign U+00D7, move up by 32. *)
Definition toLowerCaseChar (c : ascii) : ascii :=
  let n := nat_of_ascii c in
  if ((65 <=? n) && (n <=? 90)) ||
     ((192 <=? n) && (n <=? 222) && negb (n =? 215))
  then ascii_of_nat (n + 32)
  else c.

Fixpoint toLowerCase (s : string) : string :=
  match s with
  | EmptyString => EmptyString
  | String c s' => String (toLowerCaseChar c) (toLowerCase s')
  end.

(** [s.startsWith(p)] *)
Definition startsWith (s p : string) : bool := prefix p s.

(** [s.includes(q)]: [q] occurs in [s] at some position. *)
Fixpoint includes (s q : string) : bool :=
  startsWith s q ||
  match s with
  | EmptyString => false
  | String _ s' => includes s' q
  end.

(** [s.charAt(i)]: the one-unit string at [i], the empty string out of
    range. *)
Definition charAt (s : string) (i : nat) : string :=
  match String.get i s with
  | Some c => String c EmptyString
  | None => EmptyString
  end.

(** Truthiness of the optional values the code tests with [if (x)]. *)
Definition truthyString (s : option string) : bool :=
  match s with
  | Some EmptyString => false
  | Some _ => true
  | None => false
  end.

Definition truthyNumber (n : option Z) : bool :=
  match n with
  | Some z => negb (z =? 0)%Z
  | None => false
  end.

Definition isSome {A} (o : option A) : bool :=
  match o with Some _ => true | None => false end.

(** [a[i]] on an array, [d] standing for [undefined]. *)
Definition arrayGet {A} (d : A) (a : list A) (i : nat) : A := nth i a d.

(** [a[i] = v]: overwrites inside the array, and extends it when [i] is
    at or past the end (the slots between are holes, [hole] here). *)
Definition arraySet {A} (hole : A) (a : list A) (i : nat) (v : A) : list A :=
  if i <? List.length a
  then firstn i a ++ v :: skipn (S i) a
  else a ++ repeat hole (i - List.length a) ++ [v].

(** [a.slice(0, n)]: a negative [n] counts from the end. *)
Definition slice0 {A} (a : list A) (n : Z) : list A :=
  if (n <? 0)%Z
  then firstn (List.length a - Z.to_nat (- n)) a
  else firstn (Z.to_nat n) a.

(** [for (let i = lo; i <= hi; i++) st = body(i, st)] *)
Definition forRange {S} (lo hi : nat) (body : nat -> S -> S) (init : S) : S :=
  fold_left (fun st i => body i st) (seq lo (Datatypes.S hi - lo)) init.

(** Strict comparison and equality of rationals as booleans. *)
Definition Qltb (x y : Q) : bool := negb (Qle_bool y x).

End JS.

(** ** The edit-distance matrix of [calculateSimilarity] *)

Definition Matrix := list (list nat).

(** [matrix[i][j]] *)
Definition matGet (m : Matrix) (i j : nat) : nat :=
  JS.arrayGet 0 (JS.arrayGet [] m i) j.

(** [matrix[i][j] = v] *)
Definition matSet (m : Matrix) (i j v : nat) : Matrix :=
  JS.arraySet [] m i (JS.arraySet 0 (JS.arrayGet [] m i) j v).

(** [Math.min(a, b, c)] *)
Definition min3 (a b c : nat) : nat := Nat.min a (Nat.min b c).

(** The three loops of [calculateSimilarity] (lines 349-371): rows are
    indexed by the prefixes of [str2], columns by those of [str1]. *)
Definition editMatrix (str1 str2 : string) : Matrix :=
  let matrix : Matrix := [] in
  let matrix :=
    JS.forRange 0 (String.length str2)
      (fun i m => JS.arraySet [] m i [i]) matrix in
  let matrix :=
    JS.forRange 0 (String.length str1)
      (fun j m => matSet m 0 j j) matrix in
  JS.forRange 1 (String.length str2)
    (fun i m =>
       JS.forRange 1 (String.length str1)
         (fun j m =>
            if (JS.charAt str2 (i - 1) =? JS.charAt str1 (j - 1))%string
            then matSet m i j (matGet m (i - 1) (j - 1))
            else matSet m i j
                   (min3 (matGet m (i - 1) (j - 1) + 1)
                         (matGet m i (j - 1) + 1)
                         (matGet m (i - 1) j + 1)))
         m)
    matrix.

(** [matrix[str2.length][str1.length]] (line 373) *)
Definition editDistance (str1 str2 : string) : nat :=
  matGet (editMatrix str1 str2) (String.length str2) (String.length str1).

(** [calculateSimilarity] (lines 348-377) *)
Definition calculateSimilarity (str1 str2 : string) : Q :=
  let distance := editDistance str1 str2 in
  let maxLength := Nat.max (String.length str1) (String.length str2) in
  if maxLength =? 0
  then 1%Q
  else (inject_Z (Z.of_nat maxLength - Z.of_nat distance)
        / inject_Z (Z.of_nat maxLength))%Q.

(** ** Text matching *)

(** The match types ['exact'], ['partial'] and ['fuzzy']. *)
Inductive MatchType := Exact | Partial | Fuzzy.

Record TextMatch := mkTextMatch {
  tm_matchType : MatchType;
  tm_confidence : Q
}.

(** [matchText] (lines 316-343); the parameter [fuzzy] defaults to
    [false]. *)
Definition matchText (text query : string) (fuzzy : bool) : option TextMatch :=
  let lowerText := JS.toLowerCase text in
  let lowerQuery := JS.toLowerCase query in
  if (lowerText =? lowerQuery)%string then
    Some (mkTextMatch Exact 1%Q)
  else if JS.includes lowerText lowerQuery then
    Some (mkTextMatch Partial
            (inject_Z (Z.of_nat (String.length lowerQuery))
             / inject_Z (Z.of_nat (String.length lowerText)))%Q)
  else if fuzzy then
    let similarity := calculateSimilarity lowerText lowerQuery in
    if JS.Qltb (6 # 10) similarity
    then Some (mkTextMatch Fuzzy similarity)
    else None
  else None.


(** ** Chart data ([types.ts]) *)

(** The enum [ChartSource]. *)
Inductive ChartSource := BILLBOARD | LASTFM | CUSTOM.

Definition ChartSource_eqb (a b : ChartSource) : bool :=
  match a, b with
  | BILLBOARD, BILLBOARD | LASTFM, LASTFM | CUSTOM, CUSTOM => true
  | _, _ => false
  end.

(** The interface [ChartEntry]; an optional field is an [option], and the
    open [metadata] bag, which neither the cache nor the search engine
    reads, is left out. *)
Module ChartEntry.
Record t := mk {
  rank : Z;
  title : string;
  artist : string;
  album : option string;
  label : option string;
  lastWeek : option Z;
  peakPosition : option Z;
  weeksOnChart : option Z;
  chartDate : Z;
  source : ChartSource
}.
End ChartEntry.

(** The interface [ChartData]. *)
Module ChartData.
Record t := mk {
  chartType : string;
  date : Z;
  entries : list ChartEntry.t;
  source : ChartSource;
  totalEntries : Z
}.
End ChartData.

(** ** A JavaScript [Map], in insertion order *)

Section JSMap.
Context {K V : Type} (eqb : K -> K -> bool).

(** [m.get(k)] *)
Fixpoint mapGet (m : list (K * V)) (k : K) : option V :=
  match m with
  | [] => None
  | (k', v) :: m' => if eqb k' k then Some v else mapGet m' k
  end.

(** [m.has(k)] *)
Definition mapHas (m : list (K * V)) (k : K) : bool := JS.isSome (mapGet m k).

(** [m.set(k, v)]: a present key keeps its place, a new one goes last. *)
Fixpoint mapSet (m : list (K * V)) (k : K) (v : V) : list (K * V) :=
  match m with
  | [] => [(k, v)]
  | (k', v') :: m' =>
      if eqb k' k then (k', v) :: m' else (k', v') :: mapSet m' k v
  end.

(** [m.delete(k)] *)
Definition mapDelete (m : list (K * V)) (k : K) : list (K * V) :=
  filter (fun '(k', _) => negb (eqb k' k)) m.
End JSMap.

(** ** The search engine ([SearchEngine.ts]) *)

Module Range.
Record t := mk { min : Z; max : Z }.
End Range.

Module DateRange.
Record t := mk { start : Z; end_ : Z }.
End DateRange.

(** The interface [SearchQuery]; [fuzzy] and [newEntriesOnly], optional
    booleans that the code only tests for truth, are [false] when absent. *)
Module SearchQuery.
Record t := mk {
  title : option string;
  artist : option string;
  album : option string;
  chartType : option string;
  source : option ChartSource;
  dateRange : option DateRange.t;
  rankRange : option Range.t;
  weeksRange : option Range.t;
  peakRange : option Range.t;
  newEntriesOnly : bool;
  fuzzy : bool;
  limit : option Z
}.
End SearchQuery.

Inductive Field := FTitle | FArtist | FAlbum.

Module SearchMatch.
Record t := mk {
  field : Field;
  value : string;
  matchType : MatchType;
  confidence : Q
}.
End SearchMatch.

Module SearchResult.
Record t := mk {
  entry : ChartEntry.t;
  chartData : ChartData.t;
  score : Q;
  matches : list SearchMatch.t
}.
End SearchResult.

Module SearchStats.
Record t := mk {
  totalResults : nat;
  searchTime : Z;
  chartsSearched : nat;
  exactMatches : nat;
  partialMatches : nat;
  fuzzyMatches : nat
}.
End SearchStats.

(** The key [`${source}-${chartType}-${date.toISOString()}`] of a chart
    (line 63).  No source name contains a dash and the ISO form of a date
    has a fixed shape, so the string determines the three components,
    which stand for it here. *)
Definition ChartKey : Type := ChartSource * string * Z.

Definition chartKey (chart : ChartData.t) : ChartKey :=
  (ChartData.source chart, ChartData.chartType chart, ChartData.date chart).

Definition ChartKey_eqb (a b : ChartKey) : bool :=
  let '(s1, t1, d1) := a in
  let '(s2, t2, d2) := b in
  ChartSource_eqb s1 s2 && (t1 =? t2)%string && (d1 =? d2)%Z.

(** The two private maps of the class. *)
Module SearchEngine.
Record t := mk {
  searchIndex : list (string * list ChartEntry.t);
  chartDataCache : list (ChartKey * ChartData.t)
}.
End SearchEngine.

(** [new SearchEngine()] *)
Definition newSearchEngine : SearchEngine.t := SearchEngine.mk [] [].

(** [addToIndex] (lines 201-207) *)
Definition addToIndex (field value : string) (entry : ChartEntry.t)
    (index : list (string * list ChartEntry.t)) : list (string * list ChartEntry.t) :=
  let key := (field ++ ":" ++ value)%string in
  let index := if negb (mapHas String.eqb index key)
               then mapSet String.eqb index key []
               else index in
  match mapGet String.eqb index key with
  | Some bucket => mapSet String.eqb index key (bucket ++ [entry])
  | None => index
  end.

(** The body of the inner [forEach] of [indexChartData] (lines 66-76). *)
Definition indexEntry (index : list (string * list ChartEntry.t))
    (entry : ChartEntry.t) : list (string * list ChartEntry.t) :=
  let index := addToIndex "title"
                 (JS.toLowerCase (ChartEntry.title entry)) entry index in
  let index := addToIndex "artist"
                 (JS.toLowerCase (ChartEntry.artist entry)) entry index in
  let index :=
    match ChartEntry.album entry with
    | Some album =>
        if JS.truthyString (Some album)
        then addToIndex "album" (JS.toLowerCase album) entry index
        else index
    | None => index
    end in
  addToIndex "full"
    (JS.toLowerCase
       (ChartEntry.title entry ++ " " ++ ChartEntry.artist entry)%string)
    entry index.

(** The body of the outer [forEach] (lines 62-77). *)
Definition indexChart (engine : SearchEngine.t) (chart : ChartData.t)
    : SearchEngine.t :=
  let cache := mapSet ChartKey_eqb (SearchEngine.chartDataCache engine)
                 (chartKey chart) chart in
  let index := fold_left indexEntry (ChartData.entries chart)
                 (SearchEngine.searchIndex engine) in
  SearchEngine.mk index cache.

(** [indexChartData] (lines 61-78) *)
Definition indexChartData (chartData : list ChartData.t) (engine : SearchEngine.t)
    : SearchEngine.t :=
  fold_left indexChart chartData engine.

(** [clearIndex] (lines 193-196) *)
Definition clearIndex (engine : SearchEngine.t) : SearchEngine.t :=
  SearchEngine.mk [] [].

(** [getRelevantCharts] (lines 212-233) *)
Definition isRelevantChart (query : SearchQuery.t) (chart : ChartData.t) : bool :=
  if match SearchQuery.source query with
     | Some s => negb (ChartSource_eqb (ChartData.source chart) s)
     | None => false
     end then false
  else if match SearchQuery.chartType query with
          | Some ct => JS.truthyString (Some ct)
                       && negb (ChartData.chartType chart =? ct)%string
          | None => false
          end then false
  else if match SearchQuery.dateRange query with
          | Some r => (ChartData.date chart <? DateRange.start r)%Z
                      || (DateRange.end_ r <? ChartData.date chart)%Z
          | None => false
          end then false
  else true.

Definition getRelevantCharts (query : SearchQuery.t) (engine : SearchEngine.t)
    : list ChartData.t :=
  filter (isRelevantChart query) (map snd (SearchEngine.chartDataCache engine)).

(** [v < range.min || v > range.max] *)
Definition outside (v : Z) (range : Range.t) : bool :=
  (v <? Range.min range)%Z || (Range.max range <? v)%Z.

(** The four filters of [scoreEntry] (lines 243-263): [true] when the
    entry is turned away. *)
Definition rankRangeFilter (entry : ChartEntry.t) (query : SearchQuery.t) : bool :=
  match SearchQuery.rankRange query with
  | Some range => outside (ChartEntry.rank entry) range
  | None => false
  end.

Definition weeksRangeFilter (entry : ChartEntry.t) (query : SearchQuery.t) : bool :=
  match SearchQuery.weeksRange query, ChartEntry.weeksOnChart entry with
  | Some range, Some weeks =>
      JS.truthyNumber (Some weeks) && outside weeks range
  | _, _ => false
  end.

Definition peakRangeFilter (entry : ChartEntry.t) (query : SearchQuery.t) : bool :=
  match SearchQuery.peakRange query, ChartEntry.peakPosition entry with
  | Some range, Some peak =>
      JS.truthyNumber (Some peak) && outside peak range
  | _, _ => false
  end.

Definition newEntriesFilter (entry : ChartEntry.t) (query : SearchQuery.t) : bool :=
  SearchQuery.newEntriesOnly query && JS.truthyNumber (ChartEntry.lastWeek entry).

(** The running [score] and [matches] of [scoreEntry]. *)
Definition Scoring : Type := Q * list SearchMatch.t.

(** Lines 266-274: [None] is the early [return null]. *)
Definition scoreTitle (entry : ChartEntry.t) (query : SearchQuery.t)
    (acc : Scoring) : option Scoring :=
  let '(score, matches) := acc in
  match SearchQuery.title query with
  | Some title =>
      if JS.truthyString (Some title) then
        match matchText (ChartEntry.title entry) title (SearchQuery.fuzzy query) with
        | Some m =>
            Some ((score + tm_confidence m * 3)%Q,
                  matches ++ [SearchMatch.mk FTitle (ChartEntry.title entry)
                                (tm_matchType m) (tm_confidence m)])
        | None =>
            if negb (SearchQuery.fuzzy query) then None else Some acc
        end
      else Some acc
  | None => Some acc
  end.

(** Lines 276-284 *)
Definition scoreArtist (entry : ChartEntry.t) (query : SearchQuery.t)
    (acc : Scoring) : option Scoring :=
  let '(score, matches) := acc in
  match SearchQuery.artist query with
  | Some artist =>
      if JS.truthyString (Some artist) then
        match matchText (ChartEntry.artist entry) artist (SearchQuery.fuzzy query) with
        | Some m =>
            Some ((score + tm_confidence m * 2)%Q,
                  matches ++ [SearchMatch.mk FArtist (ChartEntry.artist entry)
                                (tm_matchType m) (tm_confidence m)])
        | None =>
            if negb (SearchQuery.fuzzy query)
               && negb (JS.truthyString (SearchQuery.title query))
            then None else Some acc
        end
      else Some acc
  | None => Some acc
  end.

(** Lines 286-292 *)
Definition scoreAlbum (entry : ChartEntry.t) (query : SearchQuery.t)
    (acc : Scoring) : Scoring :=
  let '(score, matches) := acc in
  match SearchQuery.album query, ChartEntry.album entry with
  | Some qalbum, Some album =>
      if JS.truthyString (Some qalbum) && JS.truthyString (Some album) then
        match matchText album qalbum (SearchQuery.fuzzy query) with
        | Some m =>
            ((score + tm_confidence m * 1)%Q,
             matches ++ [SearchMatch.mk FAlbum album
                           (tm_matchType m) (tm_confidence m)])
        | None => acc
        end
      else acc
  | _, _ => acc
  end.

(** [(101 - entry.rank) / 100] (line 295) *)
Definition positionBoost (entry : ChartEntry.t) : Q :=
  (inject_Z (101 - ChartEntry.rank entry) / 100)%Q.

(** Lines 298-299, [now] being [new Date().getTime()]. *)
Definition recencyBoost (now : Z) (chart : ChartData.t) : Q :=
  let daysSinceChart :=
    (inject_Z (now - ChartData.date chart) / inject_Z (1000 * 60 * 60 * 24))%Q in
  Qmax 0 ((30 - daysSinceChart) / 30)%Q.

(** [scoreEntry] (lines 238-311); [now] is the clock reading of line 298. *)
Definition scoreEntry (now : Z) (entry : ChartEntry.t) (chart : ChartData.t)
    (query : SearchQuery.t) : option SearchResult.t :=
  let score := 0%Q in
  let matches : list SearchMatch.t := [] in
  if rankRangeFilter entry query then None
  else if weeksRangeFilter entry query then None
  else if peakRangeFilter entry query then None
  else if newEntriesFilter entry query then None
  else
    match scoreTitle entry query (score, matches) with
    | None => None
    | Some acc =>
        match scoreArtist entry query acc with
        | None => None
        | Some acc =>
            let '(score, matches) := scoreAlbum entry query acc in
            let score := (score + positionBoost entry)%Q in
            let score := (score + recencyBoost now chart)%Q in
            if Qeq_bool score 0 && (List.length matches =? 0)
            then None
            else Some (SearchResult.mk entry chart score matches)
        end
    end.

(** The clock as [search] reads it: on entry (line 84), once for each
    call of [scoreEntry], numbered in the order of the scan (line 298),
    and before the statistics are built (line 120). *)
Module SearchClock.
Record t := mk {
  startTime : Z;
  scoreTime : nat -> Z;
  endTime : Z
}.
End SearchClock.

(** [results.sort((a, b) => b.score - a.score)] (line 115).
    [Array.prototype.sort] is stable, and with this comparator a stable
    sort has one possible outcome: the insertion sort below computes it. *)
Fixpoint insertByScore (r : SearchResult.t) (sorted : list SearchResult.t)
    : list SearchResult.t :=
  match sorted with
  | [] => [r]
  | h :: t =>
      if JS.Qltb (SearchResult.score r) (SearchResult.score h)
      then h :: insertByScore r t
      else r :: sorted
  end.

Definition sortByScore (results : list SearchResult.t) : list SearchResult.t :=
  fold_right insertByScore [] results.

(** [result.matches.some(m => m.matchType === t)] *)
Definition MatchType_eqb (a b : MatchType) : bool :=
  match a, b with
  | Exact, Exact | Partial, Partial | Fuzzy, Fuzzy => true
  | _, _ => false
  end.

Definition hasMatch (t : MatchType) (r : SearchResult.t) : bool :=
  existsb (fun m => MatchType_eqb (SearchMatch.matchType m) t)
          (SearchResult.matches r).

(** The locals of [search] (lines 85-89), with the number of calls of
    [scoreEntry] made so far.  The set [chartsSearched] of strings
    [`${source}-${chartType}`] is a duplicate-free list of pairs. *)
Module Scan.
Record t := mk {
  results : list SearchResult.t;
  chartsSearched : list (ChartSource * string);
  exactMatches : nat;
  partialMatches : nat;
  fuzzyMatches : nat;
  scored : nat
}.
End Scan.

Definition setAdd (x : ChartSource * string) (s : list (ChartSource * string))
    : list (ChartSource * string) :=
  if existsb (fun y => ChartSource_eqb (fst y) (fst x) && (snd y =? snd x)%string) s
  then s else s ++ [x].

(** The body of the inner [forEach] (lines 97-111). *)
Definition scanEntry (clock : SearchClock.t) (query : SearchQuery.t)
    (chart : ChartData.t) (st : Scan.t) (entry : ChartEntry.t) : Scan.t :=
  let searchResult :=
    scoreEntry (SearchClock.scoreTime clock (Scan.scored st)) entry chart query in
  let scored := S (Scan.scored st) in
  match searchResult with
  | Some r =>
      if JS.Qltb 0 (SearchResult.score r) then
        let hasExact := hasMatch Exact r in
        let hasPartial := hasMatch Partial r in
        let hasFuzzy := hasMatch Fuzzy r in
        Scan.mk (Scan.results st ++ [r]) (Scan.chartsSearched st)
          (if hasExact then S (Scan.exactMatches st) else Scan.exactMatches st)
          (if hasExact then Scan.partialMatches st
           else if hasPartial then S (Scan.partialMatches st)
           else Scan.partialMatches st)
          (if hasExact then Scan.fuzzyMatches st
           else if hasPartial then Scan.fuzzyMatches st
           else if hasFuzzy then S (Scan.fuzzyMatches st)
           else Scan.fuzzyMatches st)
          scored
      else
        Scan.mk (Scan.results st) (Scan.chartsSearched st) (Scan.exactMatches st)
          (Scan.partialMatches st) (Scan.fuzzyMatches st) scored
  | None =>
      Scan.mk (Scan.results st) (Scan.chartsSearched st) (Scan.exactMatches st)
        (Scan.partialMatches st) (Scan.fuzzyMatches st) scored
  end.

(** The body of the outer [forEach] (lines 94-112). *)
Definition scanChart (clock : SearchClock.t) (query : SearchQuery.t)
    (st : Scan.t) (chart : ChartData.t) : Scan.t :=
  let st :=
    Scan.mk (Scan.results st)
      (setAdd (ChartData.source chart, ChartData.chartType chart)
         (Scan.chartsSearched st))
      (Scan.exactMatches st) (Scan.partialMatches st) (Scan.fuzzyMatches st)
      (Scan.scored st) in
  fold_left (scanEntry clock query chart) (ChartData.entries chart) st.

Module SearchOutput.
Record t := mk {
  results : list SearchResult.t;
  stats : SearchStats.t
}.
End SearchOutput.

(** [search] (lines 83-131) *)
Definition search (clock : SearchClock.t) (query : SearchQuery.t)
    (engine : SearchEngine.t) : SearchOutput.t :=
  let startTime := SearchClock.startTime clock in
  let relevantCharts := getRelevantCharts query engine in
  let st :=
    fold_left (scanChart clock query) relevantCharts (Scan.mk [] [] 0 0 0 0) in
  let results := sortByScore (Scan.results st) in
  let limitedResults :=
    match SearchQuery.limit query with
    | Some limit =>
        if JS.truthyNumber (Some limit) then JS.slice0 results limit else results
    | None => results
    end in
  let searchTime := (SearchClock.endTime clock - startTime)%Z in
  SearchOutput.mk limitedResults
    (SearchStats.mk (List.length limitedResults) searchTime
       (List.length (Scan.chartsSearched st))
       (Scan.exactMatches st) (Scan.partialMatches st) (Scan.fuzzyMatches st)).

(** The name of a field, as the keys of the index spell it. *)
Definition fieldName (field : Field) : string :=
  match field with
  | FTitle => "title"
  | FArtist => "artist"
  | FAlbum => "album"
  end.

(** The value that [quickSearch] reads in an entry (lines 143-145);
    [entry.album || ''] is the empty string without an album. *)
Definition fieldValue (field : Field) (entry : ChartEntry.t) : string :=
  match field with
  | FTitle => ChartEntry.title entry
  | FArtist => ChartEntry.artist entry
  | FAlbum =>
      match ChartEntry.album entry with
      | Some album => if JS.truthyString (Some album) then album else EmptyString
      | None => EmptyString
      end
  end.

(** [suggestions.add(value)] on a [Set] of strings, in insertion order. *)
Definition suggestionsAdd (suggestions : list string) (value : string)
    : list string :=
  if existsb (String.eqb value) suggestions
  then suggestions
  else suggestions ++ [value].

(** The inner [forEach] of [quickSearch] (lines 142-149). *)
Definition suggestFrom (field : Field) (lowerTerm : string)
    (entries : list ChartEntry.t) (suggestions : list string) : list string :=
  fold_left
    (fun suggestions entry =>
       let value := fieldValue field entry in
       if JS.includes (JS.toLowerCase value) lowerTerm
       then suggestionsAdd suggestions value
       else suggestions)
    entries suggestions.

(** The loop of [quickSearch] over the index (lines 140-153), with its
    [break]. *)
Fixpoint quickSearchLoop (field : Field) (lowerTerm : string) (limit : Z)
    (index : list (string * list ChartEntry.t)) (suggestions : list string)
    : list string :=
  match index with
  | [] => suggestions
  | (key, entries) :: rest =>
      let suggestions :=
        if JS.startsWith key (fieldName field ++ ":")%string
           && JS.includes key lowerTerm
        then suggestFrom field lowerTerm entries suggestions
        else suggestions in
      if (limit <=? Z.of_nat (List.length suggestions))%Z
      then suggestions
      else quickSearchLoop field lowerTerm limit rest suggestions
  end.

(** [quickSearch] (lines 136-156); [field] defaults to ['title'] and
    [limit] to 10. *)
Definition quickSearch (term : string) (field : Field) (limit : Z)
    (engine : SearchEngine.t) : list string :=
  let lowerTerm := JS.toLowerCase term in
  let suggestions :=
    quickSearchLoop field lowerTerm limit (SearchEngine.searchIndex engine) [] in
  JS.slice0 suggestions limit.

(** [s.replace(/[^a-z0-9]/g, '')] *)
Definition isLowerAlnum (c : ascii) : bool :=
  let n := nat_of_ascii c in
  ((97 <=? n) && (n <=? 122)) || ((48 <=? n) && (n <=? 57)).

Fixpoint keepLowerAlnum (s : string) : string :=
  match s with
  | EmptyString => EmptyString
  | String c s' =>
      if isLowerAlnum c then String c (keepLowerAlnum s') else keepLowerAlnum s'
  end.

(** [createEntryHash] ([utils/index.ts], lines 231-233) *)
Definition createEntryHash (entry : ChartEntry.t) : string :=
  keepLowerAlnum
    (JS.toLowerCase (ChartEntry.title entry ++ "-" ++ ChartEntry.artist entry)%string).

(** [findSimilar] (lines 161-174); [limit] defaults to 10. *)
Definition findSimilar (clock : SearchClock.t) (entry : ChartEntry.t) (limit : Z)
    (engine : SearchEngine.t) : list SearchResult.t :=
  let query :=
    SearchQuery.mk None (Some (ChartEntry.artist entry)) None None None None
      None None None false true (Some (limit + 1)%Z) in
  let results := SearchOutput.results (search clock query engine) in
  JS.slice0
    (filter
       (fun result =>
          negb (createEntryHash (SearchResult.entry result)
                =? createEntryHash entry)%string)
       results)
    limit.

(** ** The chart cache ([ChartCache.ts]) *)

(** The methods of the cache read the clock and the store and change the
    memory; a call that never returns has no result ([None]). *)
Definition Eff (S A : Type) : Type := S -> option (A * S).

Definition ret {S A} (a : A) : Eff S A := fun s => Some (a, s).

Definition bind {S A B} (m : Eff S A) (k : A -> Eff S B) : Eff S B :=
  fun s =>
    match m s with
    | Some (a, s') => k a s'
    | None => None
    end.

Declare Scope eff_scope.
Delimit Scope eff_scope with eff.
Notation "x <- m ;; k" := (bind m (fun x => k))
  (at level 100, m at next level, right associativity) : eff_scope.
Notation "m ;; k" := (bind m (fun _ => k))
  (at level 100, right associativity) : eff_scope.

(** [for (const a of l) body(a)] *)
Fixpoint forEach {S A} (l : list A) (body : A -> Eff S unit) : Eff S unit :=
  match l with
  | [] => ret tt
  | a :: l' => (body a ;; forEach l' body)%eff
  end.

(** The same with a local that the body updates. *)
Fixpoint forEachWith {S A B} (l : list A) (body : B -> A -> Eff S B) (b : B)
    : Eff S B :=
  match l with
  | [] => ret b
  | a :: l' => (b' <- body b a ;; forEachWith l' body b')%eff
  end.

Module CacheOptions.
Record t := mk {
  ttl : Z;
  maxSize : Z;
  persistent : bool
}.
End CacheOptions.

Module CacheItem.
Record t := mk {
  data : ChartData.t;
  timestamp : Z;
  ttl : Z
}.
End CacheItem.

(** [localStorage].  A stored text is represented by the item that
    [JSON.parse] and the revival of [data.date] (lines 210-217) give
    back for it: on the fields of the model, writing an item out and
    reading it back returns the item, a date being the same instant
    before and after.  Writes are taken to succeed. *)
Definition Storage : Type := list (string * CacheItem.t).

Module CacheStats.
Record t := mk {
  totalItems : nat;
  validItems : nat;
  expiredItems : nat;
  maxSize : Z;
  persistent : bool;
  ttl : Z
}.
End CacheStats.

Module ChartCache.

(** The object and what it sees of its surroundings: [localStorage]
    ([None] where it is undefined), and the clock with the number of
    readings made so far. *)
Record t := mk {
  memoryCache : list (string * CacheItem.t);
  options : CacheOptions.t;
  localStorage : option Storage;
  clock : nat -> Z;
  reads : nat
}.

Definition M : Type -> Type := Eff t.

(** [Date.now()] *)
Definition Date_now : M Z :=
  fun c =>
    Some (clock c (reads c),
          mk (memoryCache c) (options c) (localStorage c) (clock c) (S (reads c))).

Definition getMemory : M (list (string * CacheItem.t)) :=
  fun c => Some (memoryCache c, c).

Definition putMemory (m : list (string * CacheItem.t)) : M unit :=
  fun c => Some (tt, mk m (options c) (localStorage c) (clock c) (reads c)).

Definition getOptions : M CacheOptions.t :=
  fun c => Some (options c, c).

Definition getStorage : M (option Storage) :=
  fun c => Some (localStorage c, c).

Definition putStorage (s : Storage) : M unit :=
  fun c => Some (tt, mk (memoryCache c) (options c) (Some s) (clock c) (reads c)).

(** The prefix of the keys of the store. *)
Definition storagePrefix : string := "brickcharts-".

Local Open Scope eff_scope.

(** [isExpired] (lines 158-160) *)
Definition isExpired (item : CacheItem.t) : M bool :=
  now <- Date_now ;;
  ret (CacheItem.ttl item <? now - CacheItem.timestamp item)%Z.

(** The loop of [evictOldest] (lines 169-174), on its two locals. *)
Definition oldestScan (memory : list (string * CacheItem.t))
    (init : option string * Z) : option string * Z :=
  fold_left
    (fun '(oldestKey, oldestTime) '(key, item) =>
       if (CacheItem.timestamp item <? oldestTime)%Z
       then (Some key, CacheItem.timestamp item)
       else (oldestKey, oldestTime))
    memory init.

(** [evictOldest] (lines 165-179) *)
Definition evictOldest : M unit :=
  let oldestKey : option string := None in
  oldestTime <- Date_now ;;
  memory <- getMemory ;;
  let '(oldestKey, oldestTime) := oldestScan memory (oldestKey, oldestTime) in
  match oldestKey with
  | Some key =>
      if JS.truthyString (Some key)
      then putMemory (mapDelete String.eqb memory key)
      else ret tt
  | None => ret tt
  end.

(** [saveToStorage] (lines 184-198) *)
Definition saveToStorage (key : string) (item : CacheItem.t) : M unit :=
  storage <- getStorage ;;
  match storage with
  | None => ret tt
  | Some s =>
      putStorage (mapSet String.eqb s (storagePrefix ++ key)%string item)
  end.

(** [loadFromStorage] (lines 203-236).  Without a key, or with the
    empty key, which [if (key)] does not tell apart, it loads every
    item of the store, calling itself for each; [fuel] bounds the
    depth of these calls, and the call has no result when the bound is
    reached. *)
Fixpoint loadFromStorage (fuel : nat) (key : option string)
    : M (option CacheItem.t) :=
  storage <- getStorage ;;
  match storage with
  | None => ret None
  | Some s =>
      if JS.truthyString key then
        match key with
        | Some key => ret (mapGet String.eqb s (storagePrefix ++ key)%string)
        | None => ret None
        end
      else
        match fuel with
        | O => fun _ => None
        | S fuel' =>
            let keys :=
              filter (fun k => JS.startsWith k storagePrefix) (map fst s) in
            forEach keys
              (fun storageKey =>
                 let key :=
                   substring (String.length storagePrefix)
                     (String.length storageKey - String.length storagePrefix)
                     storageKey in
                 item <- loadFromStorage fuel' (Some key) ;;
                 match item with
                 | Some item =>
                     expired <- isExpired item ;;
                     if negb expired
                     then (memory <- getMemory ;;
                           putMemory (mapSet String.eqb memory key item))
                     else ret tt
                 | None => ret tt
                 end) ;;
            ret None
        end
  end.

(** The defaults of the constructor (lines 15-17). *)
Definition defaultOptions : CacheOptions.t :=
  CacheOptions.mk (1000 * 60 * 60) 100 true.

(** The constructor (lines 13-24), given the options after the
    defaults are filled in, the store and the clock.  The loading it
    starts is taken to have run before the first call of a method. *)
Definition create (fuel : nat) (opts : CacheOptions.t)
    (storage : option Storage) (clock : nat -> Z) : option t :=
  let this := mk [] opts storage clock 0 in
  if CacheOptions.persistent opts
  then match loadFromStorage fuel None this with
       | Some (_, this) => Some this
       | None => None
       end
  else Some this.

(** [set] (lines 29-50).  Nothing in the body can throw in the model,
    so the [catch] that wraps it is not reached. *)
Definition set (key : string) (data : ChartData.t) : M unit :=
  opts <- getOptions ;;
  now <- Date_now ;;
  let item := CacheItem.mk data now (CacheOptions.ttl opts) in
  memory <- getMemory ;;
  (if (CacheOptions.maxSize opts <=? Z.of_nat (List.length memory))%Z
   then evictOldest else ret tt) ;;
  memory <- getMemory ;;
  putMemory (mapSet String.eqb memory key item) ;;
  if CacheOptions.persistent opts
  then saveToStorage key item
  else ret tt.

(** [delete] (lines 88-94) *)
Definition delete (key : string) : M unit :=
  opts <- getOptions ;;
  memory <- getMemory ;;
  putMemory (mapDelete String.eqb memory key) ;;
  storage <- getStorage ;;
  match storage with
  | Some s =>
      if CacheOptions.persistent opts
      then putStorage (mapDelete String.eqb s (storagePrefix ++ key)%string)
      else ret tt
  | None => ret tt
  end.

(** [get] (lines 55-83); the result [None] is [null]. *)
Definition get (fuel : nat) (key : string) : M (option ChartData.t) :=
  opts <- getOptions ;;
  memory <- getMemory ;;
  let item := mapGet String.eqb memory key in
  item <-
    (if negb (JS.isSome item) && CacheOptions.persistent opts then
       loadedItem <- loadFromStorage fuel (Some key) ;;
       match loadedItem with
       | Some loaded =>
           memory <- getMemory ;;
           putMemory (mapSet String.eqb memory key loaded) ;;
           ret (Some loaded)
       | None => ret item
       end
     else ret item) ;;
  match item with
  | None => ret None
  | Some item =>
      expired <- isExpired item ;;
      if expired
      then (delete key ;; ret None)
      else ret (Some (CacheItem.data item))
  end.

(** [getStats] (lines 133-153) *)
Definition getStats : M CacheStats.t :=
  let expired := 0 in
  let valid := 0 in
  memory <- getMemory ;;
  counts <-
    forEachWith (map snd memory)
      (fun '(expired, valid) item =>
         isExp <- isExpired item ;;
         if isExp then ret (S expired, valid) else ret (expired, S valid))
      (expired, valid) ;;
  let '(expired, valid) := counts in
  memory <- getMemory ;;
  opts <- getOptions ;;
  ret (CacheStats.mk (List.length memory) valid expired
         (CacheOptions.maxSize opts) (CacheOptions.persistent opts)
         (CacheOptions.ttl opts)).

(** [clearByPattern] (lines 99-111) *)
Definition clearByPattern (pattern : string) : M unit :=
  memory <- getMemory ;;
  let keysToDelete :=
    filter (fun key => JS.includes key pattern) (map fst memory) in
  forEach keysToDelete delete.

(** [clear] (lines 116-128) *)
Definition clear : M unit :=
  opts <- getOptions ;;
  putMemory [] ;;
  storage <- getStorage ;;
  match storage with
  | Some s =>
      if CacheOptions.persistent opts then
        let keys := filter (fun key => JS.startsWith key storagePrefix) (map fst s) in
        forEach keys
          (fun key =>
             storage <- getStorage ;;
             match storage with
             | Some s => putStorage (mapDelete String.eqb s key)
             | None => ret tt
             end)
      else ret tt
  | None => ret tt
  end.

End ChartCache.

(** ** The cache of the library ([ChartDataManager.ts]) *)

(** The value of the enum [ChartSource]. *)
Definition sourceName (source : ChartSource) : string :=
  match source with
  | BILLBOARD => "billboard"
  | LASTFM => "lastfm"
  | CUSTOM => "custom"
  end.

(** A natural number in decimal, on at least [width] digits. *)
Fixpoint padDigits (width : nat) (n : Z) : string :=
  match width with
  | O => EmptyString
  | S width' =>
      (padDigits width' (n / 10)
       ++ String (ascii_of_nat (48 + Z.to_nat (n mod 10))) EmptyString)%string
  end.

(** The date of the proleptic Gregorian calendar that lies [days] days
    after 1970-01-01, as year, month and day. *)
Definition civilFromDays (days : Z) : Z * Z * Z :=
  let z := (days + 719468)%Z in
  let era := (z / 146097)%Z in
  let doe := (z - era * 146097)%Z in
  let yoe := ((doe - doe / 1460 + doe / 36524 - doe / 146096) / 365)%Z in
  let doy := (doe - (365 * yoe + yoe / 4 - yoe / 100))%Z in
  let mp := ((5 * doy + 2) / 153)%Z in
  let d := (doy - (153 * mp + 2) / 5 + 1)%Z in
  let m := (if mp <? 10 then mp + 3 else mp - 9)%Z in
  let y := (yoe + era * 400 + (if m <=? 2 then 1 else 0))%Z in
  (y, m, d).

(** [date.toISOString().split('T')[0]]: the UTC day of the instant, with
    a year of four digits from 0 to 9999 and a signed year of six digits
    outside. *)
Definition toISODate (date : Z) : string :=
  let '(y, m, d) := civilFromDays (date / 86400000) in
  let year :=
    if ((0 <=? y) && (y <=? 9999))%Z then padDigits 4 y
    else if (y <? 0)%Z then ("-" ++ padDigits 6 (- y))%string
    else ("+" ++ padDigits 6 y)%string in
  (year ++ "-" ++ padDigits 2 m ++ "-" ++ padDigits 2 d)%string.

Module ChartDataManager.

Import ChartCache.
Local Open Scope eff_scope.

(** [generateCacheKey] (lines 69-72) *)
Definition generateCacheKey (chartType : string) (source : ChartSource)
    (date : Z) : string :=
  let dateStr := toISODate date in
  (sourceName source ++ "-" ++ chartType ++ "-" ++ dateStr)%string.

(** [cacheChart] (lines 14-20) *)
Definition cacheChart (chartData : ChartData.t) : M unit :=
  ChartCache.set
    (generateCacheKey (ChartData.chartType chartData)
       (ChartData.source chartData) (ChartData.date chartData))
    chartData.

(** [getCachedChart] (lines 25-42); without a date, the clock gives it. *)
Definition getCachedChart (fuel : nat) (chartType : string)
    (source : ChartSource) (date : option Z) : M (option ChartData.t) :=
  date <- match date with
          | Some date => ret date
          | None => Date_now
          end ;;
  let key := generateCacheKey chartType source date in
  ChartCache.get fuel key.

(** [clearCache] (lines 47-58) *)
Definition clearCache (chartType : option string) (source : option ChartSource)
    : M unit :=
  match chartType, source with
  | Some chartType, Some source =>
      if JS.truthyString (Some chartType) then
        let pattern := (sourceName source ++ "-" ++ chartType ++ "-")%string in
        ChartCache.clearByPattern pattern
      else ChartCache.clear
  | _, _ => ChartCache.clear
  end.

(** [getCacheStats] (lines 63-65) *)
Definition getCacheStats : M CacheStats.t := ChartCache.getStats.

End ChartDataManager.

(** * Reference notions *)

(** ** Edit distance

    [edit s t n]: [s] becomes [t] by [n] single-character insertions,
    deletions and substitutions, read off an alignment of the two. *)
Inductive edit : list ascii -> list ascii -> nat -> Prop :=
| edit_nil : edit [] [] 0
| edit_keep a s t n : edit s t n -> edit (a :: s) (a :: t) n
| edit_subst a b s t n : edit s t n -> edit (a :: s) (b :: t) (S n)
| edit_delete a s t n : edit s t n -> edit (a :: s) t (S n)
| edit_insert b s t n : edit s t n -> edit s (b :: t) (S n).

(** The Levenshtein distance: the least number of edits. *)
Definition isLevenshtein (s t : list ascii) (d : nat) : Prop :=
  edit s t d /\ forall n, edit s t n -> d <= n.

(** The recursive computation of the distance, from the front. *)
Fixpoint lev (s t : list ascii) : nat :=
  match s with
  | [] => List.length t
  | a :: s' =>
      (fix lev_s (t : list ascii) : nat :=
         match t with
         | [] => List.length s
         | b :: t' =>
             if Ascii.eqb a b then lev s' t'
             else S (min3 (lev s' t') (lev_s t') (lev s' t))
         end) t
  end.

(** What the matrix of [calculateSimilarity] is to hold: the cell of row
    [i] and column [j] is the distance between the first [i] characters
    of [str2] and the first [j] characters of [str1], computed from
    their ends, as the loops do. *)
Definition cell (str1 str2 : string) (i j : nat) : nat :=
  lev (rev (firstn i (list_ascii_of_string str2)))
      (rev (firstn j (list_ascii_of_string str1))).

Definition fullRow (str1 str2 : string) (i : nat) : list nat :=
  map (cell str1 str2 i) (seq 0 (S (String.length str1))).

(** The rows that the main loop has filled, and those it has not reached. *)
Definition rowsDone (str1 str2 : string) (i : nat) : Matrix :=
  map (fullRow str1 str2) (seq 0 i).

Definition rowsTodo (len2 i : nat) : Matrix :=
  map (fun i' => [i']) (seq i (S len2 - i)).

(** The normalized similarity [(max(len1, len2) - d) / max(len1, len2)]
    of two strings of lengths [len1] and [len2] at distance [d]. *)
Definition normalizedSimilarity (len1 len2 d : nat) : Q :=
  (inject_Z (Z.of_nat (Nat.max len1 len2) - Z.of_nat d)
   / inject_Z (Z.of_nat (Nat.max len1 len2)))%Q.

(** [s] occurs in [t]. *)
Definition isSubstring (q s : string) : Prop :=
  exists pre post, s = (pre ++ q ++ post)%string.

(** [text] matches [query] neither exactly nor as a substring, case
    aside. *)
Definition noTextMatch (text query : string) : Prop :=
  JS.toLowerCase text <> JS.toLowerCase query /\
  ~ isSubstring (JS.toLowerCase query) (JS.toLowerCase text).

(** A text filter is supplied when it is a non-empty string: this is
    what [if (query.title)] tests. *)
Definition supplied (filter : option string) : Prop :=
  exists s, filter = Some s /\ s <> EmptyString.

(** A query with one of its filters taken away. *)
Definition withoutArtist (q : SearchQuery.t) : SearchQuery.t :=
  SearchQuery.mk (SearchQuery.title q) None (SearchQuery.album q)
    (SearchQuery.chartType q) (SearchQuery.source q) (SearchQuery.dateRange q)
    (SearchQuery.rankRange q) (SearchQuery.weeksRange q) (SearchQuery.peakRange q)
    (SearchQuery.newEntriesOnly q) (SearchQuery.fuzzy q) (SearchQuery.limit q).

Definition withoutAlbum (q : SearchQuery.t) : SearchQuery.t :=
  SearchQuery.mk (SearchQuery.title q) (SearchQuery.artist q) None
    (SearchQuery.chartType q) (SearchQuery.source q) (SearchQuery.dateRange q)
    (SearchQuery.rankRange q) (SearchQuery.weeksRange q) (SearchQuery.peakRange q)
    (SearchQuery.newEntriesOnly q) (SearchQuery.fuzzy q) (SearchQuery.limit q).

Definition withoutWeeksRange (q : SearchQuery.t) : SearchQuery.t :=
  SearchQuery.mk (SearchQuery.title q) (SearchQuery.artist q) (SearchQuery.album q)
    (SearchQuery.chartType q) (SearchQuery.source q) (SearchQuery.dateRange q)
    (SearchQuery.rankRange q) None (SearchQuery.peakRange q)
    (SearchQuery.newEntriesOnly q) (SearchQuery.fuzzy q) (SearchQuery.limit q).

Definition withoutPeakRange (q : SearchQuery.t) : SearchQuery.t :=
  SearchQuery.mk (SearchQuery.title q) (SearchQuery.artist q) (SearchQuery.album q)
    (SearchQuery.chartType q) (SearchQuery.source q) (SearchQuery.dateRange q)
    (SearchQuery.rankRange q) (SearchQuery.weeksRange q) None
    (SearchQuery.newEntriesOnly q) (SearchQuery.fuzzy q) (SearchQuery.limit q).

(** [v] lies outside the inclusive interval of [range]. *)
Definition outsideRange (v : Z) (range : Range.t) : Prop :=
  (v < Range.min range \/ Range.max range < v)%Z.

(** ** The corpus of the test suite

    The chart that the tests of the search engine index, dated
    2024-01-01, and the query with no filter. *)
Definition loveStory : ChartEntry.t :=
  ChartEntry.mk 1 "Love Story" "Taylor Swift" None None None None None
    1704067200000 BILLBOARD.

Definition blankSpace : ChartEntry.t :=
  ChartEntry.mk 2 "Blank Space" "Taylor Swift" None None None None None
    1704067200000 BILLBOARD.

Definition godsPlan : ChartEntry.t :=
  ChartEntry.mk 3 "God's Plan" "Drake" None None None None None
    1704067200000 BILLBOARD.

Definition mockChart : ChartData.t :=
  ChartData.mk "hot-100" 1704067200000 [loveStory; blankSpace; godsPlan]
    BILLBOARD 3.

Definition emptyQuery : SearchQuery.t :=
  SearchQuery.mk None None None None None None None None None false false None.

Definition artistQuery (artist : string) : SearchQuery.t :=
  SearchQuery.mk None (Some artist) None None None None None None None
    false false None.

(** ** What a search scans and keeps *)

(** The entries that [search] scores, each with its chart, in the order
    of the scan. *)
Definition scanned (query : SearchQuery.t) (engine : SearchEngine.t)
    : list (ChartData.t * ChartEntry.t) :=
  flat_map (fun chart => map (pair chart) (ChartData.entries chart))
           (getRelevantCharts query engine).

(** The passing entries: the results of [scoreEntry], each at the clock
    reading of its call, that exist and have a positive score.  [k] is
    the number of the first call. *)
Fixpoint passingFrom (clock : SearchClock.t) (query : SearchQuery.t) (k : nat)
    (pairs : list (ChartData.t * ChartEntry.t)) : list SearchResult.t :=
  match pairs with
  | [] => []
  | (chart, entry) :: rest =>
      match scoreEntry (SearchClock.scoreTime clock k) entry chart query with
      | Some r =>
          if JS.Qltb 0 (SearchResult.score r)
          then r :: passingFrom clock query (S k) rest
          else passingFrom clock query (S k) rest
      | None => passingFrom clock query (S k) rest
      end
  end.

Definition passing (clock : SearchClock.t) (query : SearchQuery.t)
    (engine : SearchEngine.t) : list SearchResult.t :=
  passingFrom clock query 0 (scanned query engine).

(** Non-increasing order of score. *)
Definition scoreDescending (a b : SearchResult.t) : Prop :=
  (SearchResult.score b <= SearchResult.score a)%Q.

Definition withoutLimit (q : SearchQuery.t) : SearchQuery.t :=
  SearchQuery.mk (SearchQuery.title q) (SearchQuery.artist q) (SearchQuery.album q)
    (SearchQuery.chartType q) (SearchQuery.source q) (SearchQuery.dateRange q)
    (SearchQuery.rankRange q) (SearchQuery.weeksRange q) (SearchQuery.peakRange q)
    (SearchQuery.newEntriesOnly q) (SearchQuery.fuzzy q) None.

(** A query with no text filter, no rank, weeks or peak bound, and
    [newEntriesOnly] unset. *)
Definition unfiltered (q : SearchQuery.t) : Prop :=
  SearchQuery.title q = None /\ SearchQuery.artist q = None /\
  SearchQuery.album q = None /\ SearchQuery.rankRange q = None /\
  SearchQuery.weeksRange q = None /\ SearchQuery.peakRange q = None /\
  SearchQuery.newEntriesOnly q = false.

(** A clock that stands still. *)
Definition fixedClock (t : Z) : SearchClock.t :=
  SearchClock.mk t (fun _ => t) t.

(** The engine of the test suite, and queries on it. *)
Definition mockEngine : SearchEngine.t :=
  indexChartData [mockChart] newSearchEngine.

Definition limitQuery (q : SearchQuery.t) (limit : Z) : SearchQuery.t :=
  SearchQuery.mk (SearchQuery.title q) (SearchQuery.artist q) (SearchQuery.album q)
    (SearchQuery.chartType q) (SearchQuery.source q) (SearchQuery.dateRange q)
    (SearchQuery.rankRange q) (SearchQuery.weeksRange q) (SearchQuery.peakRange q)
    (SearchQuery.newEntriesOnly q) (SearchQuery.fuzzy q) (Some limit).

Definition sourceQuery (source : ChartSource) : SearchQuery.t :=
  SearchQuery.mk None None None None (Some source) None None None None
    false false None.

(** Two calls that score every entry at the same time but start and
    end at different times. *)
Definition firstCall : SearchClock.t :=
  SearchClock.mk 1704067200000 (fun _ => 1704067200005%Z) 1704067200009.

Definition secondCall : SearchClock.t :=
  SearchClock.mk 1704067200010 (fun _ => 1704067200005%Z) 1704067200020.

(** ** The cache *)

(** The memory after [evictOldest] has run with the clock reading
    [now]. *)
Definition afterEvict (now : Z) (memory : list (string * CacheItem.t))
    : list (string * CacheItem.t) :=
  match ChartCache.oldestScan memory (None, now) with
  | (Some key, _) =>
      if JS.truthyString (Some key) then mapDelete String.eqb memory key else memory
  | (None, _) => memory
  end.

(** A sequence of calls of [set]. *)
Definition setAll (items : list (string * ChartData.t)) : ChartCache.M unit :=
  forEach items (fun '(key, data) => ChartCache.set key data).

(** The items that are not expired, the first being checked at the
    reading number [t] of the clock, the next at the following one, and
    so on, as [getStats] does. *)
Fixpoint validCount (clock : nat -> Z) (t : nat) (items : list CacheItem.t) : nat :=
  match items with
  | [] => 0
  | item :: rest =>
      (if (CacheItem.ttl item <? clock t - CacheItem.timestamp item)%Z then 0 else 1)
      + validCount clock (S t) rest
  end.

(** Insertion timestamps grow along the memory. *)
Definition olderThan (a b : string * CacheItem.t) : Prop :=
  (CacheItem.timestamp (snd a) < CacheItem.timestamp (snd b))%Z.

(** What holds of a cache with the clock [clk] and the options [opts]
    after the keys [pre] were set, in this order, starting from an empty
    memory: the memory holds the last [maxSize] of them, oldest first,
    each stamped with an earlier reading of the clock. *)
Definition newestKeptFor (clk : nat -> Z) (opts : CacheOptions.t)
    (pre : list string) (c : ChartCache.t) : Prop :=
  ChartCache.clock c = clk /\
  ChartCache.options c = opts /\
  map fst (ChartCache.memoryCache c)
  = skipn (List.length pre - Z.to_nat (CacheOptions.maxSize opts)) pre /\
  StronglySorted olderThan (ChartCache.memoryCache c) /\
  (forall e, In e (ChartCache.memoryCache c) ->
             exists i, i < ChartCache.reads c /\ CacheItem.timestamp (snd e) = clk i).

(** A clock that advances by one millisecond at each reading. *)
Definition tickingClock (i : nat) : Z := Z.of_nat i.

(** A cache of two entries at most, without a store. *)
Definition smallCache : ChartCache.t :=
  ChartCache.mk [] (CacheOptions.mk 3600000 2 false) None tickingClock 0.

(** ** The cache, further *)

(** The state that [delete] leaves. *)
Definition afterDelete (key : string) (c : ChartCache.t) : ChartCache.t :=
  ChartCache.mk (mapDelete String.eqb (ChartCache.memoryCache c) key)
    (ChartCache.options c)
    (match ChartCache.localStorage c with
     | Some s =>
         if CacheOptions.persistent (ChartCache.options c)
         then Some (mapDelete String.eqb s (ChartCache.storagePrefix ++ key)%string)
         else Some s
     | None => None
     end)
    (ChartCache.clock c) (ChartCache.reads c).

(** The item that [set] stores for [data] in the cache [c]. *)
Definition itemAt (c : ChartCache.t) (data : ChartData.t) : CacheItem.t :=
  CacheItem.mk data (ChartCache.clock c (ChartCache.reads c))
    (CacheOptions.ttl (ChartCache.options c)).

(** [item] is expired at the time [now]. *)
Definition expiredAt (now : Z) (item : CacheItem.t) : Prop :=
  (now - CacheItem.timestamp item > CacheItem.ttl item)%Z.

(** What a sequence of [set] calls keeps true of a cache whose clock
    grows: distinct non-empty keys, timestamps read earlier on the
    clock, and no more entries than [maxSize]. *)
Definition withinCapacity (c : ChartCache.t) : Prop :=
  NoDup (map fst (ChartCache.memoryCache c)) /\
  (forall key, In key (map fst (ChartCache.memoryCache c)) -> key <> EmptyString) /\
  (forall e, In e (ChartCache.memoryCache c) ->
             exists i, i < ChartCache.reads c /\
                       CacheItem.timestamp (snd e) = ChartCache.clock c i) /\
  (Z.of_nat (List.length (ChartCache.memoryCache c))
   <= CacheOptions.maxSize (ChartCache.options c))%Z.

(** ** Searching, further *)

(** A query with its three text filters taken away. *)
Definition withoutText (q : SearchQuery.t) : SearchQuery.t :=
  SearchQuery.mk None None None
    (SearchQuery.chartType q) (SearchQuery.source q) (SearchQuery.dateRange q)
    (SearchQuery.rankRange q) (SearchQuery.weeksRange q) (SearchQuery.peakRange q)
    (SearchQuery.newEntriesOnly q) (SearchQuery.fuzzy q) (SearchQuery.limit q).

(** [v] lies in the inclusive interval of [range]. *)
Definition inRange (v : Z) (range : Range.t) : Prop :=
  (Range.min range <= v <= Range.max range)%Z.

(** The fuzzy artist query of the tests. *)
Definition fuzzyArtistQuery (artist : string) : SearchQuery.t :=
  SearchQuery.mk None (Some artist) None None None None None None None
    false true None.

(** The results that the counters of [search] count: those with an
    exact match; those with a partial match and no exact one; those
    with a fuzzy match only. *)
Definition countExact (results : list SearchResult.t) : nat :=
  List.length (filter (hasMatch Exact) results).

Definition countPartial (results : list SearchResult.t) : nat :=
  List.length
    (filter (fun r => negb (hasMatch Exact r) && hasMatch Partial r) results).

Definition countFuzzy (results : list SearchResult.t) : nat :=
  List.length
    (filter (fun r => negb (hasMatch Exact r) && negb (hasMatch Partial r)
                      && hasMatch Fuzzy r)
       results).

(** The chart indexed last under [key] among [charts]. *)
Definition lastIndexed (key : ChartKey) (charts : list ChartData.t)
    : option ChartData.t :=
  find (fun chart => ChartKey_eqb (chartKey chart) key) (rev charts).

(** A stage of the text matching either leaves the score and the
    matches as they are, or records a match and does not lower the
    score. *)
Definition grown (acc acc' : Scoring) : Prop :=
  acc' = acc \/ ((fst acc <= fst acc')%Q /\ snd acc' <> []).

(** The counters of a scan count its results. *)
Definition counted (st : Scan.t) : Prop :=
  Scan.exactMatches st = countExact (Scan.results st) /\
  Scan.partialMatches st = countPartial (Scan.results st) /\
  Scan.fuzzyMatches st = countFuzzy (Scan.results st).

(** The index holds [entry] in the bucket of [key]. *)
Definition indexed (index : list (string * list ChartEntry.t)) (key : string)
    (entry : ChartEntry.t) : Prop :=
  exists bucket, mapGet String.eqb index key = Some bucket /\ In entry bucket.

(** What [quickSearch] may suggest from an index: the value that an
    entry of a bucket of the field has in the field, when it contains
    the term. *)
Definition suggestible (field : Field) (lowerTerm : string)
    (index : list (string * list ChartEntry.t)) (value : string) : Prop :=
  isSubstring lowerTerm (JS.toLowerCase value) /\
  exists key entries entry,
    In (key, entries) index /\ In entry entries /\
    fieldValue field entry = value /\
    JS.startsWith key (fieldName field ++ ":")%string = true.

(** The query that [findSimilar] builds (lines 162-166). *)
Definition similarQuery (entry : ChartEntry.t) (limit : Z) : SearchQuery.t :=
  SearchQuery.mk None (Some (ChartEntry.artist entry)) None None None None
    None None None false true (Some (limit + 1)%Z).

(** [s] lower-cased, without the characters that [createEntryHash]
    drops. *)
Definition normalized (s : string) : string := keepLowerAlnum (JS.toLowerCase s).

(** The instants that a [Date] can hold. *)
Definition validDate (date : Z) : Prop :=
  (-8640000000000000 <= date <= 8640000000000000)%Z.

(** The results whose score is [score]. *)
Definition scoring (score : Q) (results : list SearchResult.t)
    : list SearchResult.t :=
  filter (fun r => Qeq_bool (SearchResult.score r) score) results.

(** The key under which [loadFromStorage] puts the item stored under
    [storageKey] (line 224). *)
Definition memoryKey (storageKey : string) : string :=
  substring (String.length ChartCache.storagePrefix)
    (String.length storageKey - String.length ChartCache.storagePrefix) storageKey.

(** The keys of the store that belong to the library. *)
Definition libraryKeys (s : Storage) : list string :=
  filter (fun k => JS.startsWith k ChartCache.storagePrefix) (map fst s).

(** The keys under which [indexChartData] files an entry (lines 68-75):
    its title, its artist, its album when it has one, and title and
    artist together, lower-cased. *)
Definition entryKeys (entry : ChartEntry.t) : list string :=
  [("title:" ++ JS.toLowerCase (ChartEntry.title entry))%string;
   ("artist:" ++ JS.toLowerCase (ChartEntry.artist entry))%string]
  ++ match ChartEntry.album entry with
     | Some album =>
         if JS.truthyString (Some album)
         then [("album:" ++ JS.toLowerCase album)%string]
         else []
     | None => []
     end
  ++ [("full:"
       ++ JS.toLowerCase (ChartEntry.title entry ++ " " ++ ChartEntry.artist entry))%string].

(** ** Evictions *)

(** [e] is the first entry of the smallest timestamp in [memory], which
    is [l1], [e] and [l2] in this order. *)
Definition firstOldest (memory l1 : list (string * CacheItem.t))
    (e : string * CacheItem.t) (l2 : list (string * CacheItem.t)) : Prop :=
  memory = l1 ++ e :: l2 /\
  Forall (fun e' => (CacheItem.timestamp (snd e) < CacheItem.timestamp (snd e'))%Z) l1 /\
  Forall (fun e' => (CacheItem.timestamp (snd e) <= CacheItem.timestamp (snd e'))%Z) l2.

(** The test of line 38: the memory has [maxSize] entries or more. *)
Definition isFull (c : ChartCache.t) : Prop :=
  (CacheOptions.maxSize (ChartCache.options c)
   <= Z.of_nat (List.length (ChartCache.memoryCache c)))%Z.

(** What a call [set(key, data)] that takes the cache from [c] to [c']
    has done to the memory: on a full cache it has removed one entry,
    the first of the smallest timestamp, and in both cases it has put
    the new entry last, stamped with the first reading of the call. *)
Definition evictsOldest (key : string) (data : ChartData.t) (c c' : ChartCache.t)
    : Prop :=
  (isFull c ->
   exists l1 e l2,
     firstOldest (ChartCache.memoryCache c) l1 e l2 /\
     ChartCache.memoryCache c' = l1 ++ l2 ++ [(key, itemAt c data)]) /\
  (~ isFull c ->
   ChartCache.memoryCache c' = ChartCache.memoryCache c ++ [(key, itemAt c data)]).

(** A clock that gives each time twice: two readings in a row fall in
    the same millisecond. *)
Definition slowClock (i : nat) : Z := Z.of_nat (Nat.div2 i).

(** * Properties *)

(** ** Strings *)

Lemma toLowerCase_length s : String.length (JS.toLowerCase s) = String.length s.
Proof. induction s as [|c s IH]; simpl; congruence. Qed.

Lemma prefix_spec p s : prefix p s = true <-> exists post, s = (p ++ post)%string.
Proof.
  revert s; induction p as [|a p IH]; intros s; simpl.
  - split; [intros _; exists s; reflexivity | intros _; now destruct s].
  - destruct s as [|b s]; simpl.
    + split; [discriminate | intros [post H]; discriminate].
    + destruct (ascii_dec a b) as [->|Hab].
      * rewrite IH. split; intros [post H]; exists post.
        -- simpl. now rewrite H.
        -- simpl in H. now injection H.
      * split; [discriminate|]. intros [post H]. simpl in H.
        injection H as H1 H2. congruence.
Qed.

Lemma includes_spec s q : JS.includes s q = true <-> isSubstring q s.
Proof.
  unfold isSubstring. induction s as [|c s IH].
  - change (JS.includes "" q) with (prefix q "" || false).
    rewrite orb_false_r, prefix_spec. split.
    + intros [post H]. exists EmptyString, post. exact H.
    + intros [pre [post H]]. destruct pre; simpl in H; [|discriminate].
      exists post. exact H.
  - change (JS.includes (String c s) q)
      with (prefix q (String c s) || JS.includes s q).
    rewrite orb_true_iff, IH, prefix_spec. split.
    + intros [[post H]|[pre [post H]]].
      * exists EmptyString, post. exact H.
      * exists (String c pre), post. simpl. now rewrite H.
    + intros [pre [post H]]. destruct pre as [|c' pre]; simpl in H.
      * left. exists post. exact H.
      * right. injection H as _ H. exists pre, post. exact H.
Qed.

Lemma string_length_list s :
  List.length (list_ascii_of_string s) = String.length s.
Proof. induction s; simpl; congruence. Qed.

Lemma string_get_list s i :
  String.get i s = nth_error (list_ascii_of_string s) i.
Proof.
  revert i; induction s as [|c s IH]; intros [|i]; simpl; auto.
Qed.

(** ** The recursive distance is the Levenshtein distance *)

Lemma lev_nil_r s : lev s [] = List.length s.
Proof. destruct s; reflexivity. Qed.

Lemma lev_cons a b s t :
  lev (a :: s) (b :: t) =
  if Ascii.eqb a b then lev s t
  else S (min3 (lev s t) (lev (a :: s) t) (lev s (b :: t))).
Proof. reflexivity. Qed.

Lemma lev_sym s t : lev s t = lev t s.
Proof.
  revert t; induction s as [|a s IHs]; intros t.
  - now rewrite lev_nil_r.
  - induction t as [|b t IHt]; [reflexivity|].
    rewrite !lev_cons, Ascii.eqb_sym, IHt, (IHs t), (IHs (b :: t)).
    destruct (Ascii.eqb b a); [reflexivity|]. unfold min3. lia.
Qed.

Lemma lev_step s :
  (forall t b, lev s t <= S (lev s (b :: t))) /\
  (forall t a, lev (a :: s) t <= S (lev s t)).
Proof.
  induction s as [|a s [IHl IHu]].
  - assert (L : forall t b, lev [] t <= S (lev [] (b :: t))) by (intros; simpl; lia).
    split; [exact L|]. intros [|b t] a; [simpl; lia|].
    rewrite lev_cons. destruct (Ascii.eqb a b).
    + apply L.
    + unfold min3. lia.
  - assert (L : forall t b, lev (a :: s) t <= S (lev (a :: s) (b :: t))).
    { intros t b. rewrite lev_cons. destruct (Ascii.eqb a b).
      - apply IHu.
      - pose proof (IHu t a). pose proof (IHl t b). unfold min3. lia. }
    split; [exact L|]. intros [|b t] a'.
    + simpl. lia.
    + rewrite (lev_cons a' b). destruct (Ascii.eqb a' b).
      * apply L.
      * unfold min3. lia.
Qed.

Lemma lev_delete a s t : lev (a :: s) t <= S (lev s t).
Proof. apply lev_step. Qed.

Lemma lev_insert b s t : lev s (b :: t) <= S (lev s t).
Proof. rewrite (lev_sym s (b :: t)), (lev_sym s t). apply lev_delete. Qed.

Lemma lev_sound s t : edit s t (lev s t).
Proof.
  revert t; induction s as [|a s IHs]; intros t.
  - induction t as [|b t IHt]; simpl; [constructor|].
    apply edit_insert. exact IHt.
  - induction t as [|b t IHt].
    + rewrite lev_nil_r. specialize (IHs []). rewrite lev_nil_r in IHs.
      simpl. apply edit_delete. exact IHs.
    + rewrite lev_cons. destruct (Ascii.eqb_spec a b) as [->|Hab].
      * apply edit_keep, IHs.
      * unfold min3.
        destruct (Nat.min_spec (lev s t) (Nat.min (lev (a :: s) t) (lev s (b :: t))))
          as [[_ ->]|[_ ->]].
        -- apply edit_subst, IHs.
        -- destruct (Nat.min_spec (lev (a :: s) t) (lev s (b :: t)))
             as [[_ ->]|[_ ->]].
           ++ apply edit_insert, IHt.
           ++ apply edit_delete, IHs.
Qed.

Lemma lev_optimal s t n : edit s t n -> lev s t <= n.
Proof.
  induction 1 as [|a s t n _ IH|a b s t n _ IH|a s t n _ IH|b s t n _ IH].
  - simpl. lia.
  - rewrite lev_cons, Ascii.eqb_refl. exact IH.
  - rewrite lev_cons. destruct (Ascii.eqb a b); unfold min3; lia.
  - pose proof (lev_delete a s t). lia.
  - pose proof (lev_insert b s t). lia.
Qed.

Lemma lev_isLevenshtein s t : isLevenshtein s t (lev s t).
Proof. split; [apply lev_sound | apply lev_optimal]. Qed.

Lemma isLevenshtein_unique s t d d' :
  isLevenshtein s t d -> isLevenshtein s t d' -> d = d'.
Proof.
  intros [H1 H2] [H1' H2']. apply Nat.le_antisymm; auto.
Qed.

(** Edits can be made at the end as well as at the front, so reversing
    both strings keeps the distance. *)
Lemma edit_snoc_keep a s t n : edit s t n -> edit (s ++ [a]) (t ++ [a]) n.
Proof. induction 1; simpl; try (constructor; assumption). repeat constructor. Qed.

Lemma edit_snoc_subst a b s t n : edit s t n -> edit (s ++ [a]) (t ++ [b]) (S n).
Proof. induction 1; simpl; try (constructor; assumption). repeat constructor. Qed.

Lemma edit_snoc_delete a s t n : edit s t n -> edit (s ++ [a]) t (S n).
Proof. induction 1; simpl; try (constructor; assumption). repeat constructor. Qed.

Lemma edit_snoc_insert b s t n : edit s t n -> edit s (t ++ [b]) (S n).
Proof. induction 1; simpl; try (constructor; assumption). repeat constructor. Qed.

Lemma edit_rev s t n : edit s t n -> edit (rev s) (rev t) n.
Proof.
  induction 1; simpl.
  - constructor.
  - now apply edit_snoc_keep.
  - now apply edit_snoc_subst.
  - now apply edit_snoc_delete.
  - now apply edit_snoc_insert.
Qed.

Lemma lev_rev s t : lev (rev s) (rev t) = lev s t.
Proof.
  apply Nat.le_antisymm.
  - apply lev_optimal, edit_rev, lev_sound.
  - rewrite <- (rev_involutive s), <- (rev_involutive t) at 1.
    apply lev_optimal, edit_rev, lev_sound.
Qed.

Lemma lev_bound s t : lev s t <= Nat.max (List.length s) (List.length t).
Proof.
  revert t; induction s as [|a s IHs]; intros t; [simpl; lia|].
  induction t as [|b t IHt]; [simpl; lia|].
  rewrite lev_cons. specialize (IHs t).
  destruct (Ascii.eqb a b); unfold min3; simpl List.length; lia.
Qed.

(** ** The matrix holds the distances of the prefixes *)

Lemma forRange_inv {St} (P : nat -> St -> Prop) lo hi body init :
  lo <= S hi ->
  P lo init ->
  (forall i st, lo <= i <= hi -> P i st -> P (S i) (body i st)) ->
  P (S hi) (JS.forRange lo hi body init).
Proof.
  unfold JS.forRange. intros Hle H0 Hstep.
  remember (S hi - lo) as n eqn:Hn.
  assert (E : S hi = lo + n) by lia. rewrite E.
  assert (Hstep' : forall i st, lo <= i < lo + n -> P i st -> P (S i) (body i st))
    by (intros; apply Hstep; [lia|assumption]).
  clear Hn E Hle Hstep. revert lo init H0 Hstep'.
  induction n as [|n IH]; intros lo init H0 Hstep; simpl.
  - now rewrite Nat.add_0_r.
  - rewrite <- Nat.add_succ_comm. apply IH.
    + apply Hstep; [lia|assumption].
    + intros i st Hi. apply Hstep. lia.
Qed.

Lemma arraySet_end {A} (hole : A) a v :
  JS.arraySet hole a (List.length a) v = a ++ [v].
Proof.
  unfold JS.arraySet. rewrite Nat.ltb_irrefl, Nat.sub_diag. reflexivity.
Qed.

Lemma arraySet_middle {A} (hole : A) a x b v :
  JS.arraySet hole (a ++ x :: b) (List.length a) v = a ++ v :: b.
Proof.
  unfold JS.arraySet.
  assert (H : (List.length a <? List.length (a ++ x :: b)) = true)
    by (apply Nat.ltb_lt; rewrite length_app; simpl; lia).
  rewrite H, firstn_app, firstn_all, Nat.sub_diag, skipn_app.
  rewrite skipn_all2 by lia.
  replace (S (List.length a) - List.length a) with 1 by lia.
  simpl. now rewrite app_nil_r.
Qed.

Lemma arrayGet_middle {A} (d : A) a x b :
  JS.arrayGet d (a ++ x :: b) (List.length a) = x.
Proof. unfold JS.arrayGet. apply nth_middle. Qed.

Lemma arraySet_at {A} (hole : A) a x b v i :
  i = List.length a -> JS.arraySet hole (a ++ x :: b) i v = a ++ v :: b.
Proof. intros ->. apply arraySet_middle. Qed.

Lemma arrayGet_at {A} (d : A) a x b i :
  i = List.length a -> JS.arrayGet d (a ++ x :: b) i = x.
Proof. intros ->. apply arrayGet_middle. Qed.

Lemma arraySet_push {A} (hole : A) a v i :
  i = List.length a -> JS.arraySet hole a i v = a ++ [v].
Proof. intros ->. apply arraySet_end. Qed.

Lemma arrayGet_front {A} (d : A) a b i :
  i < List.length a -> JS.arrayGet d (a ++ b) i = JS.arrayGet d a i.
Proof. intros H. unfold JS.arrayGet. now apply app_nth1. Qed.

Lemma arrayGet_map_seq {A} (d : A) (f : nat -> A) n k :
  k < n -> JS.arrayGet d (map f (seq 0 n)) k = f k.
Proof.
  intros H. unfold JS.arrayGet.
  rewrite (nth_indep _ d (f 0)) by (rewrite length_map, length_seq; exact H).
  rewrite (map_nth f (seq 0 n) 0 k), seq_nth by exact H. reflexivity.
Qed.

Lemma map_seq_snoc {A} (f : nat -> A) n : map f (seq 0 (S n)) = map f (seq 0 n) ++ [f n].
Proof. rewrite seq_S, map_app. reflexivity. Qed.

Lemma firstn_snoc {A} (l : list A) k c :
  nth_error l k = Some c -> firstn (S k) l = firstn k l ++ [c].
Proof.
  revert k; induction l as [|x l IH]; intros [|k] H; simpl in *; try discriminate.
  - now injection H as ->.
  - f_equal. now apply IH.
Qed.

Lemma rowsTodo_cons len2 i :
  i <= len2 -> rowsTodo len2 i = [i] :: rowsTodo len2 (S i).
Proof.
  intros H. unfold rowsTodo.
  replace (S len2 - i) with (S (S len2 - S i)) by lia. reflexivity.
Qed.

Section EditMatrix.
Variables str1 str2 : string.

Let len1 := String.length str1.
Let len2 := String.length str2.

Lemma cell_row0 j : j <= len1 -> cell str1 str2 0 j = j.
Proof.
  intros H. unfold cell. simpl.
  rewrite length_rev, length_firstn, string_length_list. fold len1. lia.
Qed.

Lemma cell_col0 i : i <= len2 -> cell str1 str2 i 0 = i.
Proof.
  intros H. unfold cell. simpl.
  rewrite lev_nil_r, length_rev, length_firstn, string_length_list.
  fold len2. lia.
Qed.

(** The recurrence that the body of the inner loop evaluates. *)
Lemma cell_step i j :
  i < len2 -> j < len1 ->
  cell str1 str2 (S i) (S j) =
  if (JS.charAt str2 i =? JS.charAt str1 j)%string
  then cell str1 str2 i j
  else min3 (cell str1 str2 i j + 1)
            (cell str1 str2 (S i) j + 1)
            (cell str1 str2 i (S j) + 1).
Proof.
  intros Hi Hj. unfold JS.charAt. rewrite !string_get_list.
  destruct (nth_error (list_ascii_of_string str2) i) as [c2|] eqn:E2.
  2:{ apply nth_error_None in E2. rewrite string_length_list in E2.
      fold len2 in E2. lia. }
  destruct (nth_error (list_ascii_of_string str1) j) as [c1|] eqn:E1.
  2:{ apply nth_error_None in E1. rewrite string_length_list in E1.
      fold len1 in E1. lia. }
  unfold cell. rewrite (firstn_snoc _ _ _ E2), (firstn_snoc _ _ _ E1).
  rewrite !rev_app_distr. simpl rev. simpl app. rewrite lev_cons.
  replace (String c2 "" =? String c1 "")%string with (Ascii.eqb c2 c1).
  2:{ simpl. destruct (Ascii.eqb c2 c1); reflexivity. }
  destruct (Ascii.eqb c2 c1); [reflexivity|].
  unfold min3. lia.
Qed.

Lemma rowsDone_length i : List.length (rowsDone str1 str2 i) = i.
Proof. unfold rowsDone. now rewrite length_map, length_seq. Qed.

Lemma init_rows :
  JS.forRange 0 len2 (fun i m => JS.arraySet [] m i [i]) ([] : Matrix)
  = rowsTodo len2 0.
Proof.
  unfold rowsTodo. rewrite Nat.sub_0_r.
  apply (forRange_inv (fun i m => m = map (fun i' => [i']) (seq 0 i))).
  - lia.
  - reflexivity.
  - intros i st _ ->.
    rewrite arraySet_push by (now rewrite length_map, length_seq).
    rewrite seq_S, map_app. reflexivity.
Qed.

Lemma init_row0 :
  JS.forRange 0 len1 (fun j m => matSet m 0 j j) (rowsTodo len2 0)
  = rowsDone str1 str2 1 ++ rowsTodo len2 1.
Proof.
  assert (E : fullRow str1 str2 0 = seq 0 (S len1)).
  { unfold fullRow. fold len1. rewrite <- (map_id (seq 0 (S len1))) at 2.
    apply map_ext_in. intros j Hj. apply in_seq in Hj.
    apply cell_row0. lia. }
  unfold rowsDone. simpl map. rewrite E. simpl app.
  apply (forRange_inv
           (fun j m => m = (match j with 0 => [0] | _ => seq 0 j end)
                           :: rowsTodo len2 1)).
  - lia.
  - rewrite rowsTodo_cons by lia. reflexivity.
  - intros j st _ ->. unfold matSet.
    change (JS.arrayGet [] (?r :: ?rest) 0) with r.
    destruct j as [|j].
    + reflexivity.
    + cbv iota.
      rewrite (arraySet_push 0 (seq 0 (S j))) by (now rewrite length_seq).
      replace (seq 0 (S j) ++ [S j]) with (seq 0 (S (S j)))
        by (rewrite (seq_S (S j) 0); reflexivity).
      reflexivity.
Qed.

(** One pass of the inner loop fills row [i]. *)
Lemma fill_row i :
  1 <= i <= len2 ->
  JS.forRange 1 len1
    (fun j m =>
       if (JS.charAt str2 (i - 1) =? JS.charAt str1 (j - 1))%string
       then matSet m i j (matGet m (i - 1) (j - 1))
       else matSet m i j
              (min3 (matGet m (i - 1) (j - 1) + 1)
                    (matGet m i (j - 1) + 1)
                    (matGet m (i - 1) j + 1)))
    (rowsDone str1 str2 i ++ rowsTodo len2 i)
  = rowsDone str1 str2 (S i) ++ rowsTodo len2 (S i).
Proof.
  intros Hi.
  set (Q := fun j (m : Matrix) =>
              m = rowsDone str1 str2 i
                  ++ map (cell str1 str2 i) (seq 0 j) :: rowsTodo len2 (S i)).
  assert (HQ : forall m, Q (S len1) m ->
                         m = rowsDone str1 str2 (S i) ++ rowsTodo len2 (S i)).
  { unfold Q. intros m ->. unfold rowsDone at 2.
    rewrite (map_seq_snoc (fullRow str1 str2) i), <- app_assoc. reflexivity. }
  apply HQ. apply (forRange_inv Q).
  - lia.
  - unfold Q. rewrite rowsTodo_cons by lia. simpl map.
    rewrite cell_col0 by lia. reflexivity.
  - intros j m Hj HQj. unfold Q in HQj.
    destruct i as [|i]; [lia|]. destruct j as [|j]; [lia|].
    simpl Nat.sub. rewrite !Nat.sub_0_r.
    assert (Gd : forall k, k <= len1 -> matGet m i k = cell str1 str2 i k).
    { intros k Hk. unfold matGet. rewrite HQj.
      rewrite arrayGet_front by (rewrite rowsDone_length; lia).
      unfold rowsDone. rewrite arrayGet_map_seq by lia.
      unfold fullRow. fold len1. rewrite arrayGet_map_seq by lia. reflexivity. }
    assert (Gl : matGet m (S i) j = cell str1 str2 (S i) j).
    { unfold matGet. rewrite HQj.
      rewrite arrayGet_at by (now rewrite rowsDone_length).
      rewrite arrayGet_map_seq by lia. reflexivity. }
    assert (Gs : forall v, v = cell str1 str2 (S i) (S j) -> Q (S (S j)) (matSet m (S i) (S j) v)).
    { intros v ->. unfold Q, matSet. rewrite HQj.
      rewrite arrayGet_at by (now rewrite rowsDone_length).
      rewrite arraySet_at by (now rewrite rowsDone_length).
      rewrite arraySet_push by (now rewrite length_map, length_seq).
      now rewrite (map_seq_snoc _ (S j)). }
    rewrite !Gd, Gl by lia.
    pose proof (cell_step i j ltac:(lia) ltac:(lia)) as Hc.
    destruct (JS.charAt str2 i =? JS.charAt str1 j)%string;
      apply Gs; symmetry; exact Hc.
Qed.

Lemma editMatrix_rows : editMatrix str1 str2 = rowsDone str1 str2 (S len2).
Proof.
  unfold editMatrix. fold len1 len2. rewrite init_rows, init_row0.
  rewrite <- (app_nil_r (rowsDone str1 str2 (S len2))).
  replace ([] : Matrix) with (rowsTodo len2 (S len2))
    by (unfold rowsTodo; now rewrite Nat.sub_diag).
  apply (forRange_inv
           (fun i m => m = rowsDone str1 str2 i ++ rowsTodo len2 i)).
  - lia.
  - reflexivity.
  - intros i m Hi ->. now apply fill_row.
Qed.

Lemma editDistance_cell : editDistance str1 str2 = cell str1 str2 len2 len1.
Proof.
  unfold editDistance. rewrite editMatrix_rows. fold len1 len2.
  unfold matGet, rowsDone. rewrite arrayGet_map_seq by lia.
  unfold fullRow. fold len1. now rewrite arrayGet_map_seq by lia.
Qed.

(** The value read at line 373 is the recursive distance between the
    two strings. *)
Lemma editDistance_lev :
  editDistance str1 str2
  = lev (list_ascii_of_string str1) (list_ascii_of_string str2).
Proof.
  rewrite editDistance_cell. unfold cell, len1, len2.
  rewrite <- !string_length_list, !firstn_all, lev_rev. apply lev_sym.
Qed.

End EditMatrix.

(** ** [calculateSimilarity] and [matchText] *)

Lemma Qltb_lt x y : JS.Qltb x y = true <-> (x < y)%Q.
Proof.
  unfold JS.Qltb. rewrite negb_true_iff. split.
  - intros H. apply Qnot_le_lt. intros Hle.
    apply Qle_bool_iff in Hle. congruence.
  - intros H. destruct (Qle_bool y x) eqn:E; [|reflexivity].
    apply Qle_bool_iff in E. exfalso. exact (Qlt_not_le _ _ H E).
Qed.

Lemma Qltb_nlt x y : JS.Qltb x y = false <-> ~ (x < y)%Q.
Proof.
  rewrite <- Qltb_lt. destruct (JS.Qltb x y); split; congruence.
Qed.

Lemma inject_Z_lt x y : (x < y)%Z -> (inject_Z x < inject_Z y)%Q.
Proof. intros H. now rewrite <- Zlt_Qlt. Qed.

Lemma inject_Z_le x y : (x <= y)%Z -> (inject_Z x <= inject_Z y)%Q.
Proof. intros H. now rewrite <- Zle_Qle. Qed.

Lemma ratio_range (x y : Z) :
  (0 <= x <= y)%Z -> (0 < y)%Z ->
  (0 <= inject_Z x / inject_Z y <= 1)%Q.
Proof.
  intros [H0 H1] Hy.
  assert (Hy' : (0 < inject_Z y)%Q) by exact (inject_Z_lt 0 y Hy).
  split.
  - apply Qle_shift_div_l; [exact Hy'|]. rewrite Qmult_0_l.
    exact (inject_Z_le 0 x H0).
  - apply Qle_shift_div_r; [exact Hy'|]. rewrite Qmult_1_l.
    now apply inject_Z_le.
Qed.

Lemma editDistance_sym a b : editDistance a b = editDistance b a.
Proof. rewrite !editDistance_lev. apply lev_sym. Qed.

Lemma editDistance_bound a b :
  editDistance a b <= Nat.max (String.length a) (String.length b).
Proof.
  rewrite editDistance_lev, <- !string_length_list. apply lev_bound.
Qed.

(** The distance that [calculateSimilarity] reads in its matrix is the
    Levenshtein distance of the two strings. *)
Lemma editDistance_isLevenshtein a b :
  isLevenshtein (list_ascii_of_string a) (list_ascii_of_string b)
                (editDistance a b).
Proof. rewrite editDistance_lev. apply lev_isLevenshtein. Qed.

Lemma calculateSimilarity_normalized a b :
  a <> b ->
  calculateSimilarity a b
  = normalizedSimilarity (String.length a) (String.length b) (editDistance a b).
Proof.
  intros Hab. unfold calculateSimilarity, normalizedSimilarity.
  destruct (Nat.max (String.length a) (String.length b) =? 0) eqn:E; [|reflexivity].
  apply Nat.eqb_eq in E. exfalso. apply Hab.
  destruct a, b; simpl in E; try lia. reflexivity.
Qed.

(** C10.  For all strings [a] and [b], [calculateSimilarity(a, b)] equals
    [calculateSimilarity(b, a)], and its value lies between 0 and 1
    inclusive. *)
Theorem calculateSimilarity_symmetric_bounded (a b : string) :
  calculateSimilarity a b = calculateSimilarity b a /\
  (0 <= calculateSimilarity a b <= 1)%Q.
Proof.
  split.
  - unfold calculateSimilarity.
    now rewrite editDistance_sym, Nat.max_comm.
  - unfold calculateSimilarity.
    destruct (Nat.max (String.length a) (String.length b) =? 0) eqn:E.
    + split; discriminate.
    + apply Nat.eqb_neq in E. pose proof (editDistance_bound a b).
      apply ratio_range; lia.
Qed.

(** C5.  For all strings [text] and [query], [matchText] returns: match
    type "exact" with confidence 1.0 when the two are equal once
    lower-cased; otherwise "partial" with confidence the length of the
    lower-cased query divided by the length of the lower-cased text
    when the lower-cased text contains the lower-cased query; otherwise,
    with [fuzzy] enabled, "fuzzy" with confidence the normalized
    Levenshtein similarity [(max(len1, len2) - d) / max(len1, len2)],
    [d] being the Levenshtein distance of the lower-cased strings and
    [len1], [len2] their lengths, exactly when that similarity exceeds
    0.6, and nothing in the remaining cases; the similarity of two
    empty strings is 1.  The lengths are those that the code divides,
    taken after [toLowerCase]. *)
Theorem matchText_spec (text query : string) (fuzzy : bool) :
  let lowerText := JS.toLowerCase text in
  let lowerQuery := JS.toLowerCase query in
  (lowerText = lowerQuery ->
   matchText text query fuzzy = Some (mkTextMatch Exact 1)) /\
  (lowerText <> lowerQuery -> isSubstring lowerQuery lowerText ->
   matchText text query fuzzy
   = Some (mkTextMatch Partial
             (inject_Z (Z.of_nat (String.length lowerQuery))
              / inject_Z (Z.of_nat (String.length lowerText)))%Q)) /\
  (lowerText <> lowerQuery -> ~ isSubstring lowerQuery lowerText ->
   exists d,
     isLevenshtein (list_ascii_of_string lowerText)
                   (list_ascii_of_string lowerQuery) d /\
     let similarity :=
       normalizedSimilarity (String.length lowerText) (String.length lowerQuery) d in
     (fuzzy = true -> (6 # 10 < similarity)%Q ->
      matchText text query fuzzy = Some (mkTextMatch Fuzzy similarity)) /\
     (fuzzy = true -> ~ (6 # 10 < similarity)%Q ->
      matchText text query fuzzy = None) /\
     (fuzzy = false -> matchText text query fuzzy = None)) /\
  calculateSimilarity "" "" = 1%Q.
Proof.
  cbv zeta. unfold matchText. repeat split.
  - intros ->. now rewrite String.eqb_refl.
  - intros Hne Hsub. apply String.eqb_neq in Hne. rewrite Hne.
    apply includes_spec in Hsub. now rewrite Hsub.
  - intros Hne Hsub. exists (editDistance (JS.toLowerCase text) (JS.toLowerCase query)).
    split; [apply editDistance_isLevenshtein|].
    rewrite (calculateSimilarity_normalized _ _ Hne).
    apply String.eqb_neq in Hne. rewrite Hne.
    destruct (JS.includes (JS.toLowerCase text) (JS.toLowerCase query)) eqn:E.
    { exfalso. apply Hsub. now apply includes_spec. }
    repeat split.
    + intros -> H. apply Qltb_lt in H. now rewrite H.
    + intros -> H. apply Qltb_nlt in H. now rewrite H.
    + now intros ->.
Qed.

(** An instance: the misspelt artist of the tests matches by
    similarity, at distance 1. *)
Lemma matchText_spec_witness :
  exists d,
    isLevenshtein (list_ascii_of_string "taylor swift")
                  (list_ascii_of_string "tayler swift") d /\
    matchText "Taylor Swift" "Tayler Swift" true
    = Some (mkTextMatch Fuzzy (normalizedSimilarity 12 12 d)).
Proof.
  destruct (proj1 (proj2 (proj2 (matchText_spec "Taylor Swift" "Tayler Swift" true))))
    as (d & Hd & Hfuzzy & _).
  - vm_compute. discriminate.
  - intros H. apply includes_spec in H. vm_compute in H. discriminate H.
  - exists d. split; [exact Hd|]. apply Hfuzzy; [reflexivity|].
    assert (E : d = 1).
    { apply (isLevenshtein_unique _ _ _ _ Hd).
      exact (lev_isLevenshtein (list_ascii_of_string "taylor swift")
               (list_ascii_of_string "tayler swift")). }
    rewrite E. reflexivity.
Defined.

(** ** [scoreEntry]: filters and strict matching *)

Lemma matchText_strict_none text query :
  matchText text query false = None <-> noTextMatch text query.
Proof.
  unfold matchText, noTextMatch.
  destruct (String.eqb_spec (JS.toLowerCase text) (JS.toLowerCase query)) as [E|E].
  - split; [discriminate | intros [H _]; contradiction].
  - destruct (JS.includes (JS.toLowerCase text) (JS.toLowerCase query)) eqn:I.
    + split; [discriminate|]. intros [_ H]. exfalso. apply H.
      now apply includes_spec.
    + split; [|reflexivity]. intros _. split; [exact E|].
      intros H. apply includes_spec in H. congruence.
Qed.

Lemma supplied_truthy filter : supplied filter <-> JS.truthyString filter = true.
Proof.
  unfold supplied. split.
  - intros [s [-> Hs]]. destruct s; [contradiction|reflexivity].
  - destruct filter as [[|c s]|]; try discriminate.
    intros _. exists (String c s). split; [reflexivity|discriminate].
Qed.

Lemma outside_spec v range : outside v range = true <-> outsideRange v range.
Proof.
  unfold outside, outsideRange. rewrite orb_true_iff, !Z.ltb_lt. reflexivity.
Qed.

Lemma scoreEntry_weeks_pass now entry chart query :
  weeksRangeFilter entry query = false ->
  scoreEntry now entry chart query
  = scoreEntry now entry chart (withoutWeeksRange query).
Proof.
  intros H. unfold scoreEntry. rewrite H. destruct query. reflexivity.
Qed.

Lemma scoreEntry_peak_pass now entry chart query :
  peakRangeFilter entry query = false ->
  scoreEntry now entry chart query
  = scoreEntry now entry chart (withoutPeakRange query).
Proof.
  intros H. unfold scoreEntry. rewrite H. destruct query. reflexivity.
Qed.

Lemma rangeFilter_spec (value : option Z) (range : Range.t) :
  match value with
  | Some v => JS.truthyNumber (Some v) && outside v range
  | None => false
  end = true
  <-> exists v, value = Some v /\ v <> 0%Z /\ outsideRange v range.
Proof.
  destruct value as [v|]; simpl.
  - rewrite andb_true_iff, negb_true_iff, Z.eqb_neq, outside_spec. split.
    + intros [H1 H2]. exists v. auto.
    + intros [v' [E [H1 H2]]]. injection E as <-. auto.
  - split; [discriminate|]. intros [v [E _]]. discriminate.
Qed.

Lemma scoreTitle_strict_miss entry query title acc :
  SearchQuery.fuzzy query = false ->
  SearchQuery.title query = Some title -> title <> EmptyString ->
  noTextMatch (ChartEntry.title entry) title ->
  scoreTitle entry query acc = None.
Proof.
  intros Hf Ht Hne Hm. unfold scoreTitle. destruct acc as [score matches].
  rewrite Ht, Hf. apply matchText_strict_none in Hm. rewrite Hm.
  destruct title; [contradiction|reflexivity].
Qed.

Lemma scoreArtist_strict_miss entry query artist acc :
  SearchQuery.fuzzy query = false ->
  SearchQuery.artist query = Some artist -> artist <> EmptyString ->
  noTextMatch (ChartEntry.artist entry) artist ->
  scoreArtist entry query acc
  = if JS.truthyString (SearchQuery.title query) then Some acc else None.
Proof.
  intros Hf Ha Hne Hm. unfold scoreArtist. destruct acc as [score matches].
  rewrite Ha, Hf. apply matchText_strict_none in Hm. rewrite Hm.
  destruct artist; [contradiction|]. simpl.
  now destruct (JS.truthyString (SearchQuery.title query)).
Qed.

Lemma scoreArtist_without entry query acc :
  scoreArtist entry (withoutArtist query) acc = Some acc.
Proof. now destruct acc. Qed.

Lemma scoreAlbum_without entry query acc :
  scoreAlbum entry (withoutAlbum query) acc = acc.
Proof. now destruct acc. Qed.

Lemma scoreAlbum_miss entry query album acc :
  SearchQuery.fuzzy query = false ->
  SearchQuery.album query = Some album ->
  match ChartEntry.album entry with
  | Some a => noTextMatch a album
  | None => True
  end ->
  scoreAlbum entry query acc = acc.
Proof.
  intros Hf Ha Hm. unfold scoreAlbum. destruct acc as [score matches].
  rewrite Ha, Hf. destruct (ChartEntry.album entry) as [a|]; [|reflexivity].
  apply matchText_strict_none in Hm. rewrite Hm.
  now destruct (JS.truthyString (Some album) && JS.truthyString (Some a)).
Qed.

(** C4.  For every query with fuzzy disabled: if the query has a title
    filter that matches the title of the entry neither exactly nor as a
    case-insensitive substring, [scoreEntry] rejects the entry; if it has
    an artist filter that fails to match, the entry is rejected when no
    title filter was supplied, and otherwise fares as it does without
    the artist filter; a failed album filter changes nothing, so it
    never causes rejection by itself. *)
Theorem scoreEntry_strict_matching
    (now : Z) (entry : ChartEntry.t) (chart : ChartData.t) (query : SearchQuery.t) :
  SearchQuery.fuzzy query = false ->
  (forall title,
     SearchQuery.title query = Some title -> title <> EmptyString ->
     noTextMatch (ChartEntry.title entry) title ->
     scoreEntry now entry chart query = None) /\
  (forall artist,
     SearchQuery.artist query = Some artist -> artist <> EmptyString ->
     noTextMatch (ChartEntry.artist entry) artist ->
     (~ supplied (SearchQuery.title query) ->
      scoreEntry now entry chart query = None) /\
     (supplied (SearchQuery.title query) ->
      scoreEntry now entry chart query
      = scoreEntry now entry chart (withoutArtist query))) /\
  (forall album,
     SearchQuery.album query = Some album ->
     match ChartEntry.album entry with
     | Some a => noTextMatch a album
     | None => True
     end ->
     scoreEntry now entry chart query
     = scoreEntry now entry chart (withoutAlbum query)).
Proof.
  intros Hf. split; [|split].
  - intros title Ht Hne Hm. unfold scoreEntry.
    rewrite (scoreTitle_strict_miss _ _ _ _ Hf Ht Hne Hm).
    now repeat match goal with |- context [if ?b then _ else _] => destruct b end.
  - intros artist Ha Hne Hm. split.
    + intros Hns. unfold scoreEntry.
      assert (E : JS.truthyString (SearchQuery.title query) = false).
      { destruct (JS.truthyString (SearchQuery.title query)) eqn:E; [|reflexivity].
        exfalso. apply Hns. now apply supplied_truthy. }
      destruct (scoreTitle entry query (0%Q, [])) as [acc|].
      * rewrite (scoreArtist_strict_miss _ _ _ _ Hf Ha Hne Hm), E.
        now repeat match goal with |- context [if ?b then _ else _] => destruct b end.
      * now repeat match goal with |- context [if ?b then _ else _] => destruct b end.
    + intros Hs. apply supplied_truthy in Hs. unfold scoreEntry.
      change (scoreTitle entry (withoutArtist query)) with (scoreTitle entry query).
      destruct (scoreTitle entry query (0%Q, [])) as [acc|]; [|reflexivity].
      rewrite (scoreArtist_strict_miss _ _ _ _ Hf Ha Hne Hm), Hs.
      rewrite scoreArtist_without. reflexivity.
  - intros album Ha Hm. unfold scoreEntry.
    change (scoreTitle entry (withoutAlbum query)) with (scoreTitle entry query).
    destruct (scoreTitle entry query (0%Q, [])) as [acc|]; [|reflexivity].
    change (scoreArtist entry (withoutAlbum query)) with (scoreArtist entry query).
    destruct (scoreArtist entry query acc) as [acc'|]; [|reflexivity].
    rewrite (scoreAlbum_miss _ _ _ _ Hf Ha Hm), scoreAlbum_without. reflexivity.
Qed.

(** An instance: with [fuzzy] off, the artist filter "Taylor Swift" and
    no title filter, the entry of Drake is rejected. *)
Lemma scoreEntry_strict_matching_witness :
  SearchQuery.fuzzy (artistQuery "Taylor Swift") = false /\
  scoreEntry 1704067200000 godsPlan mockChart (artistQuery "Taylor Swift") = None.
Proof.
  split; [reflexivity|].
  refine (proj1 (proj1 (proj2 (scoreEntry_strict_matching
            1704067200000 godsPlan mockChart (artistQuery "Taylor Swift") eq_refl))
            "Taylor Swift"%string eq_refl _ _) _).
  - discriminate.
  - apply matchText_strict_none. vm_compute. reflexivity.
  - intros [s [E _]]. discriminate E.
Defined.

(** C6, as the code has it.  For a query with a [weeksRange]
    (respectively [peakRange]) bound and an entry that the query without
    the bound accepts, [scoreEntry] excludes the entry if and only if
    the entry has a [weeksOnChart] (respectively [peakPosition]) value
    other than zero that lies outside the inclusive interval; an entry
    without the field fares as it does without the bound. *)
Theorem scoreEntry_range_bounds
    (now : Z) (entry : ChartEntry.t) (chart : ChartData.t) (query : SearchQuery.t)
    (range : Range.t) :
  (SearchQuery.weeksRange query = Some range ->
   (scoreEntry now entry chart (withoutWeeksRange query) <> None ->
    (scoreEntry now entry chart query = None <->
     exists w, ChartEntry.weeksOnChart entry = Some w /\ w <> 0%Z
               /\ outsideRange w range)) /\
   (ChartEntry.weeksOnChart entry = None ->
    scoreEntry now entry chart query
    = scoreEntry now entry chart (withoutWeeksRange query))) /\
  (SearchQuery.peakRange query = Some range ->
   (scoreEntry now entry chart (withoutPeakRange query) <> None ->
    (scoreEntry now entry chart query = None <->
     exists p, ChartEntry.peakPosition entry = Some p /\ p <> 0%Z
               /\ outsideRange p range)) /\
   (ChartEntry.peakPosition entry = None ->
    scoreEntry now entry chart query
    = scoreEntry now entry chart (withoutPeakRange query))).
Proof.
  split; intros Hr.
  - assert (F : weeksRangeFilter entry query = true <->
                exists w, ChartEntry.weeksOnChart entry = Some w /\ w <> 0%Z
                          /\ outsideRange w range).
    { unfold weeksRangeFilter. rewrite Hr. apply rangeFilter_spec. }
    split.
    + intros Hacc. rewrite <- F.
      destruct (weeksRangeFilter entry query) eqn:E.
      * split; [reflexivity|]. intros _. unfold scoreEntry. rewrite E.
        now destruct (rankRangeFilter entry query).
      * rewrite (scoreEntry_weeks_pass _ _ _ _ E). split; [|discriminate].
        intros H. contradiction.
    + intros Hnone. apply scoreEntry_weeks_pass.
      unfold weeksRangeFilter. now rewrite Hr, Hnone.
  - assert (F : peakRangeFilter entry query = true <->
                exists p, ChartEntry.peakPosition entry = Some p /\ p <> 0%Z
                          /\ outsideRange p range).
    { unfold peakRangeFilter. rewrite Hr. apply rangeFilter_spec. }
    split.
    + intros Hacc. rewrite <- F.
      destruct (peakRangeFilter entry query) eqn:E.
      * split; [reflexivity|]. intros _. unfold scoreEntry. rewrite E.
        now destruct (rankRangeFilter entry query), (weeksRangeFilter entry query).
      * rewrite (scoreEntry_peak_pass _ _ _ _ E). split; [|discriminate].
        intros H. contradiction.
    + intros Hnone. apply scoreEntry_peak_pass.
      unfold peakRangeFilter. now rewrite Hr, Hnone.
Qed.

(** An instance: fifteen weeks lie outside the interval from 1 to
    10, and the entry is excluded. *)
Lemma scoreEntry_range_bounds_witness :
  scoreEntry 1704067200000
    (ChartEntry.mk 1 "Love Story" "Taylor Swift" None None None None (Some 15%Z)
       1704067200000 BILLBOARD)
    mockChart
    (SearchQuery.mk None None None None None None None (Some (Range.mk 1 10)) None
       false false None)
  = None.
Proof.
  apply (proj1 (proj1 (scoreEntry_range_bounds 1704067200000
                         (ChartEntry.mk 1 "Love Story" "Taylor Swift" None None None
                            None (Some 15%Z) 1704067200000 BILLBOARD)
                         mockChart
                         (SearchQuery.mk None None None None None None None
                            (Some (Range.mk 1 10)) None false false None)
                         (Range.mk 1 10))
                       eq_refl)).
  - vm_compute. discriminate.
  - exists 15%Z. split; [reflexivity|]. split; [discriminate|].
    right. reflexivity.
Defined.

(** C6 as stated fails on an entry whose [weeksOnChart] is 0: the value
    lies outside the interval from 1 to 10, the query without the bound
    accepts the entry, and so does the query with it. *)
Lemma weeksRange_zero_counterexample :
  let entry :=
    ChartEntry.mk 1 "Love Story" "Taylor Swift" None None None None (Some 0%Z)
      1704067200000 BILLBOARD in
  let range := Range.mk 1 10 in
  let query :=
    SearchQuery.mk None None None None None None None (Some range) None
      false false None in
  SearchQuery.weeksRange query = Some range /\
  scoreEntry 1704067200000 entry mockChart (withoutWeeksRange query) <> None /\
  ~ (scoreEntry 1704067200000 entry mockChart query = None <->
     exists w, ChartEntry.weeksOnChart entry = Some w /\ outsideRange w range).
Proof.
  cbv zeta. split; [reflexivity|]. split.
  - vm_compute. discriminate.
  - intros [_ H].
    assert (E : scoreEntry 1704067200000
                  (ChartEntry.mk 1 "Love Story" "Taylor Swift" None None None None
                     (Some 0%Z) 1704067200000 BILLBOARD)
                  mockChart
                  (SearchQuery.mk None None None None None None None
                     (Some (Range.mk 1 10)) None false false None) = None).
    { apply H. exists 0%Z. split; [reflexivity|]. left. reflexivity. }
    vm_compute in E. discriminate E.
Qed.

(** ** [search]: the scan, the sort and the limit *)

Lemma scanEntry_results clock query chart st entry :
  Scan.results (scanEntry clock query chart st entry)
  = Scan.results st ++ passingFrom clock query (Scan.scored st) [(chart, entry)]
  /\ Scan.scored (scanEntry clock query chart st entry) = S (Scan.scored st).
Proof.
  unfold scanEntry. simpl.
  destruct (scoreEntry (SearchClock.scoreTime clock (Scan.scored st)) entry chart query)
    as [r|]; [destruct (JS.Qltb 0 (SearchResult.score r))|];
    simpl; rewrite ?app_nil_r; auto.
Qed.

Lemma passingFrom_app clock query k l1 l2 :
  passingFrom clock query k (l1 ++ l2)
  = passingFrom clock query k l1
    ++ passingFrom clock query (k + List.length l1) l2.
Proof.
  revert k; induction l1 as [|[chart entry] l1 IH]; intros k; simpl.
  - now rewrite Nat.add_0_r.
  - rewrite IH, <- Nat.add_succ_comm.
    destruct (scoreEntry (SearchClock.scoreTime clock k) entry chart query) as [r|];
      [destruct (JS.Qltb 0 (SearchResult.score r))|]; reflexivity.
Qed.

Lemma scanEntries_results clock query chart entries st :
  let st' := fold_left (scanEntry clock query chart) entries st in
  Scan.results st'
  = Scan.results st
    ++ passingFrom clock query (Scan.scored st) (map (pair chart) entries)
  /\ Scan.scored st' = Scan.scored st + List.length entries.
Proof.
  cbv zeta. revert st; induction entries as [|entry entries IH]; intros st.
  - simpl. now rewrite app_nil_r, Nat.add_0_r.
  - cbn [fold_left map List.length].
    destruct (IH (scanEntry clock query chart st entry)) as [IH1 IH2].
    destruct (scanEntry_results clock query chart st entry) as [E1 E2].
    rewrite IH1, IH2, E1, E2, <- app_assoc. split; [|lia].
    f_equal.
    change ((chart, entry) :: map (pair chart) entries)
      with ([(chart, entry)] ++ map (pair chart) entries).
    rewrite passingFrom_app. simpl List.length. now rewrite Nat.add_1_r.
Qed.

Lemma scanCharts_results clock query charts st :
  let st' := fold_left (scanChart clock query) charts st in
  Scan.results st'
  = Scan.results st
    ++ passingFrom clock query (Scan.scored st)
         (flat_map (fun chart => map (pair chart) (ChartData.entries chart)) charts)
  /\ Scan.scored st'
     = Scan.scored st
       + List.length
           (flat_map (fun chart => map (pair chart) (ChartData.entries chart)) charts).
Proof.
  cbv zeta. revert st; induction charts as [|chart charts IH]; intros st.
  - simpl. now rewrite app_nil_r, Nat.add_0_r.
  - cbn [fold_left flat_map].
    destruct (IH (scanChart clock query st chart)) as [IH1 IH2].
    rewrite IH1, IH2. unfold scanChart.
    match goal with
    | |- context [fold_left (scanEntry clock query chart) ?es ?s0] =>
        destruct (scanEntries_results clock query chart es s0) as [E1 E2]
    end.
    cbv zeta in E1, E2. rewrite E1, E2. cbn [Scan.results Scan.scored].
    rewrite <- app_assoc, passingFrom_app, length_app, length_map.
    split; [reflexivity|lia].
Qed.

Lemma scan_passing clock query engine :
  Scan.results
    (fold_left (scanChart clock query) (getRelevantCharts query engine)
       (Scan.mk [] [] 0 0 0 0))
  = passing clock query engine.
Proof.
  destruct (scanCharts_results clock query (getRelevantCharts query engine)
              (Scan.mk [] [] 0 0 0 0)) as [E _].
  exact E.
Qed.

Lemma insertByScore_perm r l : Permutation (r :: l) (insertByScore r l).
Proof.
  induction l as [|h t IH]; simpl; [reflexivity|].
  destruct (JS.Qltb (SearchResult.score r) (SearchResult.score h)); [|reflexivity].
  rewrite perm_swap. now constructor.
Qed.

Lemma sortByScore_perm l : Permutation l (sortByScore l).
Proof.
  induction l as [|r l IH]; simpl; [constructor|].
  rewrite <- insertByScore_perm. now constructor.
Qed.

Lemma sortByScore_length l : List.length (sortByScore l) = List.length l.
Proof. symmetry. apply Permutation_length, sortByScore_perm. Qed.

Lemma insertByScore_sorted r l :
  StronglySorted scoreDescending l ->
  StronglySorted scoreDescending (insertByScore r l).
Proof.
  induction 1 as [|h t Hs IH Hall]; simpl.
  - repeat constructor.
  - destruct (JS.Qltb (SearchResult.score r) (SearchResult.score h)) eqn:E.
    + apply Qltb_lt in E. constructor; [exact IH|].
      apply (Permutation_Forall (insertByScore_perm r t)).
      constructor; [|exact Hall]. apply Qlt_le_weak, E.
    + apply Qltb_nlt in E. apply Qnot_lt_le in E.
      constructor; [now constructor|].
      constructor; [exact E|].
      eapply Forall_impl; [|exact Hall].
      intros x Hx. unfold scoreDescending in *. now apply (Qle_trans _ _ _ Hx).
Qed.

Lemma sortByScore_sorted l : StronglySorted scoreDescending (sortByScore l).
Proof.
  induction l as [|r l IH]; simpl; [constructor|].
  now apply insertByScore_sorted.
Qed.

Lemma Forall_firstn_keep {A} (P : A -> Prop) n l :
  Forall P l -> Forall P (firstn n l).
Proof.
  intros H. revert n; induction H as [|x l Hx Hl IH]; intros [|n]; simpl;
    constructor; auto.
Qed.

Lemma firstn_sorted {A} (R : A -> A -> Prop) n l :
  StronglySorted R l -> StronglySorted R (firstn n l).
Proof.
  intros H. revert n; induction H as [|h t Hs IH Hall]; intros [|n]; simpl;
    try constructor.
  - apply IH.
  - now apply Forall_firstn_keep.
Qed.

Lemma slice0_sorted {A} (R : A -> A -> Prop) n (l : list A) :
  StronglySorted R l -> StronglySorted R (JS.slice0 l n).
Proof.
  intros H. unfold JS.slice0. destruct (n <? 0)%Z; now apply firstn_sorted.
Qed.

Lemma search_results clock query engine :
  SearchOutput.results (search clock query engine)
  = let results := sortByScore (passing clock query engine) in
    match SearchQuery.limit query with
    | Some limit =>
        if JS.truthyNumber (Some limit) then JS.slice0 results limit else results
    | None => results
    end.
Proof. unfold search. simpl. now rewrite scan_passing. Qed.

Lemma passing_withoutLimit clock query engine :
  passing clock (withoutLimit query) engine = passing clock query engine.
Proof.
  unfold passing.
  change (scanned (withoutLimit query) engine) with (scanned query engine).
  generalize 0 as k.
  induction (scanned query engine) as [|[chart entry] l IH]; intros k; simpl;
    [reflexivity|].
  change (scoreEntry (SearchClock.scoreTime clock k) entry chart (withoutLimit query))
    with (scoreEntry (SearchClock.scoreTime clock k) entry chart query).
  now rewrite !IH.
Qed.

Lemma search_withoutLimit clock query engine :
  SearchOutput.results (search clock (withoutLimit query) engine)
  = sortByScore (passing clock query engine).
Proof. rewrite search_results. simpl. now rewrite passing_withoutLimit. Qed.

(** C7, as the code has it.  For every query, the list that [search]
    returns is in non-increasing order of score; the list returned
    without a limit holds the passing entries; and when a limit [L] of
    at least 1 is given, the list consists of the first [L] elements of
    the list returned without the limit, so that the limit applies after
    the sort and the length is the minimum of [L] and the number of
    passing entries. *)
Theorem search_sorted_then_limited
    (clock : SearchClock.t) (query : SearchQuery.t) (engine : SearchEngine.t) :
  let results := SearchOutput.results (search clock query engine) in
  let full := SearchOutput.results (search clock (withoutLimit query) engine) in
  StronglySorted scoreDescending results /\
  Permutation full (passing clock query engine) /\
  (forall L,
     SearchQuery.limit query = Some L -> (0 < L)%Z ->
     results = firstn (Z.to_nat L) full /\
     List.length results
     = Nat.min (Z.to_nat L) (List.length (passing clock query engine))) /\
  (SearchQuery.limit query = None -> results = full).
Proof.
  cbv zeta. rewrite search_withoutLimit, search_results. cbv zeta.
  split; [|split; [|split]].
  - destruct (SearchQuery.limit query) as [L|];
      [destruct (JS.truthyNumber (Some L)); [apply slice0_sorted|]|];
      apply sortByScore_sorted.
  - symmetry. apply sortByScore_perm.
  - intros L -> HL. unfold JS.truthyNumber, JS.slice0.
    replace (L =? 0)%Z with false by (symmetry; apply Z.eqb_neq; lia).
    replace (L <? 0)%Z with false by (symmetry; apply Z.ltb_ge; lia).
    simpl negb. cbv iota. split; [reflexivity|].
    now rewrite length_firstn, sortByScore_length.
  - now intros ->.
Qed.

(** An instance: the artist query of the tests with the limit 1. *)
Lemma search_sorted_then_limited_witness :
  List.length
    (SearchOutput.results
       (search (fixedClock 1704067200000)
          (limitQuery (artistQuery "Taylor Swift") 1) mockEngine))
  = Nat.min (Z.to_nat 1)
      (List.length
         (passing (fixedClock 1704067200000)
            (limitQuery (artistQuery "Taylor Swift") 1) mockEngine)).
Proof.
  exact (proj2 (proj1 (proj2 (proj2
           (search_sorted_then_limited (fixedClock 1704067200000)
              (limitQuery (artistQuery "Taylor Swift") 1) mockEngine)))
           1%Z eq_refl eq_refl)).
Defined.

(** C7 as stated fails for the limit 0: three entries pass, and [search]
    returns the three of them, not the first 0. *)
Lemma limit_zero_counterexample :
  let clock := fixedClock 1704067200000 in
  let query := limitQuery emptyQuery 0 in
  let results := SearchOutput.results (search clock query mockEngine) in
  let full := SearchOutput.results (search clock (withoutLimit query) mockEngine) in
  SearchQuery.limit query = Some 0%Z /\
  List.length (passing clock query mockEngine) = 3 /\
  List.length results = 3 /\
  ~ (results = firstn (Z.to_nat 0) full /\
     List.length results
     = Nat.min (Z.to_nat 0) (List.length (passing clock query mockEngine))).
Proof.
  cbv zeta. split; [reflexivity|]. split; [vm_compute; reflexivity|].
  split; [vm_compute; reflexivity|].
  intros [H _]. apply (f_equal (@List.length _)) in H.
  vm_compute in H. discriminate H.
Qed.

Lemma passingFrom_ext clock clock' query k pairs :
  (forall i, SearchClock.scoreTime clock i = SearchClock.scoreTime clock' i) ->
  passingFrom clock query k pairs = passingFrom clock' query k pairs.
Proof.
  intros H. revert k; induction pairs as [|[chart entry] l IH]; intros k; simpl;
    [reflexivity|].
  now rewrite H, !IH.
Qed.

(** C9.  Two calls of [search] with the same query on the same index,
    whose calls of [scoreEntry] read the same times on the clock, return
    the same results in the same order; the times read on entry and
    before the statistics, which differ from one call to the next, have
    no part in them. *)
Theorem search_idempotent
    (clock clock' : SearchClock.t) (query : SearchQuery.t) (engine : SearchEngine.t) :
  (forall k, SearchClock.scoreTime clock k = SearchClock.scoreTime clock' k) ->
  SearchOutput.results (search clock query engine)
  = SearchOutput.results (search clock' query engine).
Proof.
  intros H. rewrite !search_results. unfold passing.
  now rewrite (passingFrom_ext clock clock' query 0 _ H).
Qed.

(** An instance: two calls that start and end at different times. *)
Lemma search_idempotent_witness :
  (forall k : nat,
     SearchClock.scoreTime firstCall k = SearchClock.scoreTime secondCall k) /\
  SearchOutput.results (search firstCall (artistQuery "Taylor Swift") mockEngine)
  = SearchOutput.results (search secondCall (artistQuery "Taylor Swift") mockEngine).
Proof.
  split; [reflexivity|].
  apply (search_idempotent firstCall secondCall).
  intros k. reflexivity.
Defined.

(** ** What [indexChartData] leaves in the chart cache *)

Lemma ChartKey_eqb_eq a b : ChartKey_eqb a b = true <-> a = b.
Proof.
  destruct a as [[s1 t1] d1], b as [[s2 t2] d2]. unfold ChartKey_eqb.
  rewrite !andb_true_iff, String.eqb_eq, Z.eqb_eq. split.
  - intros [[Hs ->] ->]. destruct s1, s2; try discriminate; reflexivity.
  - intros E. injection E as -> -> ->. repeat split. now destruct s2.
Qed.

Lemma mapSet_holds (m : list (ChartKey * ChartData.t)) k v :
  In (k, v) (mapSet ChartKey_eqb m k v).
Proof.
  induction m as [|[k' v'] m IH]; simpl; [now left|].
  destruct (ChartKey_eqb k' k) eqn:E.
  - apply ChartKey_eqb_eq in E. subst. now left.
  - now right.
Qed.

Lemma mapSet_keeps (m : list (ChartKey * ChartData.t)) k v k' v' :
  k' <> k -> In (k', v') m -> In (k', v') (mapSet ChartKey_eqb m k v).
Proof.
  intros Hne. induction m as [|[k0 v0] m IH]; simpl; [tauto|].
  intros [E|Hin].
  - injection E as -> ->.
    destruct (ChartKey_eqb k' k) eqn:Ek; [|now left].
    apply ChartKey_eqb_eq in Ek. contradiction.
  - destruct (ChartKey_eqb k0 k); right; auto.
Qed.

Lemma indexChartData_keeps charts engine k v :
  ~ In k (map chartKey charts) ->
  In (k, v) (SearchEngine.chartDataCache engine) ->
  In (k, v) (SearchEngine.chartDataCache (indexChartData charts engine)).
Proof.
  unfold indexChartData. revert engine.
  induction charts as [|chart charts IH]; intros engine Hk Hin; [exact Hin|].
  cbn [fold_left]. apply IH.
  - intros H. apply Hk. now right.
  - unfold indexChart. cbn [SearchEngine.chartDataCache].
    apply mapSet_keeps; [|exact Hin].
    intros E. apply Hk. left. now symmetry.
Qed.

(** Charts indexed under distinct keys are all held afterwards; a chart
    indexed under the key of an earlier one takes its place. *)
Lemma indexChartData_holds charts engine chart :
  NoDup (map chartKey charts) ->
  In chart charts ->
  In chart (map snd (SearchEngine.chartDataCache (indexChartData charts engine))).
Proof.
  intros Hnd Hin.
  apply (in_map snd _ (chartKey chart, chart)).
  revert engine. induction charts as [|c0 charts IH]; intros engine; [contradiction|].
  inversion Hnd as [|? ? Hc0 Hrest]; subst.
  change (indexChartData (c0 :: charts) engine)
    with (indexChartData charts (indexChart engine c0)).
  destruct Hin as [->|Hin].
  - apply indexChartData_keeps; [exact Hc0|].
    unfold indexChart. cbn [SearchEngine.chartDataCache]. apply mapSet_holds.
  - now apply IH.
Qed.

(** ** Unfiltered queries *)

Lemma positionBoost_lt e1 e2 :
  (ChartEntry.rank e1 < ChartEntry.rank e2)%Z ->
  (positionBoost e2 < positionBoost e1)%Q.
Proof.
  intros H. unfold positionBoost. apply Qmult_lt_compat_r; [reflexivity|].
  apply inject_Z_lt. lia.
Qed.

Lemma positionBoost_pos e :
  (ChartEntry.rank e <= 100)%Z -> (0 < positionBoost e)%Q.
Proof.
  intros H. unfold positionBoost.
  apply Qlt_shift_div_l; [reflexivity|]. rewrite Qmult_0_l.
  apply (inject_Z_lt 0). lia.
Qed.

Lemma recencyBoost_nonneg now chart : (0 <= recencyBoost now chart)%Q.
Proof. unfold recencyBoost. apply Q.le_max_l. Qed.

Lemma recencyBoost_antitone now1 now2 chart :
  (now1 <= now2)%Z -> (recencyBoost now2 chart <= recencyBoost now1 chart)%Q.
Proof.
  intros H. unfold recencyBoost. apply Q.max_le_compat_l.
  apply Qmult_le_compat_r; [|discriminate].
  apply Qplus_le_r, Qopp_le_compat.
  apply Qmult_le_compat_r; [|discriminate].
  apply inject_Z_le. lia.
Qed.

Lemma scoreEntry_unfiltered now entry chart query :
  unfiltered query ->
  scoreEntry now entry chart query
  = let score := (0 + positionBoost entry + recencyBoost now chart)%Q in
    if Qeq_bool score 0 then None
    else Some (SearchResult.mk entry chart score []).
Proof.
  intros (Ht & Ha & Hal & Hr & Hw & Hp & Hn).
  unfold scoreEntry, rankRangeFilter, weeksRangeFilter, peakRangeFilter,
    newEntriesFilter, scoreTitle, scoreArtist, scoreAlbum.
  rewrite Ht, Ha, Hal, Hr, Hw, Hp, Hn. cbv zeta. simpl.
  now rewrite andb_true_r.
Qed.

Lemma passingFrom_In clock query k pairs chart entry :
  In (chart, entry) pairs ->
  (forall now,
     exists r, scoreEntry now entry chart query = Some r /\
               (0 < SearchResult.score r)%Q /\
               SearchResult.entry r = entry /\ SearchResult.chartData r = chart) ->
  exists r, In r (passingFrom clock query k pairs) /\
            SearchResult.entry r = entry /\ SearchResult.chartData r = chart.
Proof.
  intros Hin Hscore. revert k.
  induction pairs as [|[chart' entry'] pairs IH]; intros k; [contradiction|].
  destruct Hin as [E|Hin].
  - injection E as -> ->.
    destruct (Hscore (SearchClock.scoreTime clock k)) as (r & Hr & Hpos & He & Hc).
    exists r. simpl. rewrite Hr. apply Qltb_lt in Hpos. rewrite Hpos.
    split; [now left|auto].
  - destruct (IH Hin (S k)) as (r & Hr & He & Hc).
    exists r. split; [|auto]. simpl.
    destruct (scoreEntry (SearchClock.scoreTime clock k) entry' chart' query) as [r'|];
      [destruct (JS.Qltb 0 (SearchResult.score r'))|]; simpl; auto.
Qed.

(** C8, as the code has it.  For a query with no text filter, no rank,
    weeks or peak bound, [newEntriesOnly] unset and no limit: every
    entry of rank 1 to 100 of a chart that the engine holds and that
    passes the source, chart type and date filters of the query appears
    in the results; and of two entries of the same chart, the one of
    smaller rank, scored no later than the other, receives the strictly
    higher score. *)
Theorem unfiltered_search_ranks
    (clock : SearchClock.t) (query : SearchQuery.t) (engine : SearchEngine.t) :
  unfiltered query ->
  SearchQuery.limit query = None ->
  (forall chart entry,
     In chart (map snd (SearchEngine.chartDataCache engine)) ->
     isRelevantChart query chart = true ->
     In entry (ChartData.entries chart) ->
     (1 <= ChartEntry.rank entry <= 100)%Z ->
     exists r, In r (SearchOutput.results (search clock query engine)) /\
               SearchResult.entry r = entry /\ SearchResult.chartData r = chart) /\
  (forall chart e1 e2 now1 now2 r1 r2,
     scoreEntry now1 e1 chart query = Some r1 ->
     scoreEntry now2 e2 chart query = Some r2 ->
     (ChartEntry.rank e1 < ChartEntry.rank e2)%Z ->
     (now1 <= now2)%Z ->
     (SearchResult.score r2 < SearchResult.score r1)%Q).
Proof.
  intros Hu Hl. split.
  - intros chart entry Hc Hrel He Hrank.
    rewrite search_results, Hl. cbv zeta.
    assert (Hp : exists r, In r (passing clock query engine) /\
                           SearchResult.entry r = entry /\
                           SearchResult.chartData r = chart).
    { apply passingFrom_In.
      - unfold scanned. apply in_flat_map. exists chart. split.
        + unfold getRelevantCharts. apply filter_In. auto.
        + now apply in_map.
      - intros now. rewrite (scoreEntry_unfiltered _ _ _ _ Hu). cbv zeta.
        pose proof (positionBoost_pos entry (proj2 Hrank)) as Hpb.
        pose proof (recencyBoost_nonneg now chart) as Hrb.
        assert (Hs : (0 < 0 + positionBoost entry + recencyBoost now chart)%Q) by lra.
        destruct (Qeq_bool (0 + positionBoost entry + recencyBoost now chart) 0) eqn:E.
        + apply Qeq_bool_iff in E. rewrite E in Hs. discriminate Hs.
        + eexists. split; [reflexivity|]. simpl. auto. }
    destruct Hp as (r & Hr & Hre & Hrc). exists r. split; [|auto].
    apply (Permutation_in _ (sortByScore_perm _)). exact Hr.
  - intros chart e1 e2 now1 now2 r1 r2 H1 H2 Hrank Hnow.
    rewrite (scoreEntry_unfiltered _ _ _ _ Hu) in H1.
    rewrite (scoreEntry_unfiltered _ _ _ _ Hu) in H2. cbv zeta in H1, H2.
    destruct (Qeq_bool (0 + positionBoost e1 + recencyBoost now1 chart) 0);
      [discriminate|].
    destruct (Qeq_bool (0 + positionBoost e2 + recencyBoost now2 chart) 0);
      [discriminate|].
    injection H1 as <-. injection H2 as <-. simpl.
    pose proof (positionBoost_lt e1 e2 Hrank).
    pose proof (recencyBoost_antitone now1 now2 chart Hnow).
    lra.
Qed.

(** An instance: the query with no filter on the corpus of the tests. *)
Lemma unfiltered_search_ranks_witness :
  unfiltered emptyQuery /\ SearchQuery.limit emptyQuery = None /\
  exists r,
    In r (SearchOutput.results
            (search (fixedClock 1704067200000) emptyQuery mockEngine)) /\
    SearchResult.entry r = blankSpace /\ SearchResult.chartData r = mockChart.
Proof.
  assert (Hu : unfiltered emptyQuery) by (repeat split).
  split; [exact Hu|]. split; [reflexivity|].
  apply (proj1 (unfiltered_search_ranks (fixedClock 1704067200000)
                  emptyQuery mockEngine Hu eq_refl)).
  - left. reflexivity.
  - reflexivity.
  - right. left. reflexivity.
  - split; discriminate.
Defined.

(** C8 as stated fails in two ways.  A query for another source is
    unfiltered in the sense of the claim, and returns no entry of the
    chart of the tests; and the entry of rank 1, scored twenty days
    after the entry of rank 2, receives the lower score. *)
Lemma unfiltered_search_counterexample :
  let query := sourceQuery LASTFM in
  (unfiltered query /\ SearchQuery.limit query = None /\
   In mockChart (map snd (SearchEngine.chartDataCache mockEngine)) /\
   In loveStory (ChartData.entries mockChart) /\
   (1 <= ChartEntry.rank loveStory <= 100)%Z /\
   SearchOutput.results (search (fixedClock 1704067200000) query mockEngine) = []) /\
  (exists r1 r2,
     scoreEntry (1704067200000 + 20 * 86400000) loveStory mockChart emptyQuery = Some r1 /\
     scoreEntry 1704067200000 blankSpace mockChart emptyQuery = Some r2 /\
     (ChartEntry.rank loveStory < ChartEntry.rank blankSpace)%Z /\
     (SearchResult.score r1 < SearchResult.score r2)%Q).
Proof.
  cbv zeta. split.
  - split; [repeat split|]. split; [reflexivity|].
    split; [left; reflexivity|]. split; [left; reflexivity|].
    split; [split; discriminate|]. vm_compute. reflexivity.
  - eexists. eexists. split; [vm_compute; reflexivity|].
    split; [vm_compute; reflexivity|]. split; reflexivity.
Qed.

(** ** The cache: what one call does *)

Lemma mapGet_mapSet_same {V} (m : list (string * V)) k v :
  mapGet String.eqb (mapSet String.eqb m k v) k = Some v.
Proof.
  induction m as [|[k' v'] m IH]; simpl.
  - now rewrite String.eqb_refl.
  - destruct (String.eqb k' k) eqn:E; simpl; now rewrite E.
Qed.

Lemma mapGet_mapDelete_same {V} (m : list (string * V)) k :
  mapGet String.eqb (mapDelete String.eqb m k) k = None.
Proof.
  unfold mapDelete. induction m as [|[k' v'] m IH]; simpl; [reflexivity|].
  destruct (String.eqb k' k) eqn:E; simpl; [exact IH|]. now rewrite E.
Qed.

Lemma mapGet_None_notin {V} (m : list (string * V)) k :
  mapGet String.eqb m k = None <-> ~ In k (map fst m).
Proof.
  induction m as [|[k' v'] m IH]; simpl.
  - tauto.
  - destruct (String.eqb_spec k' k) as [->|Hne].
    + split; [discriminate|]. intros H. exfalso. apply H. now left.
    + rewrite IH. tauto.
Qed.

Lemma mapSet_new {V} (m : list (string * V)) k v :
  ~ In k (map fst m) -> mapSet String.eqb m k v = m ++ [(k, v)].
Proof.
  induction m as [|[k' v'] m IH]; simpl; intros H; [reflexivity|].
  destruct (String.eqb_spec k' k) as [->|Hne]; [tauto|].
  rewrite IH by tauto. reflexivity.
Qed.

Lemma mapDelete_notin {V} (m : list (string * V)) k :
  ~ In k (map fst m) -> mapDelete String.eqb m k = m.
Proof.
  unfold mapDelete. induction m as [|[k' v'] m IH]; simpl; intros H; [reflexivity|].
  destruct (String.eqb_spec k' k) as [->|Hne]; [tauto|].
  simpl. rewrite IH by tauto. reflexivity.
Qed.

Lemma evictOldest_run c :
  ChartCache.evictOldest c
  = Some (tt, ChartCache.mk
                (afterEvict (ChartCache.clock c (ChartCache.reads c))
                   (ChartCache.memoryCache c))
                (ChartCache.options c) (ChartCache.localStorage c)
                (ChartCache.clock c) (S (ChartCache.reads c))).
Proof.
  unfold ChartCache.evictOldest, afterEvict, bind, ChartCache.Date_now,
    ChartCache.getMemory. simpl.
  destruct (ChartCache.oldestScan (ChartCache.memoryCache c)
              (None, ChartCache.clock c (ChartCache.reads c))) as [[key|] t].
  - destruct key; reflexivity.
  - reflexivity.
Qed.

(** The state that [set] leaves: the item is in the memory under its
    key, stamped with the first reading of the clock; an eviction, if the
    memory was full, came first and took a second reading. *)
Lemma set_run c key data :
  let opts := ChartCache.options c in
  let item := CacheItem.mk data (ChartCache.clock c (ChartCache.reads c))
                (CacheOptions.ttl opts) in
  let full :=
    (CacheOptions.maxSize opts <=? Z.of_nat (List.length (ChartCache.memoryCache c)))%Z in
  let memory :=
    if full
    then afterEvict (ChartCache.clock c (S (ChartCache.reads c)))
           (ChartCache.memoryCache c)
    else ChartCache.memoryCache c in
  let reads := if full then S (S (ChartCache.reads c)) else S (ChartCache.reads c) in
  exists storage,
    ChartCache.set key data c
    = Some (tt, ChartCache.mk (mapSet String.eqb memory key item) opts storage
                  (ChartCache.clock c) reads).
Proof.
  cbv zeta. unfold ChartCache.set, bind, ChartCache.getOptions, ChartCache.Date_now,
    ChartCache.getMemory. simpl.
  destruct (CacheOptions.maxSize (ChartCache.options c)
            <=? Z.of_nat (List.length (ChartCache.memoryCache c)))%Z.
  - rewrite evictOldest_run. unfold ChartCache.putMemory, ChartCache.saveToStorage,
      bind, ChartCache.getStorage, ChartCache.putStorage. simpl.
    destruct (CacheOptions.persistent (ChartCache.options c));
      [destruct (ChartCache.localStorage c)|]; eexists; reflexivity.
  - unfold ret, ChartCache.putMemory, ChartCache.saveToStorage,
      bind, ChartCache.getStorage, ChartCache.putStorage. simpl.
    destruct (CacheOptions.persistent (ChartCache.options c));
      [destruct (ChartCache.localStorage c)|]; eexists; reflexivity.
Qed.

(** [get] on a key that the memory holds: one reading of the clock
    decides between the data and the deletion. *)
Lemma get_hit c fuel key item :
  mapGet String.eqb (ChartCache.memoryCache c) key = Some item ->
  ChartCache.get fuel key c
  = let c1 := ChartCache.mk (ChartCache.memoryCache c) (ChartCache.options c)
                (ChartCache.localStorage c) (ChartCache.clock c)
                (S (ChartCache.reads c)) in
    if (CacheItem.ttl item
        <? ChartCache.clock c (ChartCache.reads c) - CacheItem.timestamp item)%Z
    then match ChartCache.delete key c1 with
         | Some (_, c2) => Some (None, c2)
         | None => None
         end
    else Some (Some (CacheItem.data item), c1).
Proof.
  intros H. unfold ChartCache.get, bind, ChartCache.getOptions, ChartCache.getMemory.
  simpl. rewrite H. simpl. unfold ChartCache.isExpired, bind, ChartCache.Date_now, ret.
  simpl.
  destruct (CacheItem.ttl item
            <? ChartCache.clock c (ChartCache.reads c) - CacheItem.timestamp item)%Z;
    reflexivity.
Qed.

Lemma delete_run c key :
  exists storage,
    ChartCache.delete key c
    = Some (tt, ChartCache.mk (mapDelete String.eqb (ChartCache.memoryCache c) key)
                  (ChartCache.options c) storage (ChartCache.clock c)
                  (ChartCache.reads c)).
Proof.
  unfold ChartCache.delete, bind, ChartCache.getOptions, ChartCache.getMemory,
    ChartCache.putMemory, ChartCache.getStorage, ChartCache.putStorage, ret. simpl.
  destruct (ChartCache.localStorage c);
    [destruct (CacheOptions.persistent (ChartCache.options c))|];
    eexists; reflexivity.
Qed.

(** C1.  For every cache key [k] and chart [v], [set(k, v)] followed at
    once by [get(k)], the clock readings taken in between staying within
    the [ttl] of the timestamp of the entry, returns [v]. *)
Theorem set_then_get
    (c : ChartCache.t) (fuel : nat) (key : string) (data : ChartData.t) :
  (forall i, ChartCache.reads c < i <= ChartCache.reads c + 2 ->
             (ChartCache.clock c i - ChartCache.clock c (ChartCache.reads c)
              <= CacheOptions.ttl (ChartCache.options c))%Z) ->
  exists c',
    (ChartCache.set key data ;; ChartCache.get fuel key)%eff c = Some (Some data, c').
Proof.
  intros Httl. unfold bind.
  destruct (set_run c key data) as [storage ->]. cbv zeta.
  match goal with
  | |- context [ChartCache.get fuel key ?c1] =>
      rewrite (get_hit c1 fuel key _ (mapGet_mapSet_same _ _ _))
  end.
  cbv zeta. simpl.
  match goal with
  | |- context [(?a <? ?b)%Z] => replace (a <? b)%Z with false
  end.
  - eexists. reflexivity.
  - symmetry. apply Z.ltb_ge.
    destruct (CacheOptions.maxSize (ChartCache.options c)
              <=? Z.of_nat (List.length (ChartCache.memoryCache c)))%Z;
      apply Httl; lia.
Qed.

(** An instance: a fresh cache with the default options and a clock
    that stands still. *)
Lemma set_then_get_witness :
  exists c',
    (ChartCache.set "billboard-hot-100-2024-01-01" mockChart ;;
     ChartCache.get 0 "billboard-hot-100-2024-01-01")%eff
      (ChartCache.mk [] ChartCache.defaultOptions None (fun _ => 1704067200000%Z) 0)
    = Some (Some mockChart, c').
Proof.
  apply (set_then_get
           (ChartCache.mk [] ChartCache.defaultOptions None
              (fun _ => 1704067200000%Z) 0)).
  intros i _. simpl. lia.
Defined.

Lemma getStats_loop items c expired valid :
  exists expired',
    forEachWith items
      (fun '(expired, valid) item =>
         (isExp <- ChartCache.isExpired item ;;
          if isExp then ret (S expired, valid) else ret (expired, S valid))%eff)
      (expired, valid) c
    = Some ((expired',
             valid + validCount (ChartCache.clock c) (ChartCache.reads c) items),
            ChartCache.mk (ChartCache.memoryCache c) (ChartCache.options c)
              (ChartCache.localStorage c) (ChartCache.clock c)
              (ChartCache.reads c + List.length items))
    /\ expired' + (valid + validCount (ChartCache.clock c) (ChartCache.reads c) items)
       = expired + valid + List.length items.
Proof.
  revert c expired valid; induction items as [|item items IH]; intros c expired valid.
  - exists expired. simpl. unfold ret. rewrite !Nat.add_0_r.
    split; [now destruct c|reflexivity].
  - cbn [forEachWith validCount List.length].
    unfold bind at 1. unfold ChartCache.isExpired, bind, ChartCache.Date_now, ret.
    cbn [ChartCache.clock ChartCache.reads ChartCache.memoryCache
         ChartCache.options ChartCache.localStorage].
    destruct (CacheItem.ttl item
              <? ChartCache.clock c (ChartCache.reads c) - CacheItem.timestamp item)%Z.
    + destruct (IH (ChartCache.mk (ChartCache.memoryCache c) (ChartCache.options c)
                      (ChartCache.localStorage c) (ChartCache.clock c)
                      (S (ChartCache.reads c))) (S expired) valid)
        as (e' & E & Hsum).
      exists e'. cbn [ChartCache.clock ChartCache.reads ChartCache.memoryCache
                      ChartCache.options ChartCache.localStorage] in E, Hsum.
      unfold ChartCache.isExpired, bind, ChartCache.Date_now, ret in E.
      rewrite E. split; [|lia]. do 3 f_equal. lia.
    + destruct (IH (ChartCache.mk (ChartCache.memoryCache c) (ChartCache.options c)
                      (ChartCache.localStorage c) (ChartCache.clock c)
                      (S (ChartCache.reads c))) expired (S valid))
        as (e' & E & Hsum).
      exists e'. cbn [ChartCache.clock ChartCache.reads ChartCache.memoryCache
                      ChartCache.options ChartCache.localStorage] in E, Hsum.
      unfold ChartCache.isExpired, bind, ChartCache.Date_now, ret in E.
      rewrite E. split; [|lia]. do 2 f_equal; [f_equal; lia|f_equal; lia].
Qed.

Lemma getStats_run c :
  exists stats c',
    ChartCache.getStats c = Some (stats, c') /\
    CacheStats.totalItems stats = List.length (ChartCache.memoryCache c) /\
    CacheStats.validItems stats
    = validCount (ChartCache.clock c) (ChartCache.reads c)
        (map snd (ChartCache.memoryCache c)) /\
    CacheStats.validItems stats + CacheStats.expiredItems stats
    = CacheStats.totalItems stats.
Proof.
  unfold ChartCache.getStats. unfold bind at 1. unfold ChartCache.getMemory at 1.
  unfold bind at 1.
  destruct (getStats_loop (map snd (ChartCache.memoryCache c)) c 0 0)
    as (e' & E & Hsum).
  rewrite E. unfold bind, ChartCache.getMemory, ChartCache.getOptions, ret.
  cbn [ChartCache.memoryCache ChartCache.options].
  eexists. eexists. split; [reflexivity|].
  cbn [CacheStats.totalItems CacheStats.validItems CacheStats.expiredItems].
  rewrite length_map in Hsum. simpl in Hsum |- *. repeat split; lia.
Qed.

(** C3.  For every key whose entry in the memory satisfies
    [now - timestamp > ttl] when [get] reads the clock, [get] returns
    normally and reports the value absent, the entry is gone from the
    memory, and the [getStats] that follows scans the other entries
    only: its [validItems] counts the unexpired ones among them. *)
Theorem get_expired
    (c : ChartCache.t) (fuel : nat) (key : string) (item : CacheItem.t) :
  mapGet String.eqb (ChartCache.memoryCache c) key = Some item ->
  (ChartCache.clock c (ChartCache.reads c) - CacheItem.timestamp item
   > CacheItem.ttl item)%Z ->
  exists c',
    ChartCache.get fuel key c = Some (None, c') /\
    ChartCache.memoryCache c' = mapDelete String.eqb (ChartCache.memoryCache c) key /\
    mapGet String.eqb (ChartCache.memoryCache c') key = None /\
    exists stats c'',
      ChartCache.getStats c' = Some (stats, c'') /\
      CacheStats.totalItems stats
      = List.length (mapDelete String.eqb (ChartCache.memoryCache c) key) /\
      CacheStats.validItems stats
      = validCount (ChartCache.clock c') (ChartCache.reads c')
          (map snd (mapDelete String.eqb (ChartCache.memoryCache c) key)) /\
      CacheStats.validItems stats + CacheStats.expiredItems stats
      = CacheStats.totalItems stats.
Proof.
  intros Hget Hexp. rewrite (get_hit c fuel key item Hget). cbv zeta.
  replace (CacheItem.ttl item
           <? ChartCache.clock c (ChartCache.reads c) - CacheItem.timestamp item)%Z
    with true by (symmetry; apply Z.ltb_lt; lia).
  match goal with
  | |- context [ChartCache.delete key ?c1] =>
      destruct (delete_run c1 key) as [storage ->]
  end.
  eexists. split; [reflexivity|].
  cbn [ChartCache.memoryCache]. split; [reflexivity|].
  split; [apply mapGet_mapDelete_same|].
  match goal with
  | |- context [ChartCache.getStats ?c1] =>
      destruct (getStats_run c1) as (stats & c'' & E & Ht & Hv & Hs)
  end.
  exists stats, c''. cbn [ChartCache.memoryCache] in Ht, Hv. auto.
Qed.

(** An instance: an entry stamped at time 0 with a [ttl] of 10, read at
    time 100. *)
Lemma get_expired_witness :
  exists c',
    ChartCache.get 0 "k"
      (ChartCache.mk [("k"%string, CacheItem.mk mockChart 0 10)]
         ChartCache.defaultOptions None (fun _ => 100%Z) 0)
    = Some (None, c') /\
    mapGet String.eqb (ChartCache.memoryCache c') "k"%string = None.
Proof.
  destruct (get_expired
              (ChartCache.mk [("k"%string, CacheItem.mk mockChart 0 10)]
                 ChartCache.defaultOptions None (fun _ => 100%Z) 0)
              0 "k"%string (CacheItem.mk mockChart 0 10) eq_refl eq_refl)
    as (c' & Hget & _ & Hgone & _).
  exists c'. split; assumption.
Defined.

(** ** The cache: eviction *)

Lemma oldestScan_keep memory oldestKey oldestTime :
  Forall (fun e => (oldestTime <= CacheItem.timestamp (snd e))%Z) memory ->
  ChartCache.oldestScan memory (oldestKey, oldestTime) = (oldestKey, oldestTime).
Proof.
  unfold ChartCache.oldestScan. induction 1 as [|[k it] l Hx Hl IH]; simpl;
    [reflexivity|].
  simpl in Hx. replace (CacheItem.timestamp it <? oldestTime)%Z with false
    by (symmetry; apply Z.ltb_ge; exact Hx).
  exact IH.
Qed.

Lemma oldestScan_head key item rest now :
  (CacheItem.timestamp item < now)%Z ->
  Forall (olderThan (key, item)) rest ->
  ChartCache.oldestScan ((key, item) :: rest) (None, now)
  = (Some key, CacheItem.timestamp item).
Proof.
  intros Hnow Hrest. unfold ChartCache.oldestScan. simpl.
  replace (CacheItem.timestamp item <? now)%Z with true
    by (symmetry; apply Z.ltb_lt; exact Hnow).
  apply oldestScan_keep. eapply Forall_impl; [|exact Hrest].
  intros e He. unfold olderThan in He. simpl in He. lia.
Qed.

(** Whatever the memory, the key that the loop ends with belongs to an
    entry of the smallest timestamp. *)
Lemma oldestScan_minimum memory oldestKey oldestTime key t :
  ChartCache.oldestScan memory (oldestKey, oldestTime) = (Some key, t) ->
  (t <= oldestTime)%Z /\
  Forall (fun e => (t <= CacheItem.timestamp (snd e))%Z) memory /\
  ((exists item, In (key, item) memory /\ CacheItem.timestamp item = t) \/
   (oldestKey = Some key /\ oldestTime = t)).
Proof.
  unfold ChartCache.oldestScan.
  revert oldestKey oldestTime.
  induction memory as [|[k it] memory IH]; intros oldestKey oldestTime H.
  - simpl in H. injection H as -> ->. repeat split; [lia|constructor|now right].
  - cbn [fold_left] in H.
    destruct (CacheItem.timestamp it <? oldestTime)%Z eqn:E.
    + apply Z.ltb_lt in E. destruct (IH _ _ H) as (Hle & Hall & Hor).
      split; [lia|]. split; [constructor; [exact Hle|exact Hall]|].
      left. destruct Hor as [(item & Hin & Ht)|[Hk Ht]].
      * exists item. split; [now right|exact Ht].
      * injection Hk as ->. exists it. split; [now left|exact Ht].
    + apply Z.ltb_ge in E. destruct (IH _ _ H) as (Hle & Hall & Hor).
      split; [exact Hle|]. split; [constructor; [simpl; lia|exact Hall]|].
      destruct Hor as [(item & Hin & Ht)|[Hk Ht]].
      * left. exists item. split; [now right|exact Ht].
      * now right.
Qed.

(** With the oldest entry first, [evictOldest] removes that entry. *)
Lemma afterEvict_head key item rest now :
  key <> EmptyString ->
  ~ In key (map fst rest) ->
  (CacheItem.timestamp item < now)%Z ->
  Forall (olderThan (key, item)) rest ->
  afterEvict now ((key, item) :: rest) = rest.
Proof.
  intros Hne Hnotin Hnow Hrest. unfold afterEvict.
  rewrite (oldestScan_head _ _ _ _ Hnow Hrest).
  destruct key as [|a key]; [contradiction|].
  cbn [JS.truthyString]. unfold mapDelete. cbn [filter].
  rewrite String.eqb_refl. cbn [negb].
  now apply mapDelete_notin.
Qed.

Lemma skipn_S_tl {A} k (l : list A) : skipn (S k) l = tl (skipn k l).
Proof.
  revert l; induction k as [|k IH]; intros [|x l]; simpl; auto.
  - now rewrite <- IH.
Qed.

Lemma StronglySorted_snoc {A} (R : A -> A -> Prop) l x :
  StronglySorted R l -> Forall (fun y => R y x) l -> StronglySorted R (l ++ [x]).
Proof.
  induction 1 as [|h t Hs IH Hall]; intros Hx; simpl.
  - repeat constructor.
  - inversion Hx; subst. constructor; [now apply IH|].
    apply Forall_app. split; [exact Hall|]. now constructor.
Qed.

Section Eviction.

Variable clk : nat -> Z.
Variable opts : CacheOptions.t.

Let M := Z.to_nat (CacheOptions.maxSize opts).

Hypothesis maxSize_pos : (1 <= CacheOptions.maxSize opts)%Z.
Hypothesis clk_increasing : forall i j, i < j -> (clk i < clk j)%Z.

Lemma set_step pre c key data :
  newestKeptFor clk opts pre c ->
  NoDup (pre ++ [key]) ->
  (forall k, In k (pre ++ [key]) -> k <> EmptyString) ->
  exists c', ChartCache.set key data c = Some (tt, c') /\ newestKeptFor clk opts (pre ++ [key]) c'.
Proof.
  intros (Hclk & Hopts & Hkeys & Hsorted & Hstamps) Hnodup Hnonempty.
  fold M in Hkeys.
  destruct (set_run c key data) as [storage E]. cbv zeta in E.
  rewrite E. eexists. split; [reflexivity|]. clear E.
  assert (Hpre : NoDup pre) by (now apply NoDup_app_remove_r in Hnodup).
  assert (Hkey : ~ In key pre).
  { apply NoDup_remove_2 in Hnodup. now rewrite app_nil_r in Hnodup. }
  assert (Hlen : List.length (ChartCache.memoryCache c)
                 = List.length pre - (List.length pre - M)).
  { rewrite <- (length_map fst), Hkeys. apply length_skipn. }
  assert (Hsub : forall k, In k (map fst (ChartCache.memoryCache c)) -> In k pre).
  { intros k Hk. rewrite Hkeys in Hk. clear - Hk.
    revert Hk. generalize (List.length pre - M). intros n.
    revert pre. induction n as [|n IH]; intros [|x l]; simpl; auto. }
  assert (HM : 1 <= M) by (unfold M; lia).
  unfold newestKeptFor. cbn [ChartCache.clock ChartCache.options ChartCache.memoryCache
                          ChartCache.reads].
  rewrite Hopts, Hclk. fold M.
  rewrite length_app. cbn [List.length].
  destruct (CacheOptions.maxSize opts
            <=? Z.of_nat (List.length (ChartCache.memoryCache c)))%Z eqn:Hfull.
  - apply Z.leb_le in Hfull.
    assert (HMn : M <= List.length pre) by (unfold M in *; lia).
    destruct (ChartCache.memoryCache c) as [|[k1 it1] rest] eqn:Hmem.
    { simpl in Hlen. lia. }
    cbn [map fst] in Hkeys.
    assert (Hnd : NoDup (k1 :: map fst rest)).
    { rewrite Hkeys. clear - Hpre. generalize (List.length pre - M). intros n.
      revert pre Hpre. induction n as [|n IH]; intros [|x l] H; simpl; auto.
      apply IH. now inversion H. }
    inversion Hnd as [|? ? Hk1 Hndrest]; subst.
    inversion Hsorted as [|? ? Hsrest Hall]; subst.
    destruct (Hstamps (k1, it1) (or_introl eq_refl)) as (i1 & Hi1 & Ets1).
    cbn [snd] in Ets1.
    rewrite afterEvict_head; auto.
    2:{ apply Hnonempty. apply in_or_app. left. apply Hsub. now left. }
    2:{ rewrite Ets1. apply clk_increasing. lia. }
    assert (Hkr : ~ In key (map fst rest)).
    { intros Hin. apply Hkey, Hsub. now right. }
    rewrite (mapSet_new _ _ _ Hkr).
    repeat split.
    + rewrite map_app. cbn [map fst].
      replace (List.length pre + 1 - M) with (S (List.length pre - M)) by lia.
      rewrite skipn_app, skipn_S_tl, <- Hkeys. cbn [tl].
      replace (S (List.length pre - M) - List.length pre) with 0 by lia.
      reflexivity.
    + apply StronglySorted_snoc; [exact Hsrest|].
      apply Forall_forall. intros e He.
      destruct (Hstamps e (or_intror He)) as (i & Hi & Ets).
      unfold olderThan. cbn [snd CacheItem.timestamp]. rewrite Ets.
      now apply clk_increasing.
    + intros e He. apply in_app_or in He. destruct He as [He|[<-|[]]].
      * destruct (Hstamps e (or_intror He)) as (i & Hi & Ets).
        exists i. split; [lia|exact Ets].
      * exists (ChartCache.reads c). split; [lia|reflexivity].
  - apply Z.leb_gt in Hfull.
    assert (HMn : List.length pre < M) by (unfold M in *; lia).
    replace (List.length pre - M) with 0 in Hkeys by lia. cbn [skipn] in Hkeys.
    assert (Hkr : ~ In key (map fst (ChartCache.memoryCache c)))
      by (now rewrite Hkeys).
    rewrite (mapSet_new _ _ _ Hkr).
    repeat split.
    + rewrite map_app, Hkeys. cbn [map fst].
      replace (List.length pre + 1 - M) with 0 by lia. reflexivity.
    + apply StronglySorted_snoc; [exact Hsorted|].
      apply Forall_forall. intros e He.
      destruct (Hstamps e He) as (i & Hi & Ets).
      unfold olderThan. cbn [snd CacheItem.timestamp]. rewrite Ets.
      now apply clk_increasing.
    + intros e He. apply in_app_or in He. destruct He as [He|[<-|[]]].
      * destruct (Hstamps e He) as (i & Hi & Ets).
        exists i. split; [lia|exact Ets].
      * exists (ChartCache.reads c). split; [lia|reflexivity].
Qed.

Lemma setAll_newestKept items pre c :
  newestKeptFor clk opts pre c ->
  NoDup (pre ++ map fst items) ->
  (forall k, In k (pre ++ map fst items) -> k <> EmptyString) ->
  exists c', setAll items c = Some (tt, c') /\ newestKeptFor clk opts (pre ++ map fst items) c'.
Proof.
  revert pre c; induction items as [|[key data] items IH]; intros pre c Hinv Hnd Hne.
  - exists c. simpl. now rewrite app_nil_r.
  - cbn [map fst] in Hnd, Hne.
    replace (pre ++ key :: map fst items) with ((pre ++ [key]) ++ map fst items)
      in Hnd, Hne by (now rewrite <- app_assoc).
    destruct (set_step pre c key data Hinv) as (c1 & E1 & Hinv1).
    { now apply NoDup_app_remove_r in Hnd. }
    { intros k Hk. apply Hne. apply in_or_app. now left. }
    destruct (IH (pre ++ [key]) c1 Hinv1 Hnd Hne) as (c' & E' & Hinv').
    exists c'. split.
    + unfold setAll in *. cbn [forEach]. unfold bind at 1. now rewrite E1.
    + cbn [map fst].
      replace (pre ++ key :: map fst items) with ((pre ++ [key]) ++ map fst items)
        by (now rewrite <- app_assoc).
      exact Hinv'.
Qed.

End Eviction.

(** On a cache that starts empty, with [maxSize] at least 1 and a clock
    whose readings grow strictly, every sequence of [set] calls with
    distinct, non-empty keys leaves in the memory the keys set last,
    [maxSize] of them at most, ordered by insertion timestamp; and the
    key that the loop of [evictOldest] picks, on any memory, belongs to
    an entry of the smallest timestamp. *)
Lemma sets_keep_newest (c : ChartCache.t) (items : list (string * ChartData.t)) :
  let maxSize := Z.to_nat (CacheOptions.maxSize (ChartCache.options c)) in
  ChartCache.memoryCache c = [] ->
  (1 <= CacheOptions.maxSize (ChartCache.options c))%Z ->
  (forall i j, i < j -> (ChartCache.clock c i < ChartCache.clock c j)%Z) ->
  NoDup (map fst items) ->
  (forall k, In k (map fst items) -> k <> EmptyString) ->
  (exists c',
     setAll items c = Some (tt, c') /\
     map fst (ChartCache.memoryCache c')
     = skipn (List.length items - maxSize) (map fst items) /\
     List.length (ChartCache.memoryCache c') = Nat.min (List.length items) maxSize /\
     (maxSize < List.length items ->
      List.length (ChartCache.memoryCache c') = maxSize) /\
     StronglySorted olderThan (ChartCache.memoryCache c')) /\
  (forall memory now key t,
     ChartCache.oldestScan memory (None, now) = (Some key, t) ->
     (exists item, In (key, item) memory /\ CacheItem.timestamp item = t) /\
     Forall (fun e => (t <= CacheItem.timestamp (snd e))%Z) memory).
Proof.
  intros maxSize Hempty Hpos Hclk Hnd Hne. split.
  - destruct (setAll_newestKept (ChartCache.clock c) (ChartCache.options c)
                Hpos Hclk items [] c) as (c' & E & Hinv); auto.
    { unfold newestKeptFor. rewrite Hempty. repeat split; try constructor.
      intros e []. }
    destruct Hinv as (_ & _ & Hkeys & Hsorted & _).
    cbn [app] in Hkeys. rewrite length_map in Hkeys. fold maxSize in Hkeys.
    assert (Hlen : List.length (ChartCache.memoryCache c')
                   = Nat.min (List.length items) maxSize).
    { rewrite <- (length_map fst), Hkeys, length_skipn, length_map. lia. }
    exists c'. repeat split; auto. intros H. lia.
  - intros memory now key t H.
    destruct (oldestScan_minimum _ _ _ _ _ H) as (_ & Hall & [Hin|[Hk _]]).
    + split; assumption.
    + discriminate Hk.
Qed.

(** C2 as stated fails when a key comes twice: [a], [b], [c], [c] are
    three distinct keys, more than the two that the cache may hold, the
    readings of the clock grow strictly, and the memory ends with one
    entry, since the second [set] of [c] evicts [b]. *)
Lemma repeated_key_counterexample :
  let items :=
    [("a"%string, mockChart); ("b"%string, mockChart);
     ("c"%string, mockChart); ("c"%string, mockChart)] in
  List.length (nodup string_dec (map fst items)) = 3 /\
  CacheOptions.maxSize (ChartCache.options smallCache) = 2%Z /\
  exists c',
    setAll items smallCache = Some (tt, c') /\
    map fst (ChartCache.memoryCache c') = ["c"%string] /\
    List.length (ChartCache.memoryCache c') <> 2.
Proof.
  cbv zeta. split; [reflexivity|]. split; [reflexivity|].
  eexists. split; [vm_compute; reflexivity|].
  split; [reflexivity|]. simpl. discriminate.
Qed.

(** Two calls of [set] at the same reading of the clock: [evictOldest]
    looks for a timestamp strictly before its own reading, finds none,
    and the memory grows past [maxSize]. *)
Lemma set_same_reading_grows :
  exists c',
    setAll [("a"%string, mockChart); ("b"%string, mockChart)]
      (ChartCache.mk [] (CacheOptions.mk 3600000 1 false) None (fun _ => 0%Z) 0)
    = Some (tt, c') /\
    map fst (ChartCache.memoryCache c') = ["a"%string; "b"%string].
Proof. eexists. split; [vm_compute; reflexivity|reflexivity]. Qed.


(** * Further properties *)

(** ** The cache: deleting and clearing *)

Lemma delete_exact c key :
  ChartCache.delete key c = Some (tt, afterDelete key c).
Proof.
  unfold ChartCache.delete, afterDelete, bind, ChartCache.getOptions,
    ChartCache.getMemory, ChartCache.putMemory, ChartCache.getStorage,
    ChartCache.putStorage, ret. simpl.
  destruct (ChartCache.localStorage c);
    [destruct (CacheOptions.persistent (ChartCache.options c))|]; reflexivity.
Qed.

Lemma forEach_delete keys c :
  forEach keys ChartCache.delete c
  = Some (tt, fold_left (fun c key => afterDelete key c) keys c).
Proof.
  revert c; induction keys as [|key keys IH]; intros c; [reflexivity|].
  cbn [forEach fold_left]. unfold bind. rewrite delete_exact. apply IH.
Qed.

Lemma mapGet_filter_key {V} (p : string -> bool) (m : list (string * V)) key :
  mapGet String.eqb (filter (fun '(k, _) => p k) m) key
  = if p key then mapGet String.eqb m key else None.
Proof.
  induction m as [|[k v] m IH]; simpl.
  - now destruct (p key).
  - destruct (p k) eqn:Ek; simpl.
    + destruct (String.eqb_spec k key) as [->|Hne]; [now rewrite Ek|exact IH].
    + rewrite IH. destruct (String.eqb_spec k key) as [->|Hne]; [|reflexivity].
      now rewrite Ek.
Qed.

Lemma filter_all {A} (f : A -> bool) (l : list A) :
  (forall x, f x = true) -> filter f l = l.
Proof.
  intros H. induction l as [|x l IH]; simpl; [reflexivity|].
  now rewrite H, IH.
Qed.

Lemma filter_filter {A} (f g : A -> bool) (l : list A) :
  filter f (filter g l) = filter (fun x => g x && f x) l.
Proof.
  induction l as [|x l IH]; simpl; [reflexivity|].
  destruct (g x); simpl; [destruct (f x)|]; now rewrite IH.
Qed.

Lemma fold_afterDelete_memory keys c :
  ChartCache.memoryCache (fold_left (fun c key => afterDelete key c) keys c)
  = filter (fun '(k, _) => negb (existsb (String.eqb k) keys))
      (ChartCache.memoryCache c).
Proof.
  revert c; induction keys as [|key keys IH]; intros c; cbn [fold_left].
  - symmetry. apply filter_all. now intros [k v].
  - rewrite IH. unfold afterDelete. cbn [ChartCache.memoryCache]. unfold mapDelete.
    rewrite filter_filter. apply filter_ext. intros [k v]. cbn [existsb].
    now rewrite negb_orb.
Qed.

Lemma fold_afterDelete_frame keys c :
  let c' := fold_left (fun c key => afterDelete key c) keys c in
  ChartCache.options c' = ChartCache.options c /\
  ChartCache.clock c' = ChartCache.clock c /\
  ChartCache.reads c' = ChartCache.reads c.
Proof.
  cbv zeta. revert c; induction keys as [|key keys IH]; intros c; cbn [fold_left];
    [auto|].
  destruct (IH (afterDelete key c)) as (H1 & H2 & H3). now rewrite H1, H2, H3.
Qed.

Lemma fold_afterDelete_storage keys c s :
  CacheOptions.persistent (ChartCache.options c) = true ->
  ChartCache.localStorage c = Some s ->
  ChartCache.localStorage (fold_left (fun c key => afterDelete key c) keys c)
  = Some (filter
            (fun '(k, _) =>
               negb (existsb
                       (fun key => String.eqb k (ChartCache.storagePrefix ++ key)%string)
                       keys))
            s).
Proof.
  revert c s; induction keys as [|key keys IH]; intros c s Hp Hs; cbn [fold_left].
  - rewrite Hs. f_equal. symmetry. apply filter_all. now intros [k v].
  - rewrite (IH (afterDelete key c)
               (mapDelete String.eqb s (ChartCache.storagePrefix ++ key)%string)).
    + f_equal. unfold mapDelete.
      rewrite filter_filter. apply filter_ext. intros [k v]. cbn [existsb].
      now rewrite negb_orb.
    + exact Hp.
    + unfold afterDelete. cbn [ChartCache.localStorage]. now rewrite Hs, Hp.
Qed.

Lemma existsb_eqb_In (k : string) keys :
  existsb (String.eqb k) keys = true <-> In k keys.
Proof.
  rewrite existsb_exists. split.
  - intros [x [Hx E]]. apply String.eqb_eq in E. now subst.
  - intros H. exists k. split; [exact H|apply String.eqb_refl].
Qed.

Lemma clearByPattern_exact c pattern :
  ChartCache.clearByPattern pattern c
  = Some (tt,
          fold_left (fun c key => afterDelete key c)
            (filter (fun key => JS.includes key pattern)
               (map fst (ChartCache.memoryCache c))) c).
Proof.
  unfold ChartCache.clearByPattern, bind, ChartCache.getMemory. cbn [fst snd].
  apply forEach_delete.
Qed.

Lemma clearByPattern_memory c pattern :
  ChartCache.memoryCache
    (fold_left (fun c key => afterDelete key c)
       (filter (fun key => JS.includes key pattern)
          (map fst (ChartCache.memoryCache c))) c)
  = filter (fun '(key, _) => negb (JS.includes key pattern))
      (ChartCache.memoryCache c).
Proof.
  rewrite fold_afterDelete_memory. apply filter_ext_in.
  intros [k v] Hin. f_equal.
  destruct (JS.includes k pattern) eqn:E.
  - apply existsb_eqb_In. apply filter_In. split; [|exact E].
    now apply (in_map fst) in Hin.
  - destruct (existsb _ _) eqn:E'; [|reflexivity].
    apply existsb_eqb_In in E'. apply filter_In in E'.
    destruct E' as [_ E']. congruence.
Qed.

(** X1.  [clearByPattern] removes from the memory the keys that contain
    the pattern, and only those: the other entries stay, with their
    items, in their order.  With a store, the stored copies of the keys
    removed go too.  No clock reading is taken. *)
Theorem clearByPattern_removes_matching (c : ChartCache.t) (pattern : string) :
  exists c',
    ChartCache.clearByPattern pattern c = Some (tt, c') /\
    ChartCache.memoryCache c'
    = filter (fun '(key, _) => negb (JS.includes key pattern))
        (ChartCache.memoryCache c) /\
    (forall key, isSubstring pattern key ->
                 mapGet String.eqb (ChartCache.memoryCache c') key = None) /\
    (forall key, ~ isSubstring pattern key ->
                 mapGet String.eqb (ChartCache.memoryCache c') key
                 = mapGet String.eqb (ChartCache.memoryCache c) key) /\
    (forall s, CacheOptions.persistent (ChartCache.options c) = true ->
               ChartCache.localStorage c = Some s ->
               exists s',
                 ChartCache.localStorage c' = Some s' /\
                 forall key, In key (map fst (ChartCache.memoryCache c)) ->
                             isSubstring pattern key ->
                             mapGet String.eqb s'
                               (ChartCache.storagePrefix ++ key)%string = None) /\
    ChartCache.reads c' = ChartCache.reads c.
Proof.
  rewrite clearByPattern_exact.
  set (keys := filter (fun key => JS.includes key pattern)
                 (map fst (ChartCache.memoryCache c))).
  eexists. split; [reflexivity|].
  assert (Hmem : ChartCache.memoryCache
                   (fold_left (fun c key => afterDelete key c) keys c)
                 = filter (fun '(key, _) => negb (JS.includes key pattern))
                     (ChartCache.memoryCache c))
    by apply clearByPattern_memory.
  split; [exact Hmem|]. split; [|split; [|split]].
  - intros key Hsub. rewrite Hmem.
    rewrite (mapGet_filter_key (fun k => negb (JS.includes k pattern))).
    apply includes_spec in Hsub. now rewrite Hsub.
  - intros key Hsub. rewrite Hmem.
    rewrite (mapGet_filter_key (fun k => negb (JS.includes k pattern))).
    destruct (JS.includes key pattern) eqn:E; [|reflexivity].
    apply includes_spec in E. contradiction.
  - intros s Hp Hs. rewrite (fold_afterDelete_storage keys c s Hp Hs).
    eexists. split; [reflexivity|]. intros key Hin Hsub.
    rewrite (mapGet_filter_key
               (fun k => negb (existsb
                                 (fun key => String.eqb k
                                               (ChartCache.storagePrefix ++ key)%string)
                                 keys))).
    replace (existsb _ keys) with true; [reflexivity|].
    symmetry. apply existsb_exists. exists key. split; [|apply String.eqb_refl].
    unfold keys. apply filter_In. split; [exact Hin|now apply includes_spec].
  - apply fold_afterDelete_frame.
Qed.

Lemma forEach_removeItem keys c s :
  ChartCache.localStorage c = Some s ->
  forEach keys
    (fun key =>
       (storage <- ChartCache.getStorage ;;
        match storage with
        | Some s => ChartCache.putStorage (mapDelete String.eqb s key)
        | None => ret tt
        end)%eff) c
  = Some (tt, ChartCache.mk (ChartCache.memoryCache c) (ChartCache.options c)
                (Some (filter (fun '(k, _) => negb (existsb (String.eqb k) keys)) s))
                (ChartCache.clock c) (ChartCache.reads c)).
Proof.
  revert c s; induction keys as [|key keys IH]; intros c s Hs.
  - cbn [forEach]. unfold ret. rewrite (filter_all _ s) by (now intros [k v]).
    destruct c. cbn in Hs |- *. now rewrite Hs.
  - cbn [forEach]. unfold bind at 1. unfold bind at 1.
    unfold ChartCache.getStorage at 1. rewrite Hs.
    unfold ChartCache.putStorage at 1.
    rewrite (IH _ (mapDelete String.eqb s key)) by reflexivity.
    cbn [ChartCache.memoryCache ChartCache.options ChartCache.clock ChartCache.reads].
    do 3 f_equal. unfold mapDelete. rewrite filter_filter. f_equal.
    apply filter_ext. intros [k v]. cbn [existsb]. now rewrite negb_orb.
Qed.

(** X2.  [clear] empties the memory; with a store, it removes from it
    every key that starts with the prefix of the library and keeps the
    others; a cache that is not persistent leaves the store alone. *)
Theorem clear_empties (c : ChartCache.t) :
  exists c',
    ChartCache.clear c = Some (tt, c') /\
    ChartCache.memoryCache c' = [] /\
    (forall s, CacheOptions.persistent (ChartCache.options c) = true ->
               ChartCache.localStorage c = Some s ->
               ChartCache.localStorage c'
               = Some (filter
                         (fun '(k, _) =>
                            negb (JS.startsWith k ChartCache.storagePrefix))
                         s)) /\
    (CacheOptions.persistent (ChartCache.options c) = false ->
     ChartCache.localStorage c' = ChartCache.localStorage c) /\
    ChartCache.reads c' = ChartCache.reads c.
Proof.
  unfold ChartCache.clear. unfold bind at 1. unfold ChartCache.getOptions at 1.
  unfold bind at 1. unfold ChartCache.putMemory at 1.
  unfold bind at 1. unfold ChartCache.getStorage at 1.
  cbn [ChartCache.localStorage ChartCache.options].
  destruct (ChartCache.localStorage c) as [s|] eqn:Hs.
  - destruct (CacheOptions.persistent (ChartCache.options c)) eqn:Hp.
    + rewrite (forEach_removeItem _ _ s) by reflexivity.
      eexists. split; [reflexivity|]. cbn. repeat split; try discriminate.
      intros s' _ E. injection E as <-. f_equal. apply filter_ext_in.
      intros [k v] Hin. f_equal.
      destruct (JS.startsWith k ChartCache.storagePrefix) eqn:E.
      * apply existsb_eqb_In. apply filter_In. split; [|exact E].
        now apply (in_map fst) in Hin.
      * destruct (existsb _ _) eqn:E'; [|reflexivity].
        apply existsb_eqb_In, filter_In in E'. destruct E' as [_ E']. congruence.
    + eexists. split; [reflexivity|]. cbn.
      repeat split; try discriminate; try (symmetry; exact Hs).
  - eexists. split; [reflexivity|]. cbn.
    repeat split; try discriminate; try (symmetry; exact Hs).
Qed.

(** ** The cache: the store *)

Lemma loadFromStorage_key fuel key c :
  key <> EmptyString ->
  ChartCache.loadFromStorage fuel (Some key) c
  = Some (match ChartCache.localStorage c with
          | Some s => mapGet String.eqb s (ChartCache.storagePrefix ++ key)%string
          | None => None
          end, c).
Proof.
  intros Hne. destruct key as [|a key]; [contradiction|].
  destruct fuel; cbn [ChartCache.loadFromStorage]; unfold bind, ChartCache.getStorage;
    destruct (ChartCache.localStorage c); reflexivity.
Qed.

(** [get] on a key that the memory lacks. *)
Lemma get_miss c fuel key :
  key <> EmptyString ->
  mapGet String.eqb (ChartCache.memoryCache c) key = None ->
  ChartCache.get fuel key c
  = match (if CacheOptions.persistent (ChartCache.options c)
           then match ChartCache.localStorage c with
                | Some s => mapGet String.eqb s (ChartCache.storagePrefix ++ key)%string
                | None => None
                end
           else None) with
    | None => Some (None, c)
    | Some item =>
        let c1 := ChartCache.mk
                    (mapSet String.eqb (ChartCache.memoryCache c) key item)
                    (ChartCache.options c) (ChartCache.localStorage c)
                    (ChartCache.clock c) (S (ChartCache.reads c)) in
        if (CacheItem.ttl item
            <? ChartCache.clock c (ChartCache.reads c) - CacheItem.timestamp item)%Z
        then Some (None, afterDelete key c1)
        else Some (Some (CacheItem.data item), c1)
    end.
Proof.
  intros Hne Hmiss.
  unfold ChartCache.get. unfold bind at 1. unfold ChartCache.getOptions at 1.
  unfold bind at 1. unfold ChartCache.getMemory at 1. rewrite Hmiss.
  cbn [JS.isSome negb andb].
  destruct (CacheOptions.persistent (ChartCache.options c)) eqn:Hp.
  - unfold bind at 1. unfold bind at 1. rewrite (loadFromStorage_key _ _ _ Hne).
    destruct (match ChartCache.localStorage c with
              | Some s => mapGet String.eqb s (ChartCache.storagePrefix ++ key)%string
              | None => None
              end) as [item|].
    + unfold bind at 1. unfold ChartCache.getMemory at 1.
      unfold bind at 1. unfold ChartCache.putMemory at 1. unfold ret at 1.
      unfold bind at 1. unfold ChartCache.isExpired, bind, ChartCache.Date_now, ret.
      cbn [ChartCache.memoryCache ChartCache.options ChartCache.localStorage
           ChartCache.clock ChartCache.reads].
      destruct (CacheItem.ttl item
                <? ChartCache.clock c (ChartCache.reads c) - CacheItem.timestamp item)%Z.
      * now rewrite delete_exact.
      * reflexivity.
    + reflexivity.
  - reflexivity.
Qed.

(** X3.  After [delete], [get] of the same non-empty key reports the
    value absent, with or without a store, and takes no clock reading:
    the entry is gone from the memory and from the store. *)
Theorem delete_then_get (c : ChartCache.t) (fuel : nat) (key : string) :
  key <> EmptyString ->
  (ChartCache.delete key ;; ChartCache.get fuel key)%eff c
  = Some (None, afterDelete key c).
Proof.
  intros Hne. unfold bind. rewrite delete_exact.
  rewrite (get_miss _ _ _ Hne) by apply mapGet_mapDelete_same.
  unfold afterDelete at 1 2 3. cbn [ChartCache.options ChartCache.localStorage].
  destruct (CacheOptions.persistent (ChartCache.options c)); [|reflexivity].
  destruct (ChartCache.localStorage c) as [s|]; [|reflexivity].
  now rewrite mapGet_mapDelete_same.
Qed.

(** An instance: a persistent cache that holds the key in the memory and
    in the store. *)
Lemma delete_then_get_witness :
  (ChartCache.delete "k" ;; ChartCache.get 0 "k")%eff
    (ChartCache.mk [("k"%string, CacheItem.mk mockChart 0 10)]
       ChartCache.defaultOptions
       (Some [("brickcharts-k"%string, CacheItem.mk mockChart 0 10)])
       (fun _ => 5%Z) 0)
  = Some (None,
          ChartCache.mk [] ChartCache.defaultOptions (Some []) (fun _ => 5%Z) 0).
Proof.
  apply (delete_then_get
           (ChartCache.mk [("k"%string, CacheItem.mk mockChart 0 10)]
              ChartCache.defaultOptions
              (Some [("brickcharts-k"%string, CacheItem.mk mockChart 0 10)])
              (fun _ => 5%Z) 0) 0 "k"%string).
  discriminate.
Defined.

(** The state that [set] leaves, store included. *)
Lemma set_exact c key data :
  let full :=
    (CacheOptions.maxSize (ChartCache.options c)
     <=? Z.of_nat (List.length (ChartCache.memoryCache c)))%Z in
  ChartCache.set key data c
  = Some (tt,
          ChartCache.mk
            (mapSet String.eqb
               (if full
                then afterEvict (ChartCache.clock c (S (ChartCache.reads c)))
                       (ChartCache.memoryCache c)
                else ChartCache.memoryCache c)
               key (itemAt c data))
            (ChartCache.options c)
            (match ChartCache.localStorage c with
             | Some s =>
                 if CacheOptions.persistent (ChartCache.options c)
                 then Some (mapSet String.eqb s
                              (ChartCache.storagePrefix ++ key)%string (itemAt c data))
                 else Some s
             | None => None
             end)
            (ChartCache.clock c)
            (if full then S (S (ChartCache.reads c)) else S (ChartCache.reads c))).
Proof.
  cbv zeta. unfold itemAt, ChartCache.set, bind, ChartCache.getOptions,
    ChartCache.Date_now, ChartCache.getMemory. simpl.
  destruct (CacheOptions.maxSize (ChartCache.options c)
            <=? Z.of_nat (List.length (ChartCache.memoryCache c)))%Z.
  - rewrite evictOldest_run. unfold ChartCache.putMemory, ChartCache.saveToStorage,
      bind, ChartCache.getStorage, ChartCache.putStorage, ret. simpl.
    destruct (CacheOptions.persistent (ChartCache.options c));
      destruct (ChartCache.localStorage c); reflexivity.
  - unfold ret, ChartCache.putMemory, ChartCache.saveToStorage,
      bind, ChartCache.getStorage, ChartCache.putStorage. simpl.
    destruct (CacheOptions.persistent (ChartCache.options c));
      destruct (ChartCache.localStorage c); reflexivity.
Qed.

(** X4.  An item that only the store holds, unexpired, is loaded by the
    [get] that asks for it: for a persistent cache that lacks the
    non-empty key in its memory and whose store holds an item under the
    key with the prefix, read within its [ttl], [get] returns the chart
    of the item, puts the item in the memory under the key, with its
    timestamp and its [ttl], reads the clock once and leaves the store
    as it is. *)
Theorem get_from_store
    (c : ChartCache.t) (s : Storage) (fuel : nat) (key : string) (item : CacheItem.t) :
  CacheOptions.persistent (ChartCache.options c) = true ->
  ChartCache.localStorage c = Some s ->
  key <> EmptyString ->
  mapGet String.eqb (ChartCache.memoryCache c) key = None ->
  mapGet String.eqb s (ChartCache.storagePrefix ++ key)%string = Some item ->
  ~ expiredAt (ChartCache.clock c (ChartCache.reads c)) item ->
  ChartCache.get fuel key c
  = Some (Some (CacheItem.data item),
          ChartCache.mk (ChartCache.memoryCache c ++ [(key, item)])
            (ChartCache.options c) (Some s) (ChartCache.clock c)
            (S (ChartCache.reads c))).
Proof.
  intros Hp Hs Hne Hmiss Hstored Hfresh.
  rewrite (get_miss _ _ _ Hne Hmiss), Hp, Hs, Hstored. cbv zeta.
  replace (_ <? _)%Z with false
    by (symmetry; apply Z.ltb_ge; unfold expiredAt in Hfresh; lia).
  rewrite mapSet_new by (now apply mapGet_None_notin). reflexivity.
Qed.

(** An instance: an item stored at time 0 with a [ttl] of 10, read at
    time 7 by a cache with an empty memory. *)
Lemma get_from_store_witness :
  ChartCache.get 0 "k"
    (ChartCache.mk [] ChartCache.defaultOptions
       (Some [("brickcharts-k"%string, CacheItem.mk mockChart 0 10)])
       (fun _ => 7%Z) 0)
  = Some (Some mockChart,
          ChartCache.mk [("k"%string, CacheItem.mk mockChart 0 10)]
            ChartCache.defaultOptions
            (Some [("brickcharts-k"%string, CacheItem.mk mockChart 0 10)])
            (fun _ => 7%Z) 1).
Proof.
  apply (get_from_store
           (ChartCache.mk [] ChartCache.defaultOptions
              (Some [("brickcharts-k"%string, CacheItem.mk mockChart 0 10)])
              (fun _ => 7%Z) 0)
           [("brickcharts-k"%string, CacheItem.mk mockChart 0 10)]
           0 "k"%string (CacheItem.mk mockChart 0 10)).
  - reflexivity.
  - reflexivity.
  - discriminate.
  - reflexivity.
  - reflexivity.
  - unfold expiredAt. simpl. lia.
Defined.

(** X5.  An expired item that only the store holds is removed from the
    store by the [get] that finds it: [get] loads it, sees it expired,
    reports the value absent, and leaves neither the memory nor the store
    with the key. *)
Theorem get_expired_in_store
    (c : ChartCache.t) (s : Storage) (fuel : nat) (key : string) (item : CacheItem.t) :
  CacheOptions.persistent (ChartCache.options c) = true ->
  ChartCache.localStorage c = Some s ->
  key <> EmptyString ->
  mapGet String.eqb (ChartCache.memoryCache c) key = None ->
  mapGet String.eqb s (ChartCache.storagePrefix ++ key)%string = Some item ->
  expiredAt (ChartCache.clock c (ChartCache.reads c)) item ->
  exists c',
    ChartCache.get fuel key c = Some (None, c') /\
    mapGet String.eqb (ChartCache.memoryCache c') key = None /\
    ChartCache.localStorage c'
    = Some (mapDelete String.eqb s (ChartCache.storagePrefix ++ key)%string) /\
    (forall s', ChartCache.localStorage c' = Some s' ->
                mapGet String.eqb s' (ChartCache.storagePrefix ++ key)%string = None).
Proof.
  intros Hp Hs Hne Hmiss Hstored Hexp.
  rewrite (get_miss _ _ _ Hne Hmiss), Hp, Hs, Hstored. cbv zeta.
  replace (_ <? _)%Z with true by (symmetry; apply Z.ltb_lt; unfold expiredAt in Hexp; lia).
  eexists. split; [reflexivity|]. unfold afterDelete.
  cbn [ChartCache.memoryCache ChartCache.localStorage ChartCache.options].
  rewrite Hp. split; [apply mapGet_mapDelete_same|]. split; [reflexivity|].
  intros s' E. injection E as <-. apply mapGet_mapDelete_same.
Qed.

(** An instance: an item stored at time 0 with a [ttl] of 10, read at
    time 100. *)
Lemma get_expired_in_store_witness :
  exists c',
    ChartCache.get 0 "k"
      (ChartCache.mk [] ChartCache.defaultOptions
         (Some [("brickcharts-k"%string, CacheItem.mk mockChart 0 10)])
         (fun _ => 100%Z) 0)
    = Some (None, c') /\
    ChartCache.localStorage c' = Some [].
Proof.
  destruct (get_expired_in_store
              (ChartCache.mk [] ChartCache.defaultOptions
                 (Some [("brickcharts-k"%string, CacheItem.mk mockChart 0 10)])
                 (fun _ => 100%Z) 0)
              [("brickcharts-k"%string, CacheItem.mk mockChart 0 10)]
              0 "k"%string (CacheItem.mk mockChart 0 10)
              eq_refl eq_refl)
    as (c' & Hget & _ & Hstore & _); try reflexivity.
  - discriminate.
  - exists c'. split; [exact Hget|exact Hstore].
Defined.

(** ** The cache: capacity *)

Lemma oldestScan_found memory key oldestTime :
  fst (ChartCache.oldestScan memory (Some key, oldestTime)) <> None.
Proof.
  unfold ChartCache.oldestScan. revert key oldestTime.
  induction memory as [|[k it] memory IH]; intros key oldestTime; cbn [fold_left].
  - discriminate.
  - destruct (CacheItem.timestamp it <? oldestTime)%Z; apply IH.
Qed.

Lemma oldestScan_none memory now t :
  ChartCache.oldestScan memory (None, now) = (None, t) ->
  Forall (fun e => (now <= CacheItem.timestamp (snd e))%Z) memory.
Proof.
  unfold ChartCache.oldestScan.
  induction memory as [|[k it] memory IH]; cbn [fold_left]; intros H; [constructor|].
  destruct (CacheItem.timestamp it <? now)%Z eqn:E.
  - exfalso. apply (oldestScan_found memory k (CacheItem.timestamp it)).
    unfold ChartCache.oldestScan. now rewrite H.
  - apply Z.ltb_ge in E. constructor; [exact E|]. now apply IH.
Qed.

Lemma mapDelete_keys {V} (m : list (string * V)) key :
  map fst (mapDelete String.eqb m key)
  = filter (fun k => negb (String.eqb k key)) (map fst m).
Proof.
  unfold mapDelete. induction m as [|[k v] m IH]; simpl; [reflexivity|].
  destruct (String.eqb k key); simpl; now rewrite IH.
Qed.

Lemma mapDelete_shrinks {V} (m : list (string * V)) key :
  In key (map fst m) ->
  List.length (mapDelete String.eqb m key) < List.length m.
Proof.
  unfold mapDelete. induction m as [|[k v] m IH]; simpl; [contradiction|].
  intros [->|Hin].
  - rewrite String.eqb_refl. simpl.
    pose proof (filter_length_le (fun '(k', _) => negb (k' =? key)%string) m). lia.
  - destruct (String.eqb k key); simpl.
    + pose proof (filter_length_le (fun '(k', _) => negb (k' =? key)%string) m). lia.
    + specialize (IH Hin). lia.
Qed.

Lemma mapSet_keys {V} (m : list (string * V)) key v :
  map fst (mapSet String.eqb m key v)
  = if existsb (String.eqb key) (map fst m) then map fst m else map fst m ++ [key].
Proof.
  induction m as [|[k v'] m IH]; simpl; [reflexivity|].
  rewrite (String.eqb_sym key k).
  destruct (String.eqb k key); simpl; [reflexivity|].
  rewrite IH. now destruct (existsb (String.eqb key) (map fst m)).
Qed.

Lemma mapSet_In_inv {V} (m : list (string * V)) key v e :
  In e (mapSet String.eqb m key v) -> In e m \/ e = (key, v).
Proof.
  induction m as [|[k v'] m IH]; simpl.
  - intros [<-|[]]. now right.
  - destruct (String.eqb_spec k key) as [->|Hne]; simpl.
    + intros [<-|H]; auto.
    + intros [<-|H]; auto. destruct (IH H); auto.
Qed.

Lemma mapSet_length {V} (m : list (string * V)) key v :
  List.length (mapSet String.eqb m key v) <= S (List.length m).
Proof.
  rewrite <- !(length_map fst), mapSet_keys.
  destruct (existsb _ _); rewrite ?length_app; simpl; lia.
Qed.

Lemma afterEvict_sub now memory e :
  In e (afterEvict now memory) -> In e memory.
Proof.
  unfold afterEvict.
  destruct (ChartCache.oldestScan memory (None, now)) as [[key|] t]; auto.
  destruct (JS.truthyString (Some key)); auto.
  unfold mapDelete. intros H. now apply filter_In in H.
Qed.

Lemma afterEvict_keys_NoDup now memory :
  NoDup (map fst memory) -> NoDup (map fst (afterEvict now memory)).
Proof.
  intros H. unfold afterEvict.
  destruct (ChartCache.oldestScan memory (None, now)) as [[key|] t]; auto.
  destruct (JS.truthyString (Some key)); auto.
  rewrite mapDelete_keys. now apply NoDup_filter.
Qed.

(** When every entry is older than the reading and no key is empty,
    [evictOldest] makes room. *)
Lemma afterEvict_shrinks now memory :
  memory <> [] ->
  (forall key, In key (map fst memory) -> key <> EmptyString) ->
  Forall (fun e => (CacheItem.timestamp (snd e) < now)%Z) memory ->
  List.length (afterEvict now memory) < List.length memory.
Proof.
  intros Hne Hkeys Hold. unfold afterEvict.
  destruct (ChartCache.oldestScan memory (None, now)) as [[key|] t] eqn:E.
  - destruct (oldestScan_minimum _ _ _ _ _ E) as (_ & _ & [(item & Hin & _)|[Hk _]]);
      [|discriminate].
    assert (Hkey : In key (map fst memory)) by (now apply (in_map fst) in Hin).
    specialize (Hkeys key Hkey). destruct key; [contradiction|].
    cbn [JS.truthyString]. now apply mapDelete_shrinks.
  - apply oldestScan_none in E. destruct memory as [|e memory]; [contradiction|].
    inversion E; subst. inversion Hold; subst. lia.
Qed.

Lemma set_within c key data :
  withinCapacity c ->
  (1 <= CacheOptions.maxSize (ChartCache.options c))%Z ->
  (forall i j, i < j -> (ChartCache.clock c i < ChartCache.clock c j)%Z) ->
  key <> EmptyString ->
  exists c',
    ChartCache.set key data c = Some (tt, c') /\
    withinCapacity c' /\
    ChartCache.options c' = ChartCache.options c /\
    ChartCache.clock c' = ChartCache.clock c.
Proof.
  intros (Hnd & Hkeys & Hstamps & Hsize) Hmax Hclk Hne.
  rewrite set_exact. cbv zeta. eexists. split; [reflexivity|].
  split; [|split; reflexivity].
  set (full := (CacheOptions.maxSize (ChartCache.options c)
                <=? Z.of_nat (List.length (ChartCache.memoryCache c)))%Z).
  set (memory := if full
                 then afterEvict (ChartCache.clock c (S (ChartCache.reads c)))
                        (ChartCache.memoryCache c)
                 else ChartCache.memoryCache c).
  assert (Hsub : forall e, In e memory -> In e (ChartCache.memoryCache c)).
  { intros e. unfold memory. destruct full; [apply afterEvict_sub|auto]. }
  assert (Hnd' : NoDup (map fst memory)).
  { unfold memory. destruct full; [now apply afterEvict_keys_NoDup|exact Hnd]. }
  assert (Hlen : (Z.of_nat (List.length memory)
                  < CacheOptions.maxSize (ChartCache.options c))%Z).
  { unfold memory. destruct full eqn:Hfull; unfold full in Hfull.
    - apply Z.leb_le in Hfull.
      assert (H : List.length (afterEvict (ChartCache.clock c (S (ChartCache.reads c)))
                                 (ChartCache.memoryCache c))
                  < List.length (ChartCache.memoryCache c)); [|lia].
      apply afterEvict_shrinks.
      + intros E. rewrite E in Hfull. simpl in Hfull. lia.
      + exact Hkeys.
      + apply Forall_forall. intros e He.
        destruct (Hstamps e He) as (i & Hi & ->). apply Hclk. lia.
    - apply Z.leb_gt in Hfull. exact Hfull. }
  unfold withinCapacity.
  cbn [ChartCache.memoryCache ChartCache.options ChartCache.clock ChartCache.reads].
  split; [|split; [|split]].
  - rewrite mapSet_keys. destruct (existsb (String.eqb key) (map fst memory)) eqn:E;
      [exact Hnd'|].
    apply NoDup_app; [exact Hnd'|repeat constructor; auto|].
    intros k Hk [Ek|[]]. subst k.
    assert (E' : existsb (String.eqb key) (map fst memory) = true)
      by (now apply existsb_eqb_In).
    congruence.
  - intros k Hk. rewrite mapSet_keys in Hk.
    assert (Hold : In k (map fst memory) -> k <> EmptyString).
    { intros H. apply in_map_iff in H. destruct H as (e & <- & He).
      apply Hkeys. apply in_map. now apply Hsub. }
    destruct (existsb (String.eqb key) (map fst memory)); [now apply Hold|].
    apply in_app_or in Hk. destruct Hk as [Hk|[<-|[]]]; [now apply Hold|exact Hne].
  - intros e He. apply mapSet_In_inv in He. destruct He as [He| ->].
    + destruct (Hstamps e (Hsub e He)) as (i & Hi & Ei).
      exists i. split; [destruct full; lia|exact Ei].
    + exists (ChartCache.reads c). split; [destruct full; lia|reflexivity].
  - pose proof (mapSet_length memory key (itemAt c data)). lia.
Qed.

(** X6.  The memory never outgrows [maxSize]: on a cache whose entries
    have distinct non-empty keys and timestamps read earlier on a clock
    that grows strictly, and an empty cache is one, any sequence of
    [set] calls with non-empty keys, repeated or not, returns and
    leaves at most [maxSize] entries, [maxSize] being at least 1. *)
Theorem sets_within_capacity (c : ChartCache.t) (items : list (string * ChartData.t)) :
  withinCapacity c ->
  (1 <= CacheOptions.maxSize (ChartCache.options c))%Z ->
  (forall i j, i < j -> (ChartCache.clock c i < ChartCache.clock c j)%Z) ->
  (forall key, In key (map fst items) -> key <> EmptyString) ->
  exists c',
    setAll items c = Some (tt, c') /\
    withinCapacity c' /\
    (Z.of_nat (List.length (ChartCache.memoryCache c'))
     <= CacheOptions.maxSize (ChartCache.options c))%Z.
Proof.
  revert c; induction items as [|[key data] items IH]; intros c Hin Hmax Hclk Hkeys.
  - exists c. split; [reflexivity|]. split; [exact Hin|apply Hin].
  - destruct (set_within c key data Hin Hmax Hclk) as (c1 & E1 & Hin1 & Ho & Hc).
    { apply Hkeys. now left. }
    destruct (IH c1 Hin1) as (c' & E' & Hin' & Hlen).
    + now rewrite Ho.
    + now rewrite Hc.
    + intros k Hk. apply Hkeys. now right.
    + exists c'. split; [|split; [exact Hin'|now rewrite <- Ho]].
      unfold setAll in *. cbn [forEach]. unfold bind at 1. now rewrite E1.
Qed.

(** An instance: four calls, one key twice, on a cache of two entries. *)
Lemma sets_within_capacity_witness :
  exists c',
    setAll [("a"%string, mockChart); ("b"%string, mockChart);
            ("c"%string, mockChart); ("c"%string, mockChart)] smallCache
    = Some (tt, c') /\
    (Z.of_nat (List.length (ChartCache.memoryCache c')) <= 2)%Z.
Proof.
  destruct (sets_within_capacity smallCache
              [("a"%string, mockChart); ("b"%string, mockChart);
               ("c"%string, mockChart); ("c"%string, mockChart)])
    as (c' & E & _ & Hlen).
  - repeat split; simpl; try constructor; try lia; try contradiction.
  - simpl. lia.
  - intros i j H. simpl. unfold tickingClock. lia.
  - simpl. intros k [<-|[<-|[<-|[<-|[]]]]]; discriminate.
  - exists c'. split; [exact E|exact Hlen].
Defined.

(** ** The cache: statistics *)

(** X7.  [getStats] returns and changes nothing but the clock, read once
    for each entry: the entries that it counts as expired stay in the
    memory and in [totalItems], which is the size of the memory and the
    sum of [validItems] and [expiredItems]; the other three fields are
    the options of the cache. *)
Theorem getStats_counts (c : ChartCache.t) :
  exists stats,
    ChartCache.getStats c
    = Some (stats,
            ChartCache.mk (ChartCache.memoryCache c) (ChartCache.options c)
              (ChartCache.localStorage c) (ChartCache.clock c)
              (ChartCache.reads c + List.length (ChartCache.memoryCache c))) /\
    CacheStats.totalItems stats = List.length (ChartCache.memoryCache c) /\
    CacheStats.validItems stats + CacheStats.expiredItems stats
    = CacheStats.totalItems stats /\
    CacheStats.validItems stats
    = validCount (ChartCache.clock c) (ChartCache.reads c)
        (map snd (ChartCache.memoryCache c)) /\
    CacheStats.maxSize stats = CacheOptions.maxSize (ChartCache.options c) /\
    CacheStats.persistent stats = CacheOptions.persistent (ChartCache.options c) /\
    CacheStats.ttl stats = CacheOptions.ttl (ChartCache.options c).
Proof.
  unfold ChartCache.getStats. unfold bind at 1. unfold ChartCache.getMemory at 1.
  unfold bind at 1.
  destruct (getStats_loop (map snd (ChartCache.memoryCache c)) c 0 0)
    as (e' & E & Hsum).
  rewrite E. unfold bind, ChartCache.getMemory, ChartCache.getOptions, ret.
  cbn [ChartCache.memoryCache ChartCache.options].
  rewrite length_map in *. eexists. split; [reflexivity|].
  cbn [CacheStats.totalItems CacheStats.validItems CacheStats.expiredItems
       CacheStats.maxSize CacheStats.persistent CacheStats.ttl].
  simpl in Hsum |- *. repeat split; lia.
Qed.

(** ** [search]: what the results are *)

Lemma In_firstn_keep {A} (x : A) n l : In x (firstn n l) -> In x l.
Proof.
  revert n; induction l as [|y l IH]; intros [|n]; simpl; try tauto.
  intros [H|H]; [now left|right; eauto].
Qed.

Lemma In_slice0 {A} (x : A) l n : In x (JS.slice0 l n) -> In x l.
Proof. unfold JS.slice0. destruct (n <? 0)%Z; apply In_firstn_keep. Qed.

Lemma search_results_passing clock query engine r :
  In r (SearchOutput.results (search clock query engine)) ->
  In r (passing clock query engine).
Proof.
  rewrite search_results. cbv zeta. intros H.
  apply (Permutation_in _ (Permutation_sym (sortByScore_perm _))).
  destruct (SearchQuery.limit query) as [L|]; [|exact H].
  destruct (JS.truthyNumber (Some L)); [now apply In_slice0 in H|exact H].
Qed.

Lemma passingFrom_inv clock query k pairs r :
  In r (passingFrom clock query k pairs) ->
  exists chart entry i,
    In (chart, entry) pairs /\
    scoreEntry (SearchClock.scoreTime clock i) entry chart query = Some r /\
    (0 < SearchResult.score r)%Q.
Proof.
  revert k; induction pairs as [|[chart entry] pairs IH]; intros k; simpl;
    [contradiction|].
  destruct (scoreEntry (SearchClock.scoreTime clock k) entry chart query) as [r'|] eqn:E.
  - destruct (JS.Qltb 0 (SearchResult.score r')) eqn:Hpos.
    + intros [<-|H].
      * exists chart, entry, k. split; [now left|]. split; [exact E|].
        now apply Qltb_lt.
      * destruct (IH _ H) as (c & e & i & Hin & Hs & Hp).
        exists c, e, i. split; [now right|auto].
    + intros H. destruct (IH _ H) as (c & e & i & Hin & Hs & Hp).
      exists c, e, i. split; [now right|auto].
  - intros H. destruct (IH _ H) as (c & e & i & Hin & Hs & Hp).
    exists c, e, i. split; [now right|auto].
Qed.

Lemma scanned_In query engine chart entry :
  In (chart, entry) (scanned query engine) <->
  In chart (map snd (SearchEngine.chartDataCache engine)) /\
  isRelevantChart query chart = true /\
  In entry (ChartData.entries chart).
Proof.
  unfold scanned, getRelevantCharts. rewrite in_flat_map. split.
  - intros (c & Hc & He). apply filter_In in Hc. apply in_map_iff in He.
    destruct He as (e & E & He). injection E as -> ->. tauto.
  - intros (Hc & Hr & He). exists chart. split; [now apply filter_In|].
    now apply in_map.
Qed.

Lemma isRelevantChart_spec query chart :
  isRelevantChart query chart = true <->
  (forall source, SearchQuery.source query = Some source ->
                  ChartData.source chart = source) /\
  (forall chartType, SearchQuery.chartType query = Some chartType ->
                     chartType <> EmptyString ->
                     ChartData.chartType chart = chartType) /\
  (forall range, SearchQuery.dateRange query = Some range ->
                 (DateRange.start range <= ChartData.date chart
                  <= DateRange.end_ range)%Z).
Proof.
  unfold isRelevantChart. split.
  - intros H. split; [|split].
    + intros source E. rewrite E in H.
      destruct (ChartSource_eqb (ChartData.source chart) source) eqn:Es;
        [|discriminate]. now destruct (ChartData.source chart), source.
    + intros ct E Hne. rewrite E in H.
      destruct (match SearchQuery.source query with
                | Some s => negb (ChartSource_eqb (ChartData.source chart) s)
                | None => false end); [discriminate|].
      destruct ct as [|a ct]; [contradiction|]. cbn [JS.truthyString andb] in H.
      destruct (String.eqb_spec (ChartData.chartType chart) (String a ct));
        [assumption|discriminate].
    + intros range E. rewrite E in H.
      destruct (match SearchQuery.source query with
                | Some s => negb (ChartSource_eqb (ChartData.source chart) s)
                | None => false end); [discriminate|].
      destruct (match SearchQuery.chartType query with
                | Some ct => JS.truthyString (Some ct)
                             && negb (ChartData.chartType chart =? ct)%string
                | None => false end); [discriminate|].
      destruct (ChartData.date chart <? DateRange.start range)%Z eqn:E1;
        [discriminate|].
      destruct (DateRange.end_ range <? ChartData.date chart)%Z eqn:E2;
        [discriminate|].
      apply Z.ltb_ge in E1, E2. lia.
  - intros (Hs & Ht & Hd).
    destruct (SearchQuery.source query) as [source|].
    + rewrite (Hs source eq_refl).
      replace (ChartSource_eqb source source) with true by (now destruct source).
      cbn [negb].
      destruct (SearchQuery.chartType query) as [[|a ct]|].
      * cbn [JS.truthyString andb].
        destruct (SearchQuery.dateRange query) as [range|]; [|reflexivity].
        specialize (Hd range eq_refl).
        replace (_ <? _)%Z with false by (symmetry; apply Z.ltb_ge; lia).
        replace (_ <? _)%Z with false by (symmetry; apply Z.ltb_ge; lia).
        reflexivity.
      * rewrite (Ht (String a ct) eq_refl) by discriminate.
        rewrite String.eqb_refl. cbn [JS.truthyString andb negb].
        destruct (SearchQuery.dateRange query) as [range|]; [|reflexivity].
        specialize (Hd range eq_refl).
        replace (_ <? _)%Z with false by (symmetry; apply Z.ltb_ge; lia).
        replace (_ <? _)%Z with false by (symmetry; apply Z.ltb_ge; lia).
        reflexivity.
      * destruct (SearchQuery.dateRange query) as [range|]; [|reflexivity].
        specialize (Hd range eq_refl).
        replace (_ <? _)%Z with false by (symmetry; apply Z.ltb_ge; lia).
        replace (_ <? _)%Z with false by (symmetry; apply Z.ltb_ge; lia).
        reflexivity.
    + destruct (SearchQuery.chartType query) as [[|a ct]|].
      * cbn [JS.truthyString andb].
        destruct (SearchQuery.dateRange query) as [range|]; [|reflexivity].
        specialize (Hd range eq_refl).
        replace (_ <? _)%Z with false by (symmetry; apply Z.ltb_ge; lia).
        replace (_ <? _)%Z with false by (symmetry; apply Z.ltb_ge; lia).
        reflexivity.
      * rewrite (Ht (String a ct) eq_refl) by discriminate.
        rewrite String.eqb_refl. cbn [JS.truthyString andb negb].
        destruct (SearchQuery.dateRange query) as [range|]; [|reflexivity].
        specialize (Hd range eq_refl).
        replace (_ <? _)%Z with false by (symmetry; apply Z.ltb_ge; lia).
        replace (_ <? _)%Z with false by (symmetry; apply Z.ltb_ge; lia).
        reflexivity.
      * destruct (SearchQuery.dateRange query) as [range|]; [|reflexivity].
        specialize (Hd range eq_refl).
        replace (_ <? _)%Z with false by (symmetry; apply Z.ltb_ge; lia).
        replace (_ <? _)%Z with false by (symmetry; apply Z.ltb_ge; lia).
        reflexivity.
Qed.

Lemma outside_false v range : outside v range = false <-> inRange v range.
Proof.
  unfold outside, inRange. rewrite orb_false_iff, !Z.ltb_ge. tauto.
Qed.

(** What a result of [scoreEntry] tells of its arguments. *)
Lemma scoreEntry_Some now entry chart query r :
  scoreEntry now entry chart query = Some r ->
  SearchResult.entry r = entry /\ SearchResult.chartData r = chart /\
  rankRangeFilter entry query = false /\
  weeksRangeFilter entry query = false /\
  peakRangeFilter entry query = false /\
  newEntriesFilter entry query = false /\
  exists acc1 acc2,
    scoreTitle entry query (0%Q, []) = Some acc1 /\
    scoreArtist entry query acc1 = Some acc2 /\
    SearchResult.score r
    = (fst (scoreAlbum entry query acc2) + positionBoost entry
       + recencyBoost now chart)%Q /\
    SearchResult.matches r = snd (scoreAlbum entry query acc2).
Proof.
  unfold scoreEntry. cbv zeta.
  destruct (rankRangeFilter entry query); [discriminate|].
  destruct (weeksRangeFilter entry query); [discriminate|].
  destruct (peakRangeFilter entry query); [discriminate|].
  destruct (newEntriesFilter entry query); [discriminate|].
  destruct (scoreTitle entry query (0%Q, [])) as [acc1|] eqn:E1; [|discriminate].
  destruct (scoreArtist entry query acc1) as [acc2|] eqn:E2; [|discriminate].
  destruct (scoreAlbum entry query acc2) as [score matches] eqn:E3.
  destruct (Qeq_bool _ 0 && _); [discriminate|].
  intros E. injection E as <-.
  cbn [SearchResult.entry SearchResult.chartData SearchResult.score
       SearchResult.matches].
  do 6 (split; [reflexivity|]). exists acc1, acc2. rewrite E3.
  split; [reflexivity|]. split; [exact E2|]. split; reflexivity.
Qed.

Lemma matchText_strict_substring text query m :
  matchText text query false = Some m ->
  isSubstring (JS.toLowerCase query) (JS.toLowerCase text).
Proof.
  unfold matchText.
  destruct (String.eqb_spec (JS.toLowerCase text) (JS.toLowerCase query)) as [E|E].
  - intros _. rewrite E. exists EmptyString, EmptyString.
    cbn [append]. clear. induction (JS.toLowerCase query) as [|a s IH];
      [reflexivity|]. cbn [append]. now rewrite <- IH.
  - destruct (JS.includes (JS.toLowerCase text) (JS.toLowerCase query)) eqn:I;
      [|discriminate].
    intros _. now apply includes_spec.
Qed.

(** X8.  What [search] never returns.  Every result has a positive
    score and an entry of a chart that the engine holds; the chart
    passes the source, chart type and date filters of the query; the
    rank lies in the rank range, and the weeks on chart and the peak
    position, when the entry has them and they are not 0, lie in
    theirs; with [newEntriesOnly], the entry has no last week's rank, or
    has 0 there; and without [fuzzy], the title contains the title
    filter and, when no title filter is supplied, the artist contains
    the artist filter, case aside. *)
Theorem search_results_sound
    (clock : SearchClock.t) (query : SearchQuery.t) (engine : SearchEngine.t)
    (r : SearchResult.t) :
  In r (SearchOutput.results (search clock query engine)) ->
  let entry := SearchResult.entry r in
  let chart := SearchResult.chartData r in
  (0 < SearchResult.score r)%Q /\
  In chart (map snd (SearchEngine.chartDataCache engine)) /\
  In entry (ChartData.entries chart) /\
  (forall source, SearchQuery.source query = Some source ->
                  ChartData.source chart = source) /\
  (forall chartType, SearchQuery.chartType query = Some chartType ->
                     chartType <> EmptyString ->
                     ChartData.chartType chart = chartType) /\
  (forall range, SearchQuery.dateRange query = Some range ->
                 (DateRange.start range <= ChartData.date chart
                  <= DateRange.end_ range)%Z) /\
  (forall range, SearchQuery.rankRange query = Some range ->
                 inRange (ChartEntry.rank entry) range) /\
  (forall range weeks,
     SearchQuery.weeksRange query = Some range ->
     ChartEntry.weeksOnChart entry = Some weeks -> weeks <> 0%Z ->
     inRange weeks range) /\
  (forall range peak,
     SearchQuery.peakRange query = Some range ->
     ChartEntry.peakPosition entry = Some peak -> peak <> 0%Z ->
     inRange peak range) /\
  (SearchQuery.newEntriesOnly query = true ->
   ChartEntry.lastWeek entry = None \/ ChartEntry.lastWeek entry = Some 0%Z) /\
  (SearchQuery.fuzzy query = false ->
   forall title, SearchQuery.title query = Some title -> title <> EmptyString ->
                 isSubstring (JS.toLowerCase title)
                   (JS.toLowerCase (ChartEntry.title entry))) /\
  (SearchQuery.fuzzy query = false -> ~ supplied (SearchQuery.title query) ->
   forall artist, SearchQuery.artist query = Some artist -> artist <> EmptyString ->
                  isSubstring (JS.toLowerCase artist)
                    (JS.toLowerCase (ChartEntry.artist entry))).
Proof.
  intros Hin. cbv zeta.
  apply search_results_passing, passingFrom_inv in Hin.
  destruct Hin as (chart & entry & i & Hin & Hs & Hpos).
  apply scanned_In in Hin. destruct Hin as (Hc & Hr & He).
  apply isRelevantChart_spec in Hr. destruct Hr as (Hr1 & Hr2 & Hr3).
  apply scoreEntry_Some in Hs.
  destruct Hs as (-> & -> & Frank & Fweeks & Fpeak & Fnew & acc1 & acc2 & Ht & Ha & _).
  split; [exact Hpos|]. split; [exact Hc|]. split; [exact He|].
  split; [exact Hr1|]. split; [exact Hr2|]. split; [exact Hr3|].
  split; [|split; [|split; [|split; [|split]]]].
  - intros range E. unfold rankRangeFilter in Frank. rewrite E in Frank.
    now apply outside_false.
  - intros range weeks E Ew Hne. unfold weeksRangeFilter in Fweeks.
    rewrite E, Ew in Fweeks. apply outside_false.
    apply Z.eqb_neq in Hne. cbn [JS.truthyNumber] in Fweeks.
    rewrite Hne in Fweeks. exact Fweeks.
  - intros range peak E Ep Hne. unfold peakRangeFilter in Fpeak.
    rewrite E, Ep in Fpeak. apply outside_false.
    apply Z.eqb_neq in Hne. cbn [JS.truthyNumber] in Fpeak.
    rewrite Hne in Fpeak. exact Fpeak.
  - intros E. unfold newEntriesFilter in Fnew. rewrite E in Fnew.
    destruct (ChartEntry.lastWeek entry) as [w|]; [|now left].
    right. cbn in Fnew. apply negb_false_iff, Z.eqb_eq in Fnew. now subst.
  - intros Hf title E Hne. unfold scoreTitle in Ht. rewrite E, Hf in Ht.
    destruct title as [|a title]; [contradiction|]. cbn [JS.truthyString negb] in Ht.
    destruct (matchText (ChartEntry.title entry) (String a title) false)
      as [m|] eqn:Em; [|discriminate].
    now apply matchText_strict_substring in Em.
  - intros Hf Hnt artist E Hne. unfold scoreArtist in Ha. destruct acc1 as [s1 m1].
    rewrite E, Hf in Ha.
    destruct artist as [|a artist]; [contradiction|]. cbn [JS.truthyString negb] in Ha.
    destruct (matchText (ChartEntry.artist entry) (String a artist) false)
      as [m|] eqn:Em; [now apply matchText_strict_substring in Em|].
    destruct (JS.truthyString (SearchQuery.title query)) eqn:Et.
    + exfalso. apply Hnt. now apply supplied_truthy.
    + discriminate.
Qed.

(** An instance: the first result of the artist query of the tests. *)
Lemma search_results_sound_witness :
  exists r,
    In r (SearchOutput.results
            (search (fixedClock 1704067200000) (artistQuery "Taylor") mockEngine)) /\
    isSubstring "taylor" (JS.toLowerCase (ChartEntry.artist (SearchResult.entry r))).
Proof.
  set (rs := SearchOutput.results
               (search (fixedClock 1704067200000) (artistQuery "Taylor") mockEngine)).
  assert (H : In (hd (SearchResult.mk godsPlan mockChart 0 []) rs) rs)
    by (vm_compute; left; reflexivity).
  exists (hd (SearchResult.mk godsPlan mockChart 0 []) rs). split; [exact H|].
  refine (proj2 (proj2 (proj2 (proj2 (proj2 (proj2 (proj2 (proj2 (proj2 (proj2 (proj2
            (search_results_sound (fixedClock 1704067200000) (artistQuery "Taylor")
               mockEngine _ H)))))))))))
            eq_refl _ "Taylor"%string eq_refl _).
  - intros (s & E & _). discriminate E.
  - discriminate.
Defined.

(** ** [search]: fuzzy text filters *)

Lemma Qdiv_nonneg (x y : Q) : (0 <= x)%Q -> (0 <= y)%Q -> (0 <= x / y)%Q.
Proof.
  intros Hx Hy. unfold Qdiv. apply Qmult_le_0_compat; [exact Hx|].
  now apply Qinv_le_0_compat.
Qed.

Lemma matchText_nonneg text query fuzzy m :
  matchText text query fuzzy = Some m -> (0 <= tm_confidence m)%Q.
Proof.
  unfold matchText.
  destruct (JS.toLowerCase text =? JS.toLowerCase query)%string.
  { intros E. injection E as <-. discriminate. }
  destruct (JS.includes (JS.toLowerCase text) (JS.toLowerCase query)).
  { intros E. injection E as <-. cbn [tm_confidence].
    apply Qdiv_nonneg; apply (inject_Z_le 0); lia. }
  destruct fuzzy; [|discriminate].
  destruct (JS.Qltb (6 # 10) _) eqn:E; [|discriminate].
  intros E'. injection E' as <-. cbn [tm_confidence].
  apply Qltb_lt in E. apply Qlt_le_weak. eapply Qlt_trans; [|exact E]. reflexivity.
Qed.

Lemma grown_step score matches confidence weight m :
  (0 <= confidence)%Q -> (0 <= weight)%Q ->
  grown (score, matches) ((score + confidence * weight)%Q, matches ++ [m]).
Proof.
  intros Hc Hw. right. cbn [fst snd]. split.
  - rewrite <- (Qplus_0_r score) at 1. apply Qplus_le_compat; [apply Qle_refl|].
    now apply Qmult_le_0_compat.
  - now destruct matches.
Qed.

Lemma grown_trans a b c : grown a b -> grown b c -> grown a c.
Proof.
  intros [->|[H1 H2]] [->|[H3 H4]]; [now left|right; auto|right; auto|].
  right. split; [now apply (Qle_trans _ _ _ H1)|exact H4].
Qed.

Lemma scoreTitle_fuzzy entry query acc :
  SearchQuery.fuzzy query = true ->
  exists acc', scoreTitle entry query acc = Some acc' /\ grown acc acc'.
Proof.
  intros Hf. unfold scoreTitle. destruct acc as [score matches].
  destruct (SearchQuery.title query) as [title|]; [|exists (score, matches); split; [reflexivity|now left]].
  destruct (JS.truthyString (Some title));
    [|exists (score, matches); split; [reflexivity|now left]].
  rewrite Hf.
  destruct (matchText (ChartEntry.title entry) title true) as [m|] eqn:E.
  - eexists. split; [reflexivity|]. apply grown_step; [|discriminate].
    now apply matchText_nonneg in E.
  - exists (score, matches). split; [reflexivity|now left].
Qed.

Lemma scoreArtist_fuzzy entry query acc :
  SearchQuery.fuzzy query = true ->
  exists acc', scoreArtist entry query acc = Some acc' /\ grown acc acc'.
Proof.
  intros Hf. unfold scoreArtist. destruct acc as [score matches].
  destruct (SearchQuery.artist query) as [artist|]; [|exists (score, matches); split; [reflexivity|now left]].
  destruct (JS.truthyString (Some artist));
    [|exists (score, matches); split; [reflexivity|now left]].
  rewrite Hf.
  destruct (matchText (ChartEntry.artist entry) artist true) as [m|] eqn:E.
  - eexists. split; [reflexivity|]. apply grown_step; [|discriminate].
    now apply matchText_nonneg in E.
  - exists (score, matches). split; [reflexivity|now left].
Qed.

Lemma scoreAlbum_grown entry query acc : grown acc (scoreAlbum entry query acc).
Proof.
  unfold scoreAlbum. destruct acc as [score matches].
  destruct (SearchQuery.album query) as [qalbum|]; [|now left].
  destruct (ChartEntry.album entry) as [album|]; [|now left].
  destruct (JS.truthyString (Some qalbum) && JS.truthyString (Some album)); [|now left].
  destruct (matchText album qalbum (SearchQuery.fuzzy query)) as [m|] eqn:E; [|now left].
  apply grown_step; [|discriminate]. now apply matchText_nonneg in E.
Qed.

(** With [fuzzy] on, an entry that the query without its text filters
    accepts is accepted with them, at no lower a score. *)
Lemma scoreEntry_fuzzy_keeps now entry chart query r0 :
  SearchQuery.fuzzy query = true ->
  scoreEntry now entry chart (withoutText query) = Some r0 ->
  exists r,
    scoreEntry now entry chart query = Some r /\
    (SearchResult.score r0 <= SearchResult.score r)%Q /\
    SearchResult.entry r = SearchResult.entry r0 /\
    SearchResult.chartData r = SearchResult.chartData r0.
Proof.
  intros Hf. unfold scoreEntry. cbv zeta.
  change (rankRangeFilter entry (withoutText query)) with (rankRangeFilter entry query).
  change (weeksRangeFilter entry (withoutText query))
    with (weeksRangeFilter entry query).
  change (peakRangeFilter entry (withoutText query)) with (peakRangeFilter entry query).
  change (newEntriesFilter entry (withoutText query))
    with (newEntriesFilter entry query).
  destruct (rankRangeFilter entry query); [discriminate|].
  destruct (weeksRangeFilter entry query); [discriminate|].
  destruct (peakRangeFilter entry query); [discriminate|].
  destruct (newEntriesFilter entry query); [discriminate|].
  change (scoreTitle entry (withoutText query) (0%Q, [])) with (Some (0%Q, @nil SearchMatch.t)).
  cbv iota.
  change (scoreArtist entry (withoutText query) (0%Q, []))
    with (Some (0%Q, @nil SearchMatch.t)).
  cbv iota.
  change (scoreAlbum entry (withoutText query) (0%Q, []))
    with (0%Q, @nil SearchMatch.t).
  cbv iota.
  destruct (scoreTitle_fuzzy entry query (0%Q, []) Hf) as (acc1 & -> & G1).
  destruct (scoreArtist_fuzzy entry query acc1 Hf) as (acc2 & -> & G2).
  pose proof (grown_trans _ _ _ (grown_trans _ _ _ G1 G2)
                (scoreAlbum_grown entry query acc2)) as G.
  destruct (scoreAlbum entry query acc2) as [score matches].
  destruct G as [G|[G1' G2']].
  - injection G as -> ->.
    destruct (Qeq_bool _ 0 && _); [discriminate|].
    intros E. injection E as <-. eexists. split; [reflexivity|].
    cbn. split; [apply Qle_refl|split; reflexivity].
  - cbn [fst snd] in G1', G2'.
    destruct (Qeq_bool (0 + positionBoost entry + recencyBoost now chart) 0 && _);
      [discriminate|].
    intros E. injection E as <-.
    replace (List.length matches =? 0) with false
      by (now destruct matches).
    rewrite andb_false_r. eexists. split; [reflexivity|].
    cbn [SearchResult.score SearchResult.entry SearchResult.chartData].
    split; [|split; reflexivity].
    apply Qplus_le_compat; [|apply Qle_refl].
    apply Qplus_le_compat; [exact G1'|apply Qle_refl].
Qed.

Lemma passingFrom_tail clock query k pair pairs r :
  In r (passingFrom clock query (S k) pairs) ->
  In r (passingFrom clock query k (pair :: pairs)).
Proof.
  destruct pair as [chart entry]. simpl.
  destruct (scoreEntry (SearchClock.scoreTime clock k) entry chart query) as [r'|];
    [destruct (JS.Qltb 0 (SearchResult.score r'))|]; simpl; auto.
Qed.

Lemma passingFrom_mono clock query query' k pairs r0 :
  (forall now entry chart r0,
     scoreEntry now entry chart query' = Some r0 ->
     exists r,
       scoreEntry now entry chart query = Some r /\
       (SearchResult.score r0 <= SearchResult.score r)%Q /\
       SearchResult.entry r = SearchResult.entry r0 /\
       SearchResult.chartData r = SearchResult.chartData r0) ->
  In r0 (passingFrom clock query' k pairs) ->
  exists r,
    In r (passingFrom clock query k pairs) /\
    (SearchResult.score r0 <= SearchResult.score r)%Q /\
    SearchResult.entry r = SearchResult.entry r0 /\
    SearchResult.chartData r = SearchResult.chartData r0.
Proof.
  intros H. revert k; induction pairs as [|[chart entry] pairs IH]; intros k;
    [contradiction|].
  assert (Htail : In r0 (passingFrom clock query' (S k) pairs) ->
                  exists r,
                    In r (passingFrom clock query k ((chart, entry) :: pairs)) /\
                    (SearchResult.score r0 <= SearchResult.score r)%Q /\
                    SearchResult.entry r = SearchResult.entry r0 /\
                    SearchResult.chartData r = SearchResult.chartData r0).
  { intros Hin. destruct (IH _ Hin) as (r & Hr & Hrest).
    exists r. split; [now apply passingFrom_tail|exact Hrest]. }
  cbn [passingFrom].
  destruct (scoreEntry (SearchClock.scoreTime clock k) entry chart query')
    as [r0'|] eqn:E0; [|exact Htail].
  destruct (JS.Qltb 0 (SearchResult.score r0')) eqn:Hpos; [|exact Htail].
  intros [<-|Hin]; [|now apply Htail].
  destruct (H _ _ _ _ E0) as (r & Er & Hle & He & Hc).
  exists r. split; [|auto]. rewrite Er.
  apply Qltb_lt in Hpos.
  replace (JS.Qltb 0 (SearchResult.score r)) with true; [now left|].
  symmetry. apply Qltb_lt. now apply (Qlt_le_trans _ _ _ Hpos).
Qed.

(** X9.  With [fuzzy] on, the text filters turn no entry away: every
    result of the query without its title, artist and album filters is
    a result, for the same entry of the same chart and at no lower a
    score, of the query with them (no limit being set). *)
Theorem fuzzy_text_never_excludes
    (clock : SearchClock.t) (query : SearchQuery.t) (engine : SearchEngine.t)
    (r0 : SearchResult.t) :
  SearchQuery.fuzzy query = true ->
  SearchQuery.limit query = None ->
  In r0 (SearchOutput.results (search clock (withoutText query) engine)) ->
  exists r,
    In r (SearchOutput.results (search clock query engine)) /\
    SearchResult.entry r = SearchResult.entry r0 /\
    SearchResult.chartData r = SearchResult.chartData r0 /\
    (SearchResult.score r0 <= SearchResult.score r)%Q.
Proof.
  intros Hf Hl Hin. apply search_results_passing in Hin.
  unfold passing in Hin.
  change (scanned (withoutText query) engine) with (scanned query engine) in Hin.
  apply (passingFrom_mono clock query) in Hin.
  - destruct Hin as (r & Hr & Hle & He & Hc). exists r.
    split; [|auto]. rewrite search_results, Hl. cbv zeta.
    now apply (Permutation_in _ (sortByScore_perm _)).
  - intros now entry chart r1. now apply scoreEntry_fuzzy_keeps.
Qed.

(** An instance: the fuzzy query for the artist Taylor Swift returns
    the entry of Drake. *)
Lemma fuzzy_text_never_excludes_witness :
  exists r,
    In r (SearchOutput.results
            (search (fixedClock 1704067200000) (fuzzyArtistQuery "Taylor Swift")
               mockEngine)) /\
    SearchResult.entry r = godsPlan.
Proof.
  set (rs := SearchOutput.results
               (search (fixedClock 1704067200000)
                  (withoutText (fuzzyArtistQuery "Taylor Swift")) mockEngine)).
  assert (H : In (nth 2 rs (SearchResult.mk loveStory mockChart 0 [])) rs)
    by (vm_compute; right; right; left; reflexivity).
  destruct (fuzzy_text_never_excludes (fixedClock 1704067200000)
              (fuzzyArtistQuery "Taylor Swift") mockEngine _ eq_refl eq_refl H)
    as (r & Hr & He & _).
  exists r. split; [exact Hr|]. rewrite He. vm_compute. reflexivity.
Defined.

(** ** [search]: the statistics *)

Lemma filter_length_perm {A} (f : A -> bool) l l' :
  Permutation l l' -> List.length (filter f l) = List.length (filter f l').
Proof.
  induction 1 as [|x l l' _ IH|x y l|l l' l'' _ IH1 _ IH2]; simpl.
  - reflexivity.
  - destruct (f x); simpl; now rewrite IH.
  - destruct (f x), (f y); reflexivity.
  - now rewrite IH1.
Qed.

Lemma scanEntry_counted clock query chart st entry :
  counted st -> counted (scanEntry clock query chart st entry).
Proof.
  intros (He & Hp & Hf). unfold scanEntry. cbv zeta.
  destruct (scoreEntry (SearchClock.scoreTime clock (Scan.scored st)) entry chart query)
    as [r|]; [|now repeat split].
  destruct (JS.Qltb 0 (SearchResult.score r)); [|now repeat split].
  unfold counted, countExact, countPartial, countFuzzy.
  cbn [Scan.results Scan.exactMatches Scan.partialMatches Scan.fuzzyMatches].
  rewrite !filter_app, !length_app. cbn [filter].
  unfold countExact in He. unfold countPartial in Hp. unfold countFuzzy in Hf.
  rewrite He, Hp, Hf.
  destruct (hasMatch Exact r), (hasMatch Partial r), (hasMatch Fuzzy r);
    cbn [negb andb List.length]; repeat split; lia.
Qed.

Lemma scanChart_counted clock query st chart :
  counted st -> counted (scanChart clock query st chart).
Proof.
  intros H. unfold scanChart. cbv zeta.
  set (st0 := Scan.mk _ _ _ _ _ _).
  assert (H0 : counted st0) by exact H.
  clearbody st0. revert st0 H0.
  induction (ChartData.entries chart) as [|entry entries IH]; intros st0 H0;
    [exact H0|].
  cbn [fold_left]. apply IH. now apply scanEntry_counted.
Qed.

Lemma scan_counted clock query charts st :
  counted st -> counted (fold_left (scanChart clock query) charts st).
Proof.
  revert st; induction charts as [|chart charts IH]; intros st H; [exact H|].
  cbn [fold_left]. apply IH. now apply scanChart_counted.
Qed.

Lemma counts_le results :
  countExact results + countPartial results + countFuzzy results
  <= List.length results.
Proof.
  unfold countExact, countPartial, countFuzzy.
  induction results as [|r l IH]; [simpl; lia|].
  cbn [filter].
  destruct (hasMatch Exact r), (hasMatch Partial r), (hasMatch Fuzzy r);
    cbn [negb andb List.length]; lia.
Qed.

(** X10.  The statistics of [search].  [totalResults] is the length of
    the list returned, after the limit; the three counters are taken
    before it, over all the entries that pass: [exactMatches] counts
    those with an exact match, [partialMatches] those with a partial
    match and no exact one, [fuzzyMatches] those with a fuzzy match
    only, so that their sum is at most the number of results without
    the limit, and can exceed [totalResults].  [searchTime] is the
    difference of the first and the last clock readings. *)
Theorem search_stats_count
    (clock : SearchClock.t) (query : SearchQuery.t) (engine : SearchEngine.t) :
  let out := search clock query engine in
  let stats := SearchOutput.stats out in
  let full := SearchOutput.results (search clock (withoutLimit query) engine) in
  SearchStats.totalResults stats = List.length (SearchOutput.results out) /\
  SearchStats.exactMatches stats = countExact full /\
  SearchStats.partialMatches stats = countPartial full /\
  SearchStats.fuzzyMatches stats = countFuzzy full /\
  SearchStats.exactMatches stats + SearchStats.partialMatches stats
  + SearchStats.fuzzyMatches stats <= List.length full /\
  SearchStats.searchTime stats
  = (SearchClock.endTime clock - SearchClock.startTime clock)%Z.
Proof.
  cbv zeta. rewrite search_withoutLimit.
  assert (Hc : counted (fold_left (scanChart clock query)
                          (getRelevantCharts query engine) (Scan.mk [] [] 0 0 0 0))).
  { apply scan_counted. repeat split. }
  destruct Hc as (He & Hp & Hf). rewrite scan_passing in He, Hp, Hf.
  unfold search. cbv zeta.
  cbn [SearchOutput.stats SearchOutput.results SearchStats.totalResults
       SearchStats.exactMatches SearchStats.partialMatches SearchStats.fuzzyMatches
       SearchStats.searchTime].
  rewrite He, Hp, Hf.
  pose proof (counts_le (passing clock query engine)) as Hle.
  unfold countExact, countPartial, countFuzzy in *.
  rewrite <- !(filter_length_perm _ _ _ (sortByScore_perm (passing clock query engine))).
  split; [reflexivity|]. do 3 (split; [reflexivity|]). split; [|reflexivity].
  rewrite sortByScore_length. exact Hle.
Qed.

(** ** Indexing *)

Lemma mapGet_mapSet_key (m : list (ChartKey * ChartData.t)) k v k' :
  mapGet ChartKey_eqb (mapSet ChartKey_eqb m k v) k'
  = if ChartKey_eqb k k' then Some v else mapGet ChartKey_eqb m k'.
Proof.
  induction m as [|[k0 v0] m IH]; cbn [mapGet mapSet].
  - reflexivity.
  - destruct (ChartKey_eqb k0 k) eqn:E0; cbn [mapGet].
    + apply ChartKey_eqb_eq in E0. subst k0. now destruct (ChartKey_eqb k k').
    + rewrite IH. destruct (ChartKey_eqb k0 k') eqn:E1; [|reflexivity].
      apply ChartKey_eqb_eq in E1. subst k0.
      destruct (ChartKey_eqb k k') eqn:E2; [|reflexivity].
      apply ChartKey_eqb_eq in E2. subst k'.
      rewrite (proj2 (ChartKey_eqb_eq k k) eq_refl) in E0. discriminate.
Qed.

Lemma mapSet_same_value {K V} (eqb : K -> K -> bool) (m : list (K * V)) k v :
  mapGet eqb m k = Some v -> mapSet eqb m k v = m.
Proof.
  induction m as [|[k0 v0] m IH]; simpl; [discriminate|].
  destruct (eqb k0 k).
  - intros E. now injection E as ->.
  - intros E. now rewrite IH.
Qed.

(** X11.  After [indexChartData], the engine holds under each key the
    chart indexed last under it, and under the other keys what it held
    before: a chart indexed under the key of an earlier one takes its
    place. *)
Theorem indexChartData_lookup
    (charts : list ChartData.t) (engine : SearchEngine.t) (key : ChartKey) :
  mapGet ChartKey_eqb (SearchEngine.chartDataCache (indexChartData charts engine)) key
  = match lastIndexed key charts with
    | Some chart => Some chart
    | None => mapGet ChartKey_eqb (SearchEngine.chartDataCache engine) key
    end.
Proof.
  unfold indexChartData, lastIndexed.
  induction charts as [|chart charts IH] using rev_ind; [reflexivity|].
  rewrite fold_left_app, rev_app_distr. cbn [fold_left rev app find].
  unfold indexChart at 1. cbn [SearchEngine.chartDataCache].
  rewrite mapGet_mapSet_key, IH.
  now destruct (ChartKey_eqb (chartKey chart) key).
Qed.

(** X12.  Indexing again a chart that the engine holds changes no
    search: the results and the statistics are those of before, the
    chart being scanned once. *)
Theorem reindex_same_search
    (clock : SearchClock.t) (query : SearchQuery.t) (engine : SearchEngine.t)
    (chart : ChartData.t) :
  mapGet ChartKey_eqb (SearchEngine.chartDataCache engine) (chartKey chart)
  = Some chart ->
  search clock query (indexChartData [chart] engine) = search clock query engine.
Proof.
  intros H. unfold search, getRelevantCharts, indexChartData, indexChart.
  cbn [fold_left SearchEngine.chartDataCache].
  now rewrite (mapSet_same_value _ _ _ _ H).
Qed.

(** An instance: the chart of the tests, indexed twice. *)
Lemma reindex_same_search_witness :
  search (fixedClock 1704067200000) emptyQuery (indexChartData [mockChart] mockEngine)
  = search (fixedClock 1704067200000) emptyQuery mockEngine.
Proof.
  apply (reindex_same_search (fixedClock 1704067200000) emptyQuery mockEngine mockChart).
  reflexivity.
Defined.

(** ** [quickSearch] *)

Lemma suggestionsAdd_In suggestions value x :
  In x (suggestionsAdd suggestions value) <-> In x suggestions \/ x = value.
Proof.
  unfold suggestionsAdd.
  destruct (existsb (String.eqb value) suggestions) eqn:E.
  - apply existsb_eqb_In in E. split; [auto|]. intros [H| ->]; assumption.
  - rewrite in_app_iff. simpl. intuition.
Qed.

Lemma suggestionsAdd_NoDup suggestions value :
  NoDup suggestions -> NoDup (suggestionsAdd suggestions value).
Proof.
  intros H. unfold suggestionsAdd.
  destruct (existsb (String.eqb value) suggestions) eqn:E; [exact H|].
  apply NoDup_app; [exact H|repeat constructor; auto|].
  intros x Hx [Ex|[]]. subst x.
  apply existsb_eqb_In in Hx. congruence.
Qed.

Lemma suggestFrom_In field lowerTerm entries suggestions x :
  In x (suggestFrom field lowerTerm entries suggestions) <->
  In x suggestions \/
  exists entry, In entry entries /\ fieldValue field entry = x /\
                JS.includes (JS.toLowerCase x) lowerTerm = true.
Proof.
  unfold suggestFrom. revert suggestions.
  induction entries as [|entry entries IH]; intros suggestions; cbn [fold_left].
  - split; [auto|]. intros [H|(e & [] & _)]. exact H.
  - rewrite IH. cbv zeta.
    destruct (JS.includes (JS.toLowerCase (fieldValue field entry)) lowerTerm) eqn:E.
    + rewrite suggestionsAdd_In. split.
      * intros [[H| ->]|(e & He & Hv & Hi)]; [now left| |].
        -- right. exists entry. split; [now left|auto].
        -- right. exists e. split; [now right|auto].
      * intros [H|(e & [<-|He] & Hv & Hi)]; [now left; left| |].
        -- left. right. now symmetry.
        -- right. exists e. auto.
    + split.
      * intros [H|(e & He & Hv & Hi)]; [now left|].
        right. exists e. split; [now right|auto].
      * intros [H|(e & [<-|He] & Hv & Hi)]; [now left| |].
        -- subst x. congruence.
        -- right. exists e. auto.
Qed.

Lemma suggestFrom_NoDup field lowerTerm entries suggestions :
  NoDup suggestions -> NoDup (suggestFrom field lowerTerm entries suggestions).
Proof.
  unfold suggestFrom. revert suggestions.
  induction entries as [|entry entries IH]; intros suggestions H; cbn [fold_left];
    [exact H|].
  apply IH. cbv zeta.
  destruct (JS.includes _ lowerTerm); [now apply suggestionsAdd_NoDup|exact H].
Qed.

Lemma quickSearchLoop_NoDup field lowerTerm limit index suggestions :
  NoDup suggestions ->
  NoDup (quickSearchLoop field lowerTerm limit index suggestions).
Proof.
  revert suggestions; induction index as [|[key entries] index IH];
    intros suggestions H; cbn [quickSearchLoop]; [exact H|].
  cbv zeta.
  set (s' := if _ && _ then _ else _).
  assert (H' : NoDup s').
  { unfold s'. destruct (_ && _); [now apply suggestFrom_NoDup|exact H]. }
  destruct (limit <=? Z.of_nat (List.length s'))%Z; [exact H'|now apply IH].
Qed.

Lemma suggestible_cons field lowerTerm pair index value :
  suggestible field lowerTerm index value ->
  suggestible field lowerTerm (pair :: index) value.
Proof.
  intros (Hs & key & entries & entry & Hin & Hrest).
  split; [exact Hs|]. exists key, entries, entry. split; [now right|exact Hrest].
Qed.

Lemma quickSearchLoop_sound field lowerTerm limit index suggestions x :
  In x (quickSearchLoop field lowerTerm limit index suggestions) ->
  In x suggestions \/ suggestible field lowerTerm index x.
Proof.
  revert suggestions; induction index as [|[key entries] index IH];
    intros suggestions; cbn [quickSearchLoop]; [auto|].
  cbv zeta.
  set (s' := if _ && _ then _ else _).
  assert (H' : In x s' ->
               In x suggestions
               \/ suggestible field lowerTerm ((key, entries) :: index) x).
  { unfold s'.
    destruct (JS.startsWith key (fieldName field ++ ":")%string) eqn:Es; [|auto].
    destruct (JS.includes key lowerTerm); [|auto]. cbn [andb].
    rewrite suggestFrom_In. intros [H|(e & He & Hv & Hi)]; [now left|].
    right. split; [now apply includes_spec|].
    exists key, entries, e. split; [now left|auto]. }
  destruct (limit <=? Z.of_nat (List.length s'))%Z; [exact H'|].
  intros H. apply IH in H. destruct H as [H|H]; [now apply H'|].
  right. now apply suggestible_cons.
Qed.

Lemma NoDup_firstn_keep {A} n (l : list A) : NoDup l -> NoDup (firstn n l).
Proof.
  intros H. revert n; induction H as [|x l Hx Hl IH]; intros [|n]; simpl;
    try constructor.
  - intros Hin. apply Hx. now apply In_firstn_keep in Hin.
  - apply IH.
Qed.

(** X13.  [quickSearch] suggests nothing twice, at most [limit] values
    for a [limit] that is not negative, and only values that contain the
    term, case aside, and that an entry held in a bucket of the field
    has in that field. *)
Theorem quickSearch_sound
    (term : string) (field : Field) (limit : Z) (engine : SearchEngine.t) :
  let suggestions := quickSearch term field limit engine in
  NoDup suggestions /\
  ((0 <= limit)%Z -> (Z.of_nat (List.length suggestions) <= limit)%Z) /\
  Forall (suggestible field (JS.toLowerCase term) (SearchEngine.searchIndex engine))
    suggestions.
Proof.
  cbv zeta. unfold quickSearch. cbv zeta. split; [|split].
  - unfold JS.slice0. destruct (limit <? 0)%Z; apply NoDup_firstn_keep;
      apply quickSearchLoop_NoDup; constructor.
  - intros H. unfold JS.slice0.
    replace (limit <? 0)%Z with false by (symmetry; apply Z.ltb_ge; lia).
    rewrite length_firstn. lia.
  - apply Forall_forall. intros x Hx. apply In_slice0 in Hx.
    apply quickSearchLoop_sound in Hx. destruct Hx as [[]|Hx]. exact Hx.
Qed.

Lemma mapGet_mapSet_str {V} (m : list (string * V)) k v k' :
  mapGet String.eqb (mapSet String.eqb m k v) k'
  = if String.eqb k k' then Some v else mapGet String.eqb m k'.
Proof.
  induction m as [|[k0 v0] m IH]; cbn [mapGet mapSet].
  - reflexivity.
  - destruct (String.eqb_spec k0 k) as [->|Hne]; cbn [mapGet].
    + now destruct (String.eqb k k').
    + rewrite IH. destruct (String.eqb_spec k0 k') as [->|Hne']; [|reflexivity].
      destruct (String.eqb_spec k k'); [congruence|reflexivity].
Qed.

Lemma mapGet_Some_In {V} (m : list (string * V)) k v :
  mapGet String.eqb m k = Some v -> In (k, v) m.
Proof.
  induction m as [|[k0 v0] m IH]; cbn [mapGet]; [discriminate|].
  destruct (String.eqb_spec k0 k) as [->|Hne].
  - intros E. injection E as ->. now left.
  - intros E. right. now apply IH.
Qed.

Lemma addToIndex_get field value entry index key :
  mapGet String.eqb (addToIndex field value entry index) key
  = if String.eqb (field ++ ":" ++ value)%string key
    then Some (match mapGet String.eqb index key with
               | Some bucket => bucket
               | None => []
               end ++ [entry])
    else mapGet String.eqb index key.
Proof.
  unfold addToIndex, mapHas. cbv zeta.
  destruct (mapGet String.eqb index (field ++ ":" ++ value)%string) as [bucket|] eqn:E;
    cbn [JS.isSome negb].
  - rewrite E, mapGet_mapSet_str.
    destruct (String.eqb_spec (field ++ ":" ++ value)%string key) as [<-|Hne];
      [now rewrite E|reflexivity].
  - rewrite mapGet_mapSet_same, !mapGet_mapSet_str.
    destruct (String.eqb_spec (field ++ ":" ++ value)%string key) as [<-|Hne];
      [now rewrite E|reflexivity].
Qed.

Lemma addToIndex_adds field value entry index :
  indexed (addToIndex field value entry index) (field ++ ":" ++ value)%string entry.
Proof.
  unfold indexed. rewrite addToIndex_get, String.eqb_refl.
  eexists. split; [reflexivity|]. apply in_or_app. right. now left.
Qed.

Lemma addToIndex_keeps field value entry' index key entry :
  indexed index key entry ->
  indexed (addToIndex field value entry' index) key entry.
Proof.
  intros (bucket & E & Hin). unfold indexed. rewrite addToIndex_get, E.
  destruct (String.eqb _ key); eexists; split; try reflexivity; auto.
  apply in_or_app. now left.
Qed.

Lemma indexEntry_keeps index entry' key entry :
  indexed index key entry -> indexed (indexEntry index entry') key entry.
Proof.
  intros H. unfold indexEntry. cbv zeta.
  apply addToIndex_keeps.
  destruct (ChartEntry.album entry') as [album|];
    [destruct (JS.truthyString (Some album)); [apply addToIndex_keeps|]|];
    now do 2 apply addToIndex_keeps.
Qed.

Lemma indexEntry_adds index entry field :
  (field = FAlbum -> supplied (ChartEntry.album entry)) ->
  indexed (indexEntry index entry)
    (fieldName field ++ ":" ++ JS.toLowerCase (fieldValue field entry))%string entry.
Proof.
  intros Halbum. unfold indexEntry. cbv zeta. apply addToIndex_keeps.
  destruct field; cbn [fieldName fieldValue].
  - destruct (ChartEntry.album entry) as [album|];
      [destruct (JS.truthyString (Some album)); [apply addToIndex_keeps|]|];
      apply addToIndex_keeps, addToIndex_adds.
  - destruct (ChartEntry.album entry) as [album|];
      [destruct (JS.truthyString (Some album)); [apply addToIndex_keeps|]|];
      apply addToIndex_adds.
  - destruct (Halbum eq_refl) as (album & -> & Hne).
    destruct album as [|a album]; [contradiction|]. cbn [JS.truthyString].
    apply addToIndex_adds.
Qed.

Lemma indexEntries_keeps entries index key entry :
  indexed index key entry -> indexed (fold_left indexEntry entries index) key entry.
Proof.
  revert index; induction entries as [|e entries IH]; intros index H; [exact H|].
  cbn [fold_left]. apply IH. now apply indexEntry_keeps.
Qed.

Lemma indexChartData_keeps_indexed charts engine key entry :
  indexed (SearchEngine.searchIndex engine) key entry ->
  indexed (SearchEngine.searchIndex (indexChartData charts engine)) key entry.
Proof.
  unfold indexChartData. revert engine.
  induction charts as [|chart charts IH]; intros engine H; [exact H|].
  cbn [fold_left]. apply IH. unfold indexChart. cbn [SearchEngine.searchIndex].
  now apply indexEntries_keeps.
Qed.

(** Every entry of a chart that was indexed lies in the bucket of its
    title, in that of its artist, and in that of its album when it has
    one. *)
Lemma indexChartData_indexed charts engine chart entry field :
  In chart charts -> In entry (ChartData.entries chart) ->
  (field = FAlbum -> supplied (ChartEntry.album entry)) ->
  indexed (SearchEngine.searchIndex (indexChartData charts engine))
    (fieldName field ++ ":" ++ JS.toLowerCase (fieldValue field entry))%string entry.
Proof.
  intros Hc He Halbum. unfold indexChartData. revert engine.
  induction charts as [|c0 charts IH]; intros engine; [contradiction|].
  cbn [fold_left]. destruct Hc as [->|Hc]; [|now apply IH].
  apply (indexChartData_keeps_indexed charts). unfold indexChart.
  cbn [SearchEngine.searchIndex].
  generalize (SearchEngine.searchIndex engine) as index.
  induction (ChartData.entries chart) as [|e entries IHe]; intros index;
    [contradiction|].
  cbn [fold_left]. destruct He as [->|He]; [|now apply IHe].
  apply indexEntries_keeps. now apply indexEntry_adds.
Qed.

Lemma string_append_assoc (a b c : string) :
  ((a ++ b) ++ c)%string = (a ++ b ++ c)%string.
Proof. induction a as [|x a IH]; cbn [append]; [reflexivity|now rewrite IH]. Qed.

Lemma quickSearchLoop_grows field lowerTerm limit index suggestions x :
  In x suggestions -> In x (quickSearchLoop field lowerTerm limit index suggestions).
Proof.
  revert suggestions; induction index as [|[key entries] index IH];
    intros suggestions H; cbn [quickSearchLoop]; [exact H|].
  cbv zeta.
  set (s' := if _ && _ then _ else _).
  assert (H' : In x s').
  { unfold s'. destruct (_ && _); [|exact H]. apply suggestFrom_In. now left. }
  destruct (limit <=? Z.of_nat (List.length s'))%Z; [exact H'|now apply IH].
Qed.

(** A loop that ends below the limit has not stopped early. *)
Lemma quickSearchLoop_complete field lowerTerm limit index suggestions
    key entries entry :
  (Z.of_nat (List.length (quickSearchLoop field lowerTerm limit index suggestions))
   < limit)%Z ->
  In (key, entries) index -> In entry entries ->
  JS.startsWith key (fieldName field ++ ":")%string = true ->
  JS.includes key lowerTerm = true ->
  JS.includes (JS.toLowerCase (fieldValue field entry)) lowerTerm = true ->
  In (fieldValue field entry)
     (quickSearchLoop field lowerTerm limit index suggestions).
Proof.
  intros Hlen Hin He Hs Hk Hv. revert suggestions Hlen.
  induction index as [|[key0 entries0] index IH]; intros suggestions Hlen;
    [contradiction|].
  cbn [quickSearchLoop] in Hlen |- *. cbv zeta in Hlen |- *.
  set (s' := if _ && _ then _ else _) in *.
  destruct (limit <=? Z.of_nat (List.length s'))%Z eqn:Hbreak.
  - apply Z.leb_le in Hbreak. lia.
  - destruct Hin as [E|Hin]; [|now apply IH].
    injection E as -> ->. apply quickSearchLoop_grows.
    unfold s'. rewrite Hs, Hk. cbn [andb]. apply suggestFrom_In.
    right. exists entry. auto.
Qed.

(** X14.  [quickSearch] misses nothing below its limit.  When it returns
    fewer than [limit] suggestions for an engine that has indexed
    [charts], it has returned the title (the artist; the album, for an
    entry that has one) of every entry of these charts whose title
    (artist, album) contains the term, case aside. *)
Theorem quickSearch_complete
    (charts : list ChartData.t) (engine : SearchEngine.t)
    (term : string) (field : Field) (limit : Z)
    (chart : ChartData.t) (entry : ChartEntry.t) :
  In chart charts -> In entry (ChartData.entries chart) ->
  (field = FAlbum -> supplied (ChartEntry.album entry)) ->
  isSubstring (JS.toLowerCase term) (JS.toLowerCase (fieldValue field entry)) ->
  (Z.of_nat (List.length (quickSearch term field limit (indexChartData charts engine)))
   < limit)%Z ->
  In (fieldValue field entry)
     (quickSearch term field limit (indexChartData charts engine)).
Proof.
  intros Hc He Halbum Hsub Hlen.
  destruct (indexChartData_indexed charts engine chart entry field Hc He Halbum)
    as (bucket & Hget & Hin).
  apply mapGet_Some_In in Hget.
  unfold quickSearch in *. cbv zeta in *. unfold JS.slice0 in *.
  assert (Hpos : (limit <? 0)%Z = false).
  { apply Z.ltb_ge. lia. }
  rewrite Hpos in *. rewrite length_firstn in Hlen.
  set (loop := quickSearchLoop field (JS.toLowerCase term) limit
                 (SearchEngine.searchIndex (indexChartData charts engine)) []) in *.
  assert (Hloop : List.length loop < Z.to_nat limit) by lia.
  rewrite firstn_all2 by lia.
  apply (quickSearchLoop_complete field (JS.toLowerCase term) limit _ []
           (fieldName field ++ ":" ++ JS.toLowerCase (fieldValue field entry))%string
           bucket entry); auto.
  - fold loop. lia.
  - apply prefix_spec. eexists. symmetry. apply string_append_assoc.
  - apply includes_spec. destruct Hsub as (pre & post & E).
    exists (fieldName field ++ ":" ++ pre)%string, post. rewrite E.
    now rewrite !string_append_assoc.
  - now apply includes_spec.
Qed.

(** An instance: the titles of the tests that contain [o]. *)
Lemma quickSearch_complete_witness :
  In "God's Plan"%string
     (quickSearch "o" FTitle 10 (indexChartData [mockChart] newSearchEngine)).
Proof.
  apply (quickSearch_complete [mockChart] newSearchEngine "o" FTitle 10
           mockChart godsPlan).
  - left. reflexivity.
  - right. right. left. reflexivity.
  - discriminate.
  - apply includes_spec. reflexivity.
  - vm_compute. reflexivity.
Defined.

(** ** The distance and the similarity, further *)

Lemma lev_refl s : lev s s = 0.
Proof.
  induction s as [|a s IH]; [reflexivity|].
  now rewrite lev_cons, Ascii.eqb_refl.
Qed.

Lemma lev_zero s t : lev s t = 0 -> s = t.
Proof.
  revert t; induction s as [|a s IHs]; intros t.
  - simpl. now destruct t.
  - destruct t as [|b t]; [discriminate|].
    rewrite lev_cons. destruct (Ascii.eqb_spec a b) as [->|Hne]; [|discriminate].
    intros H. now rewrite (IHs t H).
Qed.

Lemma lev_length_diff s t :
  List.length s - List.length t <= lev s t /\
  List.length t - List.length s <= lev s t.
Proof.
  revert t; induction s as [|a s IHs]; intros t.
  - simpl. lia.
  - induction t as [|b t IHt]; [simpl; lia|].
    rewrite lev_cons. pose proof (IHs t). pose proof (IHs (b :: t)).
    destruct (Ascii.eqb a b); unfold min3; simpl List.length in *; lia.
Qed.

Lemma list_ascii_of_string_inj a b :
  list_ascii_of_string a = list_ascii_of_string b -> a = b.
Proof.
  intros H. rewrite <- (string_of_list_ascii_of_string a),
    <- (string_of_list_ascii_of_string b). now rewrite H.
Qed.

Lemma editDistance_zero a b : editDistance a b = 0 <-> a = b.
Proof.
  rewrite editDistance_lev. split.
  - intros H. now apply list_ascii_of_string_inj, lev_zero.
  - intros ->. apply lev_refl.
Qed.

Lemma editDistance_length_diff a b :
  Nat.max (String.length a) (String.length b)
  - Nat.min (String.length a) (String.length b) <= editDistance a b.
Proof.
  rewrite editDistance_lev, <- !string_length_list.
  pose proof (lev_length_diff (list_ascii_of_string a) (list_ascii_of_string b)).
  lia.
Qed.

Lemma ratio_one (x y : Z) :
  (0 < y)%Z -> (inject_Z x / inject_Z y == 1)%Q <-> x = y.
Proof.
  intros Hy.
  assert (Hy' : ~ (inject_Z y == 0)%Q).
  { intros E. apply (inject_Z_injective y 0) in E. lia. }
  split.
  - intros H. apply inject_Z_injective.
    rewrite <- (Qmult_div_r (inject_Z x) (inject_Z y) Hy'), H. ring.
  - intros ->. now apply Qmult_inv_r.
Qed.

Lemma calculateSimilarity_one_ratio (a b : string) :
  ((calculateSimilarity a b == 1)%Q <-> a = b) /\
  (calculateSimilarity a b
   * inject_Z (Z.of_nat (Nat.max (String.length a) (String.length b)))
   <= inject_Z (Z.of_nat (Nat.min (String.length a) (String.length b))))%Q.
Proof.
  unfold calculateSimilarity.
  destruct (Nat.max (String.length a) (String.length b) =? 0) eqn:E.
  - apply Nat.eqb_eq in E. split.
    + split; [|reflexivity]. intros _. destruct a, b; simpl in E; try lia. reflexivity.
    + rewrite E. replace (Nat.min (String.length a) (String.length b)) with 0 by lia.
      rewrite Qmult_0_r. apply Qle_refl.
  - apply Nat.eqb_neq in E.
    set (m := Nat.max (String.length a) (String.length b)) in *.
    pose proof (editDistance_bound a b) as Hb. fold m in Hb.
    pose proof (editDistance_length_diff a b) as Hd. fold m in Hd.
    assert (Hm : ~ (inject_Z (Z.of_nat m) == 0)%Q).
    { intros H. apply (inject_Z_injective (Z.of_nat m) 0) in H. lia. }
    split.
    + rewrite ratio_one by lia. rewrite <- editDistance_zero. lia.
    + rewrite Qmult_comm, Qmult_div_r by exact Hm.
      apply inject_Z_le. lia.
Qed.

(** X15.  The similarity is 1 for equal strings only; and it is at most
    the ratio of the shorter length to the longer, the distance being
    at least the difference of the lengths, which is 0 for equal strings
    only. *)
Theorem calculateSimilarity_identity (a b : string) :
  ((calculateSimilarity a b == 1)%Q <-> a = b) /\
  (calculateSimilarity a b
   * inject_Z (Z.of_nat (Nat.max (String.length a) (String.length b)))
   <= inject_Z (Z.of_nat (Nat.min (String.length a) (String.length b))))%Q /\
  (editDistance a b = 0 <-> a = b) /\
  Nat.max (String.length a) (String.length b)
  - Nat.min (String.length a) (String.length b) <= editDistance a b.
Proof.
  destruct (calculateSimilarity_one_ratio a b) as [H1 H2].
  split; [exact H1|]. split; [exact H2|].
  split; [apply editDistance_zero|apply editDistance_length_diff].
Qed.

(** ** [matchText]: the confidence *)

Lemma string_length_append (a b : string) :
  String.length (a ++ b) = String.length a + String.length b.
Proof. induction a as [|x a IH]; cbn [append String.length]; [reflexivity|now rewrite IH]. Qed.

Lemma string_append_nil_r (a : string) : (a ++ "")%string = a.
Proof. induction a as [|x a IH]; cbn [append]; [reflexivity|now rewrite IH]. Qed.

Lemma isSubstring_length q s :
  isSubstring q s ->
  String.length q <= String.length s /\
  (String.length q = String.length s -> s = q).
Proof.
  intros (pre & post & ->). rewrite !string_length_append. split; [lia|].
  intros H. destruct pre; [|cbn [String.length] in H; lia].
  destruct post; [|rewrite ?string_length_append in H; cbn [String.length] in H; lia].
  cbn [append]. apply string_append_nil_r.
Qed.

(** X16.  The confidence of a match lies between 0 and 1, and is 1 for
    exact matches only; a fuzzy match, which needs [fuzzy], has a
    confidence above 0.6, and is found only between strings whose
    lengths, once lower-cased, are in a ratio above 0.6. *)
Theorem matchText_confidence (text query : string) (fuzzy : bool) (m : TextMatch) :
  matchText text query fuzzy = Some m ->
  let lowerText := JS.toLowerCase text in
  let lowerQuery := JS.toLowerCase query in
  (0 <= tm_confidence m <= 1)%Q /\
  (tm_matchType m = Exact <-> (tm_confidence m == 1)%Q) /\
  (tm_matchType m = Exact <-> lowerText = lowerQuery) /\
  (tm_matchType m = Fuzzy ->
   fuzzy = true /\ (6 # 10 < tm_confidence m)%Q /\
   6 * Nat.max (String.length lowerText) (String.length lowerQuery)
   < 10 * Nat.min (String.length lowerText) (String.length lowerQuery)).
Proof.
  cbv zeta. unfold matchText.
  destruct (String.eqb_spec (JS.toLowerCase text) (JS.toLowerCase query)) as [E|E].
  { intros H. injection H as <-. cbn [tm_confidence tm_matchType].
    split; [split; discriminate|]. split; [split; reflexivity|].
    split; [split; auto|discriminate]. }
  destruct (JS.includes (JS.toLowerCase text) (JS.toLowerCase query)) eqn:I.
  { intros H. injection H as <-. cbn [tm_confidence tm_matchType].
    apply includes_spec, isSubstring_length in I. destruct I as [Hle Heq].
    assert (Hlt : String.length (JS.toLowerCase query)
                  < String.length (JS.toLowerCase text)).
    { destruct (Nat.eq_dec (String.length (JS.toLowerCase query))
                  (String.length (JS.toLowerCase text))) as [H|H]; [|lia].
      now apply Heq in H. }
    split; [apply ratio_range; lia|].
    split; [|split; [split; [discriminate|contradiction]|discriminate]].
    split; [discriminate|]. rewrite ratio_one by lia. lia. }
  destruct fuzzy; [|discriminate].
  destruct (JS.Qltb (6 # 10) (calculateSimilarity (JS.toLowerCase text)
                                (JS.toLowerCase query))) eqn:F; [|discriminate].
  intros H. injection H as <-. cbn [tm_confidence tm_matchType].
  apply Qltb_lt in F.
  destruct (calculateSimilarity_one_ratio (JS.toLowerCase text) (JS.toLowerCase query))
    as [Hid Hratio].
  set (sim := calculateSimilarity (JS.toLowerCase text) (JS.toLowerCase query)) in *.
  set (mx := Nat.max (String.length (JS.toLowerCase text))
               (String.length (JS.toLowerCase query))) in *.
  set (mn := Nat.min (String.length (JS.toLowerCase text))
               (String.length (JS.toLowerCase query))) in *.
  assert (Hrange : (0 <= sim <= 1)%Q).
  { unfold sim, calculateSimilarity. fold mx.
    destruct (mx =? 0) eqn:Z0; [split; discriminate|].
    apply Nat.eqb_neq in Z0.
    pose proof (editDistance_bound (JS.toLowerCase text) (JS.toLowerCase query)) as Hb.
    fold mx in Hb. apply ratio_range; lia. }
  split; [exact Hrange|].
  split; [split; [discriminate|intros H; apply Hid in H; contradiction]|].
  split; [split; [discriminate|contradiction]|].
  intros _. split; [reflexivity|]. split; [exact F|].
  destruct (Nat.eq_dec mx 0) as [Z0|Z0].
  - exfalso. unfold mx in Z0. apply E.
    destruct (JS.toLowerCase text), (JS.toLowerCase query);
      cbn [String.length] in Z0; try lia. reflexivity.
  - assert (H6' : ((6 # 10) * inject_Z (Z.of_nat mx) < inject_Z (Z.of_nat mn))%Q).
    { eapply Qlt_le_trans; [|exact Hratio].
      apply Qmult_lt_compat_r; [apply (inject_Z_lt 0); lia|exact F]. }
    unfold Qlt, Qmult, inject_Z in H6'. cbn [Qnum Qden] in H6'.
    change (Z.pos (10 * 1)) with 10%Z in H6'. lia.
Qed.

(** An instance: the misspelt artist of the tests. *)
Lemma matchText_confidence_witness :
  exists m,
    matchText "Taylor Swift" "Tayler Swift" true = Some m /\
    tm_matchType m = Fuzzy /\ (6 # 10 < tm_confidence m)%Q.
Proof.
  assert (E : matchText "Taylor Swift" "Tayler Swift" true
              = Some (mkTextMatch Fuzzy
                        (calculateSimilarity "taylor swift" "tayler swift")))
    by (vm_compute; reflexivity).
  eexists. split; [exact E|]. split; [reflexivity|].
  exact (proj1 (proj2 (proj2 (proj2 (proj2
           (matchText_confidence "Taylor Swift" "Tayler Swift" true _ E))) eq_refl))).
Defined.

(** ** [createEntryHash] and [findSimilar] *)

Lemma toLowerCase_append (a b : string) :
  JS.toLowerCase (a ++ b) = (JS.toLowerCase a ++ JS.toLowerCase b)%string.
Proof.
  induction a as [|x a IH]; cbn [append JS.toLowerCase]; [reflexivity|now rewrite IH].
Qed.

Lemma keepLowerAlnum_append (a b : string) :
  keepLowerAlnum (a ++ b) = (keepLowerAlnum a ++ keepLowerAlnum b)%string.
Proof.
  induction a as [|x a IH]; cbn [append keepLowerAlnum]; [reflexivity|].
  destruct (isLowerAlnum x); cbn [append]; now rewrite IH.
Qed.

Lemma keepLowerAlnum_chars (s : string) :
  Forall (fun c => isLowerAlnum c = true) (list_ascii_of_string (keepLowerAlnum s)).
Proof.
  induction s as [|x s IH]; cbn [keepLowerAlnum]; [constructor|].
  destruct (isLowerAlnum x) eqn:E; [|exact IH].
  cbn [list_ascii_of_string]. now constructor.
Qed.

Lemma createEntryHash_split entry :
  createEntryHash entry
  = (normalized (ChartEntry.title entry) ++ normalized (ChartEntry.artist entry))%string.
Proof.
  unfold createEntryHash, normalized.
  now rewrite toLowerCase_append, keepLowerAlnum_append.
Qed.

(** X17.  The hash of an entry is made of the letters a to z and of
    digits only, and is the lower-cased title followed by the
    lower-cased artist, both without their other characters: the dash
    put between them is dropped with the rest, so that two entries have
    the same hash exactly when these concatenations agree, as they do
    when titles and artists are equal, case aside. *)
Theorem createEntryHash_collisions (entry other : ChartEntry.t) :
  Forall (fun c => isLowerAlnum c = true)
    (list_ascii_of_string (createEntryHash entry)) /\
  (createEntryHash entry = createEntryHash other <->
   (normalized (ChartEntry.title entry) ++ normalized (ChartEntry.artist entry))%string
   = (normalized (ChartEntry.title other) ++ normalized (ChartEntry.artist other))%string) /\
  (JS.toLowerCase (ChartEntry.title entry) = JS.toLowerCase (ChartEntry.title other) ->
   JS.toLowerCase (ChartEntry.artist entry) = JS.toLowerCase (ChartEntry.artist other) ->
   createEntryHash entry = createEntryHash other).
Proof.
  split; [apply keepLowerAlnum_chars|]. rewrite !createEntryHash_split.
  split; [reflexivity|]. unfold normalized. now intros -> ->.
Qed.

Lemma filter_sorted {A} (R : A -> A -> Prop) (f : A -> bool) (l : list A) :
  StronglySorted R l -> StronglySorted R (filter f l).
Proof.
  induction 1 as [|x l Hs IH Hall]; simpl; [constructor|].
  destruct (f x); [|exact IH]. constructor; [exact IH|].
  apply Forall_forall. intros y Hy. apply filter_In in Hy.
  rewrite Forall_forall in Hall. now apply Hall.
Qed.

Lemma search_results_sorted clock query engine :
  StronglySorted scoreDescending (SearchOutput.results (search clock query engine)).
Proof.
  rewrite search_results. cbv zeta.
  destruct (SearchQuery.limit query) as [L|];
    [destruct (JS.truthyNumber (Some L)); [apply slice0_sorted|]|];
    apply sortByScore_sorted.
Qed.

(** X18.  [findSimilar] returns results of the fuzzy search for the
    artist of the entry, limited to [limit + 1], in non-increasing order
    of score, at most [limit] of them for a [limit] that is not
    negative; none has the hash of the entry, so none has its title and
    its artist, case aside. *)
Theorem findSimilar_sound
    (clock : SearchClock.t) (entry : ChartEntry.t) (limit : Z)
    (engine : SearchEngine.t) :
  let similar := findSimilar clock entry limit engine in
  Forall
    (fun r =>
       In r (SearchOutput.results (search clock (similarQuery entry limit) engine)) /\
       createEntryHash (SearchResult.entry r) <> createEntryHash entry /\
       ~ (JS.toLowerCase (ChartEntry.title (SearchResult.entry r))
          = JS.toLowerCase (ChartEntry.title entry) /\
          JS.toLowerCase (ChartEntry.artist (SearchResult.entry r))
          = JS.toLowerCase (ChartEntry.artist entry)))
    similar /\
  StronglySorted scoreDescending similar /\
  ((0 <= limit)%Z -> (Z.of_nat (List.length similar) <= limit)%Z).
Proof.
  cbv zeta. unfold findSimilar. cbv zeta.
  change (SearchQuery.mk None (Some (ChartEntry.artist entry)) None None None None
            None None None false true (Some (limit + 1)%Z))
    with (similarQuery entry limit).
  split; [|split].
  - apply Forall_forall. intros r Hr. apply In_slice0, filter_In in Hr.
    destruct Hr as [Hin Hne]. apply negb_true_iff, String.eqb_neq in Hne.
    split; [exact Hin|]. split; [exact Hne|].
    intros [Ht Ha]. apply Hne. rewrite !createEntryHash_split. unfold normalized.
    now rewrite Ht, Ha.
  - apply slice0_sorted, filter_sorted, search_results_sorted.
  - intros H. unfold JS.slice0.
    replace (limit <? 0)%Z with false by (symmetry; apply Z.ltb_ge; lia).
    rewrite length_firstn. lia.
Qed.

(** ** The cache of the library *)

Lemma generateCacheKey_day chartType source date date' :
  (date / 86400000 = date' / 86400000)%Z ->
  ChartDataManager.generateCacheKey chartType source date
  = ChartDataManager.generateCacheKey chartType source date'.
Proof.
  intros H. unfold ChartDataManager.generateCacheKey, toISODate. now rewrite H.
Qed.

Lemma generateCacheKey_nonempty chartType source date :
  ChartDataManager.generateCacheKey chartType source date <> EmptyString.
Proof. unfold ChartDataManager.generateCacheKey. now destruct source. Qed.

(** X19.  A chart cached with [cacheChart] is returned by
    [getCachedChart] for its type, its source and any instant of the
    same UTC day, the clock readings taken in between staying within
    the [ttl] of the timestamp of the entry. *)
Theorem cacheChart_then_getCachedChart
    (c : ChartCache.t) (fuel : nat) (chart : ChartData.t) (date : Z) :
  validDate (ChartData.date chart) -> validDate date ->
  (date / 86400000 = ChartData.date chart / 86400000)%Z ->
  (forall i, ChartCache.reads c < i <= ChartCache.reads c + 2 ->
             (ChartCache.clock c i - ChartCache.clock c (ChartCache.reads c)
              <= CacheOptions.ttl (ChartCache.options c))%Z) ->
  exists c',
    (ChartDataManager.cacheChart chart ;;
     ChartDataManager.getCachedChart fuel (ChartData.chartType chart)
       (ChartData.source chart) (Some date))%eff c
    = Some (Some chart, c').
Proof.
  intros _ _ Hday Httl.
  unfold ChartDataManager.cacheChart, ChartDataManager.getCachedChart.
  unfold bind at 1. rewrite set_exact. cbv zeta.
  unfold bind at 1. unfold ret at 1. cbv beta.
  rewrite (generateCacheKey_day _ _ _ _ Hday).
  set (key := ChartDataManager.generateCacheKey _ _ _).
  match goal with
  | |- context [ChartCache.get fuel key ?c1] =>
      rewrite (get_hit c1 fuel key _ (mapGet_mapSet_same _ _ _))
  end.
  cbv zeta. unfold itemAt.
  cbn [ChartCache.clock ChartCache.reads CacheItem.ttl CacheItem.timestamp
       CacheItem.data].
  match goal with
  | |- context [(?a <? ?b)%Z] => replace (a <? b)%Z with false
  end.
  - eexists. reflexivity.
  - symmetry. apply Z.ltb_ge.
    destruct (CacheOptions.maxSize (ChartCache.options c)
              <=? Z.of_nat (List.length (ChartCache.memoryCache c)))%Z;
      apply Httl; lia.
Qed.

(** An instance: the chart of the tests, dated midnight, asked for at
    one o'clock of the same day. *)
Lemma cacheChart_then_getCachedChart_witness :
  exists c',
    (ChartDataManager.cacheChart mockChart ;;
     ChartDataManager.getCachedChart 0 "hot-100" BILLBOARD
       (Some (1704067200000 + 3600000)%Z))%eff
      (ChartCache.mk [] ChartCache.defaultOptions None (fun _ => 1704067200000%Z) 0)
    = Some (Some mockChart, c').
Proof.
  apply (cacheChart_then_getCachedChart
           (ChartCache.mk [] ChartCache.defaultOptions None
              (fun _ => 1704067200000%Z) 0) 0 mockChart
           (1704067200000 + 3600000)%Z).
  - unfold validDate. simpl. lia.
  - unfold validDate. lia.
  - reflexivity.
  - intros i _. simpl. lia.
Defined.

(** X20.  [clearCache] with a chart type and a source removes from the
    memory the chart of every date cached for them, and with it the
    charts of the source whose type starts with this type and a dash;
    the keys that do not contain the source, the type and their dashes
    stay. *)
Theorem clearCache_by_type
    (c : ChartCache.t) (chartType : string) (source : ChartSource) :
  chartType <> EmptyString ->
  exists c',
    ChartDataManager.clearCache (Some chartType) (Some source) c = Some (tt, c') /\
    (forall date,
       mapGet String.eqb (ChartCache.memoryCache c')
         (ChartDataManager.generateCacheKey chartType source date) = None) /\
    (forall suffix date,
       mapGet String.eqb (ChartCache.memoryCache c')
         (ChartDataManager.generateCacheKey (chartType ++ "-" ++ suffix) source date)
       = None) /\
    (forall key,
       ~ isSubstring (sourceName source ++ "-" ++ chartType ++ "-") key ->
       mapGet String.eqb (ChartCache.memoryCache c') key
       = mapGet String.eqb (ChartCache.memoryCache c) key).
Proof.
  intros Hne. unfold ChartDataManager.clearCache.
  destruct chartType as [|a chartType]; [contradiction|]. cbn [JS.truthyString].
  set (ct := String a chartType).
  set (pattern := (sourceName source ++ "-" ++ ct ++ "-")%string).
  rewrite clearByPattern_exact. eexists. split; [reflexivity|].
  rewrite clearByPattern_memory.
  assert (Hgone : forall key, isSubstring pattern key ->
                    mapGet String.eqb
                      (filter (fun '(key, _) => negb (JS.includes key pattern))
                         (ChartCache.memoryCache c)) key = None).
  { intros key Hsub.
    rewrite (mapGet_filter_key (fun k => negb (JS.includes k pattern))).
    apply includes_spec in Hsub. now rewrite Hsub. }
  split; [|split].
  - intros date. apply Hgone. exists EmptyString, (toISODate date).
    unfold ChartDataManager.generateCacheKey, pattern.
    repeat (first [rewrite string_append_assoc | progress cbn [append]]).
    reflexivity.
  - intros suffix date. apply Hgone.
    exists EmptyString, (suffix ++ "-" ++ toISODate date)%string.
    unfold ChartDataManager.generateCacheKey, pattern.
    repeat (first [rewrite string_append_assoc | progress cbn [append]]).
    reflexivity.
  - intros key Hsub.
    rewrite (mapGet_filter_key (fun k => negb (JS.includes k pattern))).
    destruct (JS.includes key pattern) eqn:E; [|reflexivity].
    apply includes_spec in E. contradiction.
Qed.

(** An instance: clearing the type [hot] of Billboard removes the chart
    of the type [hot-100]. *)
Lemma clearCache_by_type_witness :
  exists c',
    ChartDataManager.clearCache (Some "hot"%string) (Some BILLBOARD)
      (ChartCache.mk
         [("billboard-hot-100-2024-01-01"%string, CacheItem.mk mockChart 0 3600000)]
         ChartCache.defaultOptions None (fun _ => 0%Z) 0)
    = Some (tt, c') /\
    mapGet String.eqb (ChartCache.memoryCache c')
      (ChartDataManager.generateCacheKey "hot-100" BILLBOARD 1704067200000) = None.
Proof.
  destruct (clearCache_by_type
              (ChartCache.mk
                 [("billboard-hot-100-2024-01-01"%string,
                   CacheItem.mk mockChart 0 3600000)]
                 ChartCache.defaultOptions None (fun _ => 0%Z) 0)
              "hot"%string BILLBOARD)
    as (c' & E & _ & Hsuffix & _).
  - discriminate.
  - exists c'. split; [exact E|]. exact (Hsuffix "100"%string 1704067200000%Z).
Defined.

(** ** The cache: a clock that stands still *)

Lemma set_still c key data t :
  (forall i, ChartCache.clock c i = t) ->
  Forall (fun e => (t <= CacheItem.timestamp (snd e))%Z) (ChartCache.memoryCache c) ->
  exists c',
    ChartCache.set key data c = Some (tt, c') /\
    ChartCache.memoryCache c'
    = mapSet String.eqb (ChartCache.memoryCache c) key
        (CacheItem.mk data t (CacheOptions.ttl (ChartCache.options c))) /\
    ChartCache.clock c' = ChartCache.clock c.
Proof.
  intros Hclk Hall. rewrite set_exact. cbv zeta. eexists. split; [reflexivity|].
  cbn [ChartCache.memoryCache ChartCache.clock]. split; [|reflexivity].
  unfold itemAt, afterEvict. rewrite !Hclk.
  rewrite (oldestScan_keep _ None t Hall). now destruct (_ <=? _)%Z.
Qed.

Lemma setAll_still items c t :
  (forall i, ChartCache.clock c i = t) ->
  Forall (fun e => (t <= CacheItem.timestamp (snd e))%Z) (ChartCache.memoryCache c) ->
  NoDup (map fst (ChartCache.memoryCache c) ++ map fst items) ->
  exists c',
    setAll items c = Some (tt, c') /\
    map fst (ChartCache.memoryCache c')
    = map fst (ChartCache.memoryCache c) ++ map fst items.
Proof.
  revert c; induction items as [|[key data] items IH]; intros c Hclk Hall Hnd.
  - exists c. split; [reflexivity|]. cbn [map]. now rewrite app_nil_r.
  - destruct (set_still c key data t Hclk Hall) as (c1 & E1 & Hm1 & Hc1).
    assert (Hnew : ~ In key (map fst (ChartCache.memoryCache c))).
    { cbn [map fst] in Hnd. apply NoDup_remove_2 in Hnd.
      intros H. apply Hnd. apply in_or_app. now left. }
    rewrite (mapSet_new _ _ _ Hnew) in Hm1.
    destruct (IH c1) as (c' & E' & Hm').
    + intros i. now rewrite Hc1.
    + rewrite Hm1. apply Forall_app. split; [exact Hall|].
      constructor; [cbn; lia|constructor].
    + rewrite Hm1, map_app. cbn [map fst]. rewrite <- app_assoc. exact Hnd.
    + exists c'. split.
      * unfold setAll in *. cbn [forEach]. unfold bind at 1. now rewrite E1.
      * rewrite Hm', Hm1, map_app, <- app_assoc. reflexivity.
Qed.

(** X21.  What [maxSize] does not bound.  While the clock stands still,
    [evictOldest] finds no entry older than its own reading and removes
    none: calls of [set] with distinct keys, started on an empty memory
    and all made at one reading of the clock, keep every entry, however
    small [maxSize] is. *)
Theorem still_clock_never_evicts
    (c : ChartCache.t) (items : list (string * ChartData.t)) (t : Z) :
  ChartCache.memoryCache c = [] ->
  (forall i, ChartCache.clock c i = t) ->
  NoDup (map fst items) ->
  exists c',
    setAll items c = Some (tt, c') /\
    map fst (ChartCache.memoryCache c') = map fst items.
Proof.
  intros Hm Hclk Hnd.
  destruct (setAll_still items c t Hclk) as (c' & E & Hk).
  - rewrite Hm. constructor.
  - now rewrite Hm.
  - exists c'. split; [exact E|]. now rewrite Hk, Hm.
Qed.

(** An instance: three entries in a cache of one. *)
Lemma still_clock_never_evicts_witness :
  exists c',
    setAll [("a"%string, mockChart); ("b"%string, mockChart); ("c"%string, mockChart)]
      (ChartCache.mk [] (CacheOptions.mk 3600000 1 false) None (fun _ => 0%Z) 0)
    = Some (tt, c') /\
    map fst (ChartCache.memoryCache c') = ["a"%string; "b"%string; "c"%string].
Proof.
  apply (still_clock_never_evicts
           (ChartCache.mk [] (CacheOptions.mk 3600000 1 false) None (fun _ => 0%Z) 0)
           [("a"%string, mockChart); ("b"%string, mockChart); ("c"%string, mockChart)]
           0%Z).
  - reflexivity.
  - reflexivity.
  - repeat constructor; simpl; intuition discriminate.
Defined.

(** ** The cache: a key that is nowhere *)

(** X22.  [get] of a non-empty key that neither the memory nor, for a
    persistent cache, the store holds reports the value absent and
    leaves the cache as it is: no entry is made, and the clock is not
    read. *)
Theorem get_absent (c : ChartCache.t) (fuel : nat) (key : string) :
  key <> EmptyString ->
  mapGet String.eqb (ChartCache.memoryCache c) key = None ->
  (CacheOptions.persistent (ChartCache.options c) = true ->
   forall s, ChartCache.localStorage c = Some s ->
             mapGet String.eqb s (ChartCache.storagePrefix ++ key)%string = None) ->
  ChartCache.get fuel key c = Some (None, c).
Proof.
  intros Hne Hmiss Hstore. rewrite (get_miss _ _ _ Hne Hmiss).
  destruct (CacheOptions.persistent (ChartCache.options c)); [|reflexivity].
  destruct (ChartCache.localStorage c) as [s|]; [|reflexivity].
  now rewrite (Hstore eq_refl s eq_refl).
Qed.

(** An instance: a key of another day. *)
Lemma get_absent_witness :
  ChartCache.get 0 "billboard-hot-100-2024-01-02"
    (ChartCache.mk
       [("billboard-hot-100-2024-01-01"%string, CacheItem.mk mockChart 0 3600000)]
       ChartCache.defaultOptions (Some []) (fun _ => 0%Z) 0)
  = Some (None,
          ChartCache.mk
            [("billboard-hot-100-2024-01-01"%string, CacheItem.mk mockChart 0 3600000)]
            ChartCache.defaultOptions (Some []) (fun _ => 0%Z) 0).
Proof.
  apply (get_absent
           (ChartCache.mk
              [("billboard-hot-100-2024-01-01"%string,
                CacheItem.mk mockChart 0 3600000)]
              ChartCache.defaultOptions (Some []) (fun _ => 0%Z) 0)
           0 "billboard-hot-100-2024-01-02"%string).
  - discriminate.
  - reflexivity.
  - intros _ s E. injection E as <-. reflexivity.
Defined.

(** ** [search]: results of equal score *)

Lemma scoring_insertByScore score r l :
  scoring score (insertByScore r l) = scoring score (r :: l).
Proof.
  unfold scoring. induction l as [|h t IH]; [reflexivity|].
  cbn [insertByScore].
  destruct (JS.Qltb (SearchResult.score r) (SearchResult.score h)) eqn:E;
    [|reflexivity].
  apply Qltb_lt in E. cbn [filter] in IH |- *. rewrite IH.
  destruct (Qeq_bool (SearchResult.score h) score) eqn:Eh; [|reflexivity].
  destruct (Qeq_bool (SearchResult.score r) score) eqn:Er; [|reflexivity].
  apply Qeq_bool_iff in Eh, Er. rewrite Eh, Er in E.
  exfalso. exact (Qlt_irrefl _ E).
Qed.

Lemma scoring_sortByScore score l :
  scoring score (sortByScore l) = scoring score l.
Proof.
  induction l as [|r l IH]; [reflexivity|].
  cbn [sortByScore fold_right]. rewrite scoring_insertByScore.
  unfold scoring in *. cbn [filter]. fold (sortByScore l). now rewrite IH.
Qed.

(** X23.  Results of equal score come in the order of the scan: the
    sort being stable, the results of any one score are, in the list
    that [search] returns without a limit, in the order in which the
    charts were indexed and their entries listed. *)
Theorem search_ties_in_scan_order
    (clock : SearchClock.t) (query : SearchQuery.t) (engine : SearchEngine.t)
    (score : Q) :
  scoring score (SearchOutput.results (search clock (withoutLimit query) engine))
  = scoring score (passing clock query engine).
Proof. rewrite search_withoutLimit. apply scoring_sortByScore. Qed.

(** ** The cache: loading the store *)

Lemma substring_all (s : string) : substring 0 (String.length s) s = s.
Proof. induction s as [|a s IH]; cbn [substring String.length]; [reflexivity|now rewrite IH]. Qed.

Lemma memoryKey_spec k :
  JS.startsWith k ChartCache.storagePrefix = true ->
  (ChartCache.storagePrefix ++ memoryKey k)%string = k.
Proof.
  intros H. apply prefix_spec in H. destruct H as [post ->].
  unfold memoryKey. rewrite string_length_append.
  replace (String.length ChartCache.storagePrefix + String.length post
           - String.length ChartCache.storagePrefix)
    with (String.length post) by lia.
  unfold ChartCache.storagePrefix. cbn [append String.length substring].
  now rewrite substring_all.
Qed.

Lemma memoryKey_prefixed key :
  memoryKey (ChartCache.storagePrefix ++ key) = key.
Proof.
  unfold memoryKey. rewrite string_length_append.
  replace (String.length ChartCache.storagePrefix + String.length key
           - String.length ChartCache.storagePrefix)
    with (String.length key) by lia.
  unfold ChartCache.storagePrefix. cbn [append String.length substring].
  apply substring_all.
Qed.

Lemma startsWith_prefixed key :
  JS.startsWith (ChartCache.storagePrefix ++ key) ChartCache.storagePrefix = true.
Proof. apply prefix_spec. now exists key. Qed.

(** One turn of the loop of [loadFromStorage] (lines 223-229), for a
    key that the store holds. *)
Lemma loadFromStorage_turn fuel c s storageKey item :
  ChartCache.localStorage c = Some s ->
  JS.startsWith storageKey ChartCache.storagePrefix = true ->
  storageKey <> ChartCache.storagePrefix ->
  mapGet String.eqb s storageKey = Some item ->
  (let key := memoryKey storageKey in
   item <- ChartCache.loadFromStorage fuel (Some key) ;;
   match item with
   | Some item =>
       expired <- ChartCache.isExpired item ;;
       if negb expired
       then (memory <- ChartCache.getMemory ;;
             ChartCache.putMemory (mapSet String.eqb memory key item))
       else ret tt
   | None => ret tt
   end)%eff c
  = Some (tt,
          ChartCache.mk
            (if (CacheItem.ttl item
                 <? ChartCache.clock c (ChartCache.reads c) - CacheItem.timestamp item)%Z
             then ChartCache.memoryCache c
             else mapSet String.eqb (ChartCache.memoryCache c)
                    (memoryKey storageKey) item)
            (ChartCache.options c) (Some s) (ChartCache.clock c)
            (S (ChartCache.reads c))).
Proof.
  intros Hs Hpre Hne Hget. cbv zeta.
  assert (Hkey : memoryKey storageKey <> EmptyString).
  { intros E. apply Hne. rewrite <- (memoryKey_spec _ Hpre), E.
    apply string_append_nil_r. }
  unfold bind at 1. rewrite (loadFromStorage_key _ _ _ Hkey), Hs.
  rewrite (memoryKey_spec _ Hpre), Hget.
  unfold ChartCache.isExpired, bind, ChartCache.Date_now, ret,
    ChartCache.getMemory, ChartCache.putMemory.
  cbn [ChartCache.memoryCache ChartCache.options ChartCache.localStorage
       ChartCache.clock ChartCache.reads].
  rewrite Hs.
  now destruct (CacheItem.ttl item
                <? ChartCache.clock c (ChartCache.reads c) - CacheItem.timestamp item)%Z.
Qed.

Lemma loadFromStorage_loop fuel keys c s :
  ChartCache.localStorage c = Some s ->
  (forall k, In k keys ->
             JS.startsWith k ChartCache.storagePrefix = true /\
             k <> ChartCache.storagePrefix /\ In k (map fst s)) ->
  exists memory',
    forEach keys
      (fun storageKey =>
         (let key := memoryKey storageKey in
          item <- ChartCache.loadFromStorage fuel (Some key) ;;
          match item with
          | Some item =>
              expired <- ChartCache.isExpired item ;;
              if negb expired
              then (memory <- ChartCache.getMemory ;;
                    ChartCache.putMemory (mapSet String.eqb memory key item))
              else ret tt
          | None => ret tt
          end)%eff) c
    = Some (tt, ChartCache.mk memory' (ChartCache.options c) (Some s)
                  (ChartCache.clock c) (ChartCache.reads c + List.length keys)) /\
    (forall key item,
       mapGet String.eqb memory' key = Some item ->
       mapGet String.eqb (ChartCache.memoryCache c) key = Some item \/
       (mapGet String.eqb s (ChartCache.storagePrefix ++ key)%string = Some item /\
        exists i, ChartCache.reads c <= i < ChartCache.reads c + List.length keys /\
                  ~ expiredAt (ChartCache.clock c i) item)) /\
    (forall key item,
       In (ChartCache.storagePrefix ++ key)%string keys ->
       mapGet String.eqb s (ChartCache.storagePrefix ++ key)%string = Some item ->
       (forall i, ChartCache.reads c <= i < ChartCache.reads c + List.length keys ->
                  ~ expiredAt (ChartCache.clock c i) item) ->
       mapGet String.eqb memory' key = Some item) /\
    (forall key,
       (In (ChartCache.storagePrefix ++ key)%string keys ->
        forall item i,
          mapGet String.eqb s (ChartCache.storagePrefix ++ key)%string = Some item ->
          ChartCache.reads c <= i < ChartCache.reads c + List.length keys ->
          expiredAt (ChartCache.clock c i) item) ->
       mapGet String.eqb memory' key
       = mapGet String.eqb (ChartCache.memoryCache c) key).
Proof.
  revert c; induction keys as [|k keys IH]; intros c Hs Hkeys.
  - exists (ChartCache.memoryCache c). cbn [forEach List.length]. unfold ret.
    rewrite Nat.add_0_r. split; [destruct c; cbn in Hs |- *; now rewrite Hs|].
    split; [auto|]. split; [intros key item []|reflexivity].
  - destruct (Hkeys k (or_introl eq_refl)) as (Hpre & Hne & Hin).
    destruct (mapGet String.eqb s k) as [item0|] eqn:Hget;
      [|apply mapGet_None_notin in Hget; contradiction].
    cbn [forEach]. unfold bind at 1. cbv beta.
    pose proof (loadFromStorage_turn fuel c s k item0 Hs Hpre Hne Hget) as Hturn.
    cbv zeta in Hturn. rewrite Hturn. clear Hturn.
    set (expired := (CacheItem.ttl item0
                     <? ChartCache.clock c (ChartCache.reads c)
                        - CacheItem.timestamp item0)%Z).
    set (memory1 := if expired then ChartCache.memoryCache c
                    else mapSet String.eqb (ChartCache.memoryCache c)
                           (memoryKey k) item0).
    set (c1 := ChartCache.mk memory1 (ChartCache.options c) (Some s)
                 (ChartCache.clock c) (S (ChartCache.reads c))).
    destruct (IH c1 eq_refl) as (memory' & E & Hsound & Hcomplete & Hkeep).
    { intros k' Hk'. apply Hkeys. now right. }
    unfold c1 in E, Hsound, Hcomplete, Hkeep.
    cbn [ChartCache.memoryCache ChartCache.options ChartCache.clock ChartCache.reads]
      in E, Hsound, Hcomplete, Hkeep.
    exists memory'. cbn [List.length].
    split; [unfold c1; rewrite E; do 3 f_equal; lia|].
    assert (Hexp : expired = true <->
                   expiredAt (ChartCache.clock c (ChartCache.reads c)) item0).
    { unfold expired, expiredAt. rewrite Z.ltb_lt. lia. }
    assert (Hmem1 : forall key,
              mapGet String.eqb memory1 key
              = if negb expired && String.eqb (memoryKey k) key
                then Some item0
                else mapGet String.eqb (ChartCache.memoryCache c) key).
    { intros key. unfold memory1. destruct expired; [reflexivity|].
      rewrite mapGet_mapSet_str. reflexivity. }
    split; [|split].
    + intros key item Hm. destruct (Hsound key item Hm) as [H1|(Hst & i & Hi & Hu)].
      * rewrite Hmem1 in H1. destruct expired eqn:Ee; cbn [negb andb] in H1;
          [now left|].
        destruct (String.eqb_spec (memoryKey k) key) as [Ek|Ek]; [|now left].
        injection H1 as <-. right. subst key. rewrite (memoryKey_spec _ Hpre).
        split; [exact Hget|]. exists (ChartCache.reads c). split; [lia|].
        intros Hx. apply Hexp in Hx. congruence.
      * right. split; [exact Hst|]. exists i. split; [lia|exact Hu].
    + intros key item Hk Hst Hu.
      destruct (in_dec string_dec (ChartCache.storagePrefix ++ key)%string keys)
        as [Hin'|Hnin].
      * apply (Hcomplete key item Hin' Hst). intros i Hi. apply Hu. lia.
      * destruct Hk as [Ek|Hk]; [|contradiction].
        rewrite Hkeep by (intros Hin'; contradiction).
        rewrite Hmem1. subst k. rewrite memoryKey_prefixed, String.eqb_refl.
        rewrite Hst in Hget. injection Hget as <-.
        destruct expired eqn:Ee; [|reflexivity].
        exfalso. apply (Hu (ChartCache.reads c)); [lia|]. now apply Hexp.
    + intros key Hk. rewrite Hkeep.
      * rewrite Hmem1.
        destruct expired eqn:Ee; cbn [negb andb]; [reflexivity|].
        destruct (String.eqb_spec (memoryKey k) key) as [Ek|Ek]; [|reflexivity].
        exfalso. subst key. rewrite (memoryKey_spec _ Hpre) in Hk.
        assert (Hx : expiredAt (ChartCache.clock c (ChartCache.reads c)) item0).
        { apply (Hk (or_introl eq_refl) item0 (ChartCache.reads c) Hget). lia. }
        apply Hexp in Hx. congruence.
      * intros Hin' item i Hst Hi. apply (Hk (or_intror Hin') item i Hst). lia.
Qed.

(** X24.  [loadFromStorage] without a key, as the constructor of a
    persistent cache calls it, returns [null], reads the clock once for
    each key of the library in the store, and leaves the store as it
    is, expired items included.  It puts in the memory, under their keys
    without the prefix, the stored items that are not expired when it
    checks them; an item that is expired all along is not loaded; and
    whatever it loaded is a stored item, read unexpired.  No key of the
    store is the bare prefix. *)
Theorem loadFromStorage_all (c : ChartCache.t) (s : Storage) (fuel : nat) :
  ChartCache.localStorage c = Some s ->
  ~ In ChartCache.storagePrefix (map fst s) ->
  let first := ChartCache.reads c in
  let last := ChartCache.reads c + List.length (libraryKeys s) in
  exists memory',
    ChartCache.loadFromStorage (S fuel) None c
    = Some (None, ChartCache.mk memory' (ChartCache.options c) (Some s)
                    (ChartCache.clock c) last) /\
    (forall key item,
       mapGet String.eqb s (ChartCache.storagePrefix ++ key)%string = Some item ->
       (forall i, first <= i < last -> ~ expiredAt (ChartCache.clock c i) item) ->
       mapGet String.eqb memory' key = Some item) /\
    (forall key item,
       mapGet String.eqb s (ChartCache.storagePrefix ++ key)%string = Some item ->
       (forall i, first <= i < last -> expiredAt (ChartCache.clock c i) item) ->
       mapGet String.eqb memory' key
       = mapGet String.eqb (ChartCache.memoryCache c) key) /\
    (forall key item,
       mapGet String.eqb memory' key = Some item ->
       mapGet String.eqb (ChartCache.memoryCache c) key = Some item \/
       (mapGet String.eqb s (ChartCache.storagePrefix ++ key)%string = Some item /\
        exists i, first <= i < last /\ ~ expiredAt (ChartCache.clock c i) item)).
Proof.
  intros Hs Hbare. cbv zeta.
  destruct (loadFromStorage_loop fuel (libraryKeys s) c s Hs)
    as (memory' & E & Hsound & Hcomplete & Hkeep).
  { intros k Hk. unfold libraryKeys in Hk. apply filter_In in Hk.
    destruct Hk as [Hin Hpre]. split; [exact Hpre|]. split; [|exact Hin].
    intros ->. contradiction. }
  exists memory'. split; [|split; [|split]].
  - cbn [ChartCache.loadFromStorage]. unfold bind at 1.
    unfold ChartCache.getStorage at 1. rewrite Hs. cbn [JS.truthyString].
    unfold bind at 1.
    change (filter (fun k => JS.startsWith k ChartCache.storagePrefix) (map fst s))
      with (libraryKeys s).
    unfold memoryKey in E. rewrite E. reflexivity.
  - intros key item Hst Hu. apply (Hcomplete key item); [|exact Hst|exact Hu].
    unfold libraryKeys. apply filter_In. split; [|apply startsWith_prefixed].
    apply mapGet_Some_In in Hst. now apply (in_map fst) in Hst.
  - intros key item Hst Hx. apply Hkeep.
    intros _ item' i Hst' Hi. rewrite Hst in Hst'. injection Hst' as <-.
    now apply Hx.
  - exact Hsound.
Qed.

(** An instance: a store with a fresh item, an expired one and a key of
    another program, loaded at the time 100. *)
Lemma loadFromStorage_all_witness :
  exists memory',
    ChartCache.loadFromStorage 1 None
      (ChartCache.mk [] ChartCache.defaultOptions
         (Some [("brickcharts-a"%string, CacheItem.mk mockChart 90 50);
                ("other"%string, CacheItem.mk mockChart 0 0);
                ("brickcharts-b"%string, CacheItem.mk mockChart 0 50)])
         (fun _ => 100%Z) 0)
    = Some (None,
            ChartCache.mk memory' ChartCache.defaultOptions
              (Some [("brickcharts-a"%string, CacheItem.mk mockChart 90 50);
                     ("other"%string, CacheItem.mk mockChart 0 0);
                     ("brickcharts-b"%string, CacheItem.mk mockChart 0 50)])
              (fun _ => 100%Z) 2) /\
    mapGet String.eqb memory' "a"%string = Some (CacheItem.mk mockChart 90 50) /\
    mapGet String.eqb memory' "b"%string = None.
Proof.
  destruct (loadFromStorage_all
              (ChartCache.mk [] ChartCache.defaultOptions
                 (Some [("brickcharts-a"%string, CacheItem.mk mockChart 90 50);
                        ("other"%string, CacheItem.mk mockChart 0 0);
                        ("brickcharts-b"%string, CacheItem.mk mockChart 0 50)])
                 (fun _ => 100%Z) 0)
              [("brickcharts-a"%string, CacheItem.mk mockChart 90 50);
               ("other"%string, CacheItem.mk mockChart 0 0);
               ("brickcharts-b"%string, CacheItem.mk mockChart 0 50)]
              0 eq_refl)
    as (memory' & E & Hfresh & Hexpired & _).
  - simpl. intuition discriminate.
  - exists memory'. split; [exact E|]. split.
    + apply Hfresh; [reflexivity|]. intros i _. unfold expiredAt. simpl. lia.
    + rewrite (Hexpired "b"%string (CacheItem.mk mockChart 0 50)); [reflexivity| |].
      * reflexivity.
      * intros i _. unfold expiredAt. simpl. lia.
Defined.

(** ** Unfiltered queries: what is left out *)

Lemma positionBoost_nonpos entry :
  (101 <= ChartEntry.rank entry)%Z -> (positionBoost entry <= 0)%Q.
Proof.
  intros H. unfold positionBoost. apply Qle_shift_div_r; [reflexivity|].
  rewrite Qmult_0_l. apply (inject_Z_le _ 0). lia.
Qed.

Lemma recencyBoost_old now chart :
  (30 * 86400000 <= now - ChartData.date chart)%Z ->
  (recencyBoost now chart <= 0)%Q.
Proof.
  intros H. unfold recencyBoost. cbv zeta. apply Q.max_lub; [apply Qle_refl|].
  apply Qle_shift_div_r; [reflexivity|]. rewrite Qmult_0_l.
  apply (Qplus_le_l _ _ (inject_Z (now - ChartData.date chart)
                         / inject_Z (1000 * 60 * 60 * 24))).
  ring_simplify. apply Qle_shift_div_l; [reflexivity|].
  change (30 * inject_Z (1000 * 60 * 60 * 24))%Q
    with (inject_Z 30 * inject_Z (1000 * 60 * 60 * 24))%Q.
  rewrite <- inject_Z_mult. apply inject_Z_le.
  change (1000 * 60 * 60 * 24)%Z with 86400000%Z. lia.
Qed.

(** X25.  What an unfiltered search leaves out.  With no text filter, no
    rank, weeks or peak bound and [newEntriesOnly] unset, no result is
    an entry of rank 101 or more of a chart that is 30 days old or more
    when the entry is scored: its score is not positive. *)
Theorem unfiltered_search_drops
    (clock : SearchClock.t) (query : SearchQuery.t) (engine : SearchEngine.t)
    (r : SearchResult.t) :
  unfiltered query ->
  In r (SearchOutput.results (search clock query engine)) ->
  (forall i, 30 * 86400000
             <= SearchClock.scoreTime clock i
                - ChartData.date (SearchResult.chartData r))%Z ->
  (ChartEntry.rank (SearchResult.entry r) <= 100)%Z.
Proof.
  intros Hu Hin Hold.
  apply search_results_passing, passingFrom_inv in Hin.
  destruct Hin as (chart & entry & i & _ & Hs & Hpos).
  rewrite (scoreEntry_unfiltered _ _ _ _ Hu) in Hs. cbv zeta in Hs.
  destruct (Qeq_bool _ 0); [discriminate|]. injection Hs as <-.
  cbn [SearchResult.score SearchResult.entry SearchResult.chartData] in *.
  destruct (Z_le_gt_dec (ChartEntry.rank entry) 100) as [H|H]; [exact H|].
  exfalso. apply (Qlt_not_le _ _ Hpos).
  assert (H1 : (positionBoost entry <= 0)%Q) by (apply positionBoost_nonpos; lia).
  assert (H2 : (recencyBoost (SearchClock.scoreTime clock i) chart <= 0)%Q)
    by (apply recencyBoost_old, Hold).
  rewrite Qplus_0_l.
  setoid_replace 0%Q with (0 + 0)%Q by ring.
  now apply Qplus_le_compat.
Qed.

(** An instance: a result of the empty query, a year after the chart of
    the tests. *)
Lemma unfiltered_search_drops_witness :
  exists r,
    In r (SearchOutput.results
            (search (fixedClock (1704067200000 + 365 * 86400000)) emptyQuery
               mockEngine)) /\
    (ChartEntry.rank (SearchResult.entry r) <= 100)%Z.
Proof.
  set (rs := SearchOutput.results
               (search (fixedClock (1704067200000 + 365 * 86400000)) emptyQuery
                  mockEngine)).
  assert (H : In (hd (SearchResult.mk godsPlan mockChart 0 []) rs) rs)
    by (vm_compute; left; reflexivity).
  exists (hd (SearchResult.mk godsPlan mockChart 0 []) rs). split; [exact H|].
  apply (unfiltered_search_drops (fixedClock (1704067200000 + 365 * 86400000))
           emptyQuery mockEngine _ (ltac:(repeat split)) H).
  intros i. vm_compute. discriminate.
Defined.

(** ** The cache: which entry goes *)

Lemma oldestScan_above memory oldestKey oldestTime t :
  Forall (fun e => (t < CacheItem.timestamp (snd e))%Z) memory ->
  (t < oldestTime)%Z ->
  (t < snd (ChartCache.oldestScan memory (oldestKey, oldestTime)))%Z.
Proof.
  unfold ChartCache.oldestScan. intros H. revert oldestKey oldestTime.
  induction H as [|[k it] l Hx Hl IH]; intros oldestKey oldestTime Ht;
    cbn [fold_left]; [exact Ht|].
  destruct (CacheItem.timestamp it <? oldestTime)%Z; apply IH; [exact Hx|exact Ht].
Qed.

Lemma afterEvict_first_minimum now pre key item post :
  key <> EmptyString ->
  (CacheItem.timestamp item < now)%Z ->
  Forall (fun e => (CacheItem.timestamp item < CacheItem.timestamp (snd e))%Z) pre ->
  Forall (fun e => (CacheItem.timestamp item <= CacheItem.timestamp (snd e))%Z) post ->
  afterEvict now (pre ++ (key, item) :: post)
  = mapDelete String.eqb (pre ++ (key, item) :: post) key.
Proof.
  intros Hne Hnow Hpre Hpost. unfold afterEvict.
  assert (E : ChartCache.oldestScan (pre ++ (key, item) :: post) (None, now)
              = (Some key, CacheItem.timestamp item)).
  { pose proof (oldestScan_above pre None now _ Hpre Hnow) as Habove.
    unfold ChartCache.oldestScan in *. rewrite fold_left_app. cbn [fold_left].
    destruct (fold_left _ pre (None, now)) as [ok ot]. cbn [snd] in Habove.
    replace (CacheItem.timestamp item <? ot)%Z with true
      by (symmetry; apply Z.ltb_lt; exact Habove).
    exact (oldestScan_keep post (Some key) _ Hpost). }
  rewrite E. destruct key; [contradiction|reflexivity].
Qed.

(** X26.  Which entry [evictOldest] removes.  It is the entry with the
    smallest timestamp, the first of them in insertion order when
    several share it, provided this timestamp is smaller than the
    reading of the clock and the key is not empty; one reading is
    taken, and the store is not touched. *)
Theorem evictOldest_first_minimum
    (c : ChartCache.t) (pre post : list (string * CacheItem.t))
    (key : string) (item : CacheItem.t) :
  ChartCache.memoryCache c = pre ++ (key, item) :: post ->
  key <> EmptyString ->
  (CacheItem.timestamp item < ChartCache.clock c (ChartCache.reads c))%Z ->
  Forall (fun e => (CacheItem.timestamp item < CacheItem.timestamp (snd e))%Z) pre ->
  Forall (fun e => (CacheItem.timestamp item <= CacheItem.timestamp (snd e))%Z) post ->
  ChartCache.evictOldest c
  = Some (tt,
          ChartCache.mk (mapDelete String.eqb (ChartCache.memoryCache c) key)
            (ChartCache.options c) (ChartCache.localStorage c) (ChartCache.clock c)
            (S (ChartCache.reads c))).
Proof.
  intros Hm Hne Hnow Hpre Hpost. rewrite evictOldest_run, Hm.
  now rewrite afterEvict_first_minimum.
Qed.

(** An instance: of two entries stamped 3, the first goes. *)
Lemma evictOldest_first_minimum_witness :
  ChartCache.evictOldest
    (ChartCache.mk
       [("a"%string, CacheItem.mk mockChart 5 100);
        ("b"%string, CacheItem.mk mockChart 3 100);
        ("c"%string, CacheItem.mk mockChart 3 100)]
       ChartCache.defaultOptions None (fun _ => 10%Z) 0)
  = Some (tt,
          ChartCache.mk
            [("a"%string, CacheItem.mk mockChart 5 100);
             ("c"%string, CacheItem.mk mockChart 3 100)]
            ChartCache.defaultOptions None (fun _ => 10%Z) 1).
Proof.
  apply (evictOldest_first_minimum
           (ChartCache.mk
              [("a"%string, CacheItem.mk mockChart 5 100);
               ("b"%string, CacheItem.mk mockChart 3 100);
               ("c"%string, CacheItem.mk mockChart 3 100)]
              ChartCache.defaultOptions None (fun _ => 10%Z) 0)
           [("a"%string, CacheItem.mk mockChart 5 100)]
           [("c"%string, CacheItem.mk mockChart 3 100)]
           "b"%string (CacheItem.mk mockChart 3 100)).
  - reflexivity.
  - discriminate.
  - simpl. lia.
  - repeat constructor.
  - repeat constructor. simpl. lia.
Defined.

(** X27.  Reading an entry does not save it from eviction.  A [get] that
    finds an entry in the memory, unexpired, returns its chart and
    leaves its timestamp as it was, so that a [set] that follows on the
    full cache evicts this very entry when it is the oldest: the order
    of eviction is that of insertion, not that of use. *)
Theorem read_entry_still_evicted
    (c : ChartCache.t) (fuel : nat) (pre post : list (string * CacheItem.t))
    (key : string) (item : CacheItem.t) (key' : string) (data' : ChartData.t) :
  ChartCache.memoryCache c = pre ++ (key, item) :: post ->
  ~ In key (map fst pre) ->
  key <> EmptyString ->
  (CacheOptions.maxSize (ChartCache.options c)
   <= Z.of_nat (List.length (ChartCache.memoryCache c)))%Z ->
  ~ expiredAt (ChartCache.clock c (ChartCache.reads c)) item ->
  (CacheItem.timestamp item < ChartCache.clock c (S (S (ChartCache.reads c))))%Z ->
  Forall (fun e => (CacheItem.timestamp item < CacheItem.timestamp (snd e))%Z) pre ->
  Forall (fun e => (CacheItem.timestamp item <= CacheItem.timestamp (snd e))%Z) post ->
  exists c',
    (data <- ChartCache.get fuel key ;; ChartCache.set key' data' ;; ret data)%eff c
    = Some (Some (CacheItem.data item), c') /\
    ChartCache.memoryCache c'
    = mapSet String.eqb (mapDelete String.eqb (ChartCache.memoryCache c) key) key'
        (CacheItem.mk data' (ChartCache.clock c (S (ChartCache.reads c)))
           (CacheOptions.ttl (ChartCache.options c))).
Proof.
  intros Hm Hfirst Hne Hfull Hfresh Hnow Hpre Hpost.
  assert (Hget : mapGet String.eqb (ChartCache.memoryCache c) key = Some item).
  { rewrite Hm. clear - Hfirst. induction pre as [|[k v] pre IH]; cbn [mapGet app].
    - now rewrite String.eqb_refl.
    - destruct (String.eqb_spec k key) as [->|Hk].
      + exfalso. apply Hfirst. now left.
      + apply IH. intros H. apply Hfirst. now right. }
  unfold bind at 1. rewrite (get_hit c fuel key item Hget). cbv zeta.
  replace (_ <? _)%Z with false
    by (symmetry; apply Z.ltb_ge; unfold expiredAt in Hfresh; lia).
  unfold bind at 1. rewrite set_exact. cbv zeta.
  cbn [ChartCache.memoryCache ChartCache.options ChartCache.localStorage
       ChartCache.clock ChartCache.reads].
  replace (_ <=? _)%Z with true by (symmetry; apply Z.leb_le; exact Hfull).
  eexists. split; [reflexivity|]. cbn [ChartCache.memoryCache].
  rewrite Hm, afterEvict_first_minimum by assumption. reflexivity.
Qed.

(** An instance: in a cache of two entries, the older one is read, and
    the [set] that follows evicts it. *)
Lemma read_entry_still_evicted_witness :
  exists c',
    (data <- ChartCache.get 0 "a" ;; ChartCache.set "c" mockChart ;; ret data)%eff
      (ChartCache.mk
         [("a"%string, CacheItem.mk mockChart 1 100);
          ("b"%string, CacheItem.mk mockChart 2 100)]
         (CacheOptions.mk 100 2 false) None (fun _ => 10%Z) 0)
    = Some (Some mockChart, c') /\
    ChartCache.memoryCache c'
    = [("b"%string, CacheItem.mk mockChart 2 100);
       ("c"%string, CacheItem.mk mockChart 10 100)].
Proof.
  apply (read_entry_still_evicted
           (ChartCache.mk
              [("a"%string, CacheItem.mk mockChart 1 100);
               ("b"%string, CacheItem.mk mockChart 2 100)]
              (CacheOptions.mk 100 2 false) None (fun _ => 10%Z) 0)
           0 [] [("b"%string, CacheItem.mk mockChart 2 100)]
           "a"%string (CacheItem.mk mockChart 1 100) "c"%string mockChart).
  - reflexivity.
  - intros [].
  - discriminate.
  - simpl. lia.
  - unfold expiredAt. simpl. lia.
  - simpl. lia.
  - constructor.
  - repeat constructor. simpl. lia.
Defined.

(** ** Indexing: the buckets *)

Lemma addToIndex_indexed field value entry' index key entry :
  indexed (addToIndex field value entry' index) key entry <->
  indexed index key entry \/ (key = (field ++ ":" ++ value)%string /\ entry = entry').
Proof.
  unfold indexed. rewrite addToIndex_get.
  destruct (String.eqb_spec (field ++ ":" ++ value)%string key) as [E|E].
  - split.
    + intros (bucket & Hb & Hin). injection Hb as <-.
      apply in_app_or in Hin. destruct Hin as [Hin|[<-|[]]]; [|now right; split].
      left. destruct (mapGet String.eqb index key) as [b|]; [|contradiction].
      now exists b.
    + intros [(bucket & Hb & Hin)|[_ ->]].
      * rewrite Hb. eexists. split; [reflexivity|]. apply in_or_app. now left.
      * eexists. split; [reflexivity|]. apply in_or_app. right. now left.
  - split; [now left|]. intros [H|[H _]]; [exact H|]. now subst.
Qed.

Lemma indexEntry_indexed index entry' key entry :
  indexed (indexEntry index entry') key entry <->
  indexed index key entry \/ (entry = entry' /\ In key (entryKeys entry')).
Proof.
  unfold indexEntry, entryKeys. cbv zeta. rewrite addToIndex_indexed.
  destruct (ChartEntry.album entry') as [album|];
    [destruct (JS.truthyString (Some album))|];
    rewrite ?addToIndex_indexed; cbn [app In]; intuition (subst; auto).
Qed.

Lemma indexEntries_indexed entries index key entry :
  indexed (fold_left indexEntry entries index) key entry <->
  indexed index key entry \/ (In entry entries /\ In key (entryKeys entry)).
Proof.
  revert index; induction entries as [|e entries IH]; intros index; cbn [fold_left].
  - split; [now left|]. intros [H|[[] _]]. exact H.
  - rewrite IH, indexEntry_indexed. cbn [In]. intuition (subst; auto).
Qed.

(** X28.  What the index holds.  After [indexChartData], the bucket of a
    key holds an entry exactly when it held it before or the entry
    belongs to one of the charts indexed and the key is one of its own:
    its title, its artist, its album if it has one, or its title and
    artist together, lower-cased and with the name of the field. *)
Theorem indexChartData_buckets
    (charts : list ChartData.t) (engine : SearchEngine.t)
    (key : string) (entry : ChartEntry.t) :
  indexed (SearchEngine.searchIndex (indexChartData charts engine)) key entry <->
  indexed (SearchEngine.searchIndex engine) key entry \/
  (exists chart, In chart charts /\ In entry (ChartData.entries chart) /\
                 In key (entryKeys entry)).
Proof.
  unfold indexChartData. revert engine.
  induction charts as [|chart charts IH]; intros engine; cbn [fold_left].
  - split; [now left|]. intros [H|(c & [] & _)]. exact H.
  - rewrite IH. unfold indexChart at 1. cbn [SearchEngine.searchIndex].
    rewrite indexEntries_indexed. split.
    + intros [[H|[He Hk]]|(c & Hc & He & Hk)]; [now left| |].
      * right. exists chart. split; [now left|auto].
      * right. exists c. split; [now right|auto].
    + intros [H|(c & [<-|Hc] & He & Hk)]; [now left; left| |].
      * left. right. auto.
      * right. exists c. auto.
Qed.

(** ** The cache: evictions on any clock *)

Lemma firstOldest_exists (memory : list (string * CacheItem.t)) :
  memory <> [] -> exists l1 e l2, firstOldest memory l1 e l2.
Proof.
  induction memory as [|x rest IH]; [contradiction|]. intros _.
  destruct rest as [|y rest'].
  - exists [], x, []. repeat split; constructor.
  - destruct IH as (l1 & e & l2 & -> & H1 & H2); [discriminate|].
    destruct (Z_le_gt_dec (CacheItem.timestamp (snd x)) (CacheItem.timestamp (snd e)))
      as [Hle|Hgt].
    + exists [], x, (l1 ++ e :: l2). split; [reflexivity|]. split; [constructor|].
      apply Forall_app. split; [|constructor].
      * eapply Forall_impl; [|exact H1]. cbv beta. intros a Ha. lia.
      * exact Hle.
      * eapply Forall_impl; [|exact H2]. cbv beta. intros a Ha. lia.
    + exists (x :: l1), e, l2. split; [reflexivity|]. split; [|exact H2].
      constructor; [lia|exact H1].
Qed.

Lemma mapDelete_middle l1 key (item : CacheItem.t) l2 :
  NoDup (map fst (l1 ++ (key, item) :: l2)) ->
  mapDelete String.eqb (l1 ++ (key, item) :: l2) key = l1 ++ l2.
Proof.
  intros H. rewrite map_app in H. cbn [map fst] in H. apply NoDup_remove_2 in H.
  assert (H1 : ~ In key (map fst l1)) by (intros X; apply H, in_or_app; now left).
  assert (H2 : ~ In key (map fst l2)) by (intros X; apply H, in_or_app; now right).
  apply mapDelete_notin in H1, H2. unfold mapDelete in *.
  rewrite filter_app. cbn [filter]. rewrite String.eqb_refl. cbn [negb].
  now rewrite H1, H2.
Qed.

(** One call of [set] with a new key, on a memory of distinct non-empty
    keys: when the cache is full and some entry is older than the
    reading that [evictOldest] takes, the first oldest entry goes. *)
Lemma set_evictsOldest c key data :
  NoDup (map fst (ChartCache.memoryCache c)) ->
  (forall k, In k (map fst (ChartCache.memoryCache c)) -> k <> EmptyString) ->
  ~ In key (map fst (ChartCache.memoryCache c)) ->
  (isFull c ->
   exists e, In e (ChartCache.memoryCache c) /\
             (CacheItem.timestamp (snd e)
              < ChartCache.clock c (S (ChartCache.reads c)))%Z) ->
  exists c',
    ChartCache.set key data c = Some (tt, c') /\
    evictsOldest key data c c' /\
    ChartCache.options c' = ChartCache.options c.
Proof.
  intros Hnd Hkeys Hnew Hold. rewrite set_exact. cbv zeta.
  eexists. split; [reflexivity|]. split; [|reflexivity].
  unfold evictsOldest, isFull in *. cbn [ChartCache.memoryCache].
  destruct (CacheOptions.maxSize (ChartCache.options c)
            <=? Z.of_nat (List.length (ChartCache.memoryCache c)))%Z eqn:Hfull.
  - apply Z.leb_le in Hfull. split; [|intros H; contradiction].
    intros _. destruct (Hold Hfull) as (e0 & Hin0 & Hlt0).
    destruct (firstOldest_exists (ChartCache.memoryCache c))
      as (l1 & [k it] & l2 & Hfirst).
    { intros E. rewrite E in Hin0. contradiction. }
    exists l1, (k, it), l2. split; [exact Hfirst|].
    destruct Hfirst as (Hm & H1 & H2). cbn [snd] in H1, H2.
    assert (Hk : k <> EmptyString).
    { apply Hkeys. rewrite Hm, map_app. apply in_or_app. right. now left. }
    assert (Hlt : (CacheItem.timestamp it
                   < ChartCache.clock c (S (ChartCache.reads c)))%Z).
    { rewrite Hm in Hin0. apply in_app_or in Hin0.
      destruct Hin0 as [Hin0|[<-|Hin0]].
      - rewrite Forall_forall in H1. specialize (H1 _ Hin0). lia.
      - exact Hlt0.
      - rewrite Forall_forall in H2. specialize (H2 _ Hin0). lia. }
    rewrite Hm in Hnd, Hnew |- *.
    rewrite (afterEvict_first_minimum _ _ _ _ _ Hk Hlt H1 H2).
    rewrite (mapDelete_middle _ _ _ _ Hnd).
    rewrite mapSet_new; [now rewrite <- app_assoc|].
    rewrite map_app in Hnew |- *. cbn [map fst] in Hnew.
    intros X. apply Hnew. apply in_app_or in X. apply in_or_app.
    destruct X; [now left|right; now right].
  - apply Z.leb_gt in Hfull. split; [intros H; lia|]. intros _.
    now apply mapSet_new.
Qed.

(** C2, as the code has it.  Take a cache whose memory holds at most
    [maxSize] entries, under distinct non-empty keys, and a sequence of
    [set] calls with non-empty keys that are distinct from each other
    and from those of the memory, such that each time a call finds the
    cache full, some entry has a timestamp smaller than the reading
    that [evictOldest] then takes.  Then the calls return, the memory
    ends with as many entries as it had and were set, [maxSize] at
    most, so exactly [maxSize] when more keys than that are involved;
    and each call on a full cache has evicted one entry, the first in
    insertion order of those of the smallest timestamp, every call
    putting its own entry last. *)
Theorem sets_evict_oldest (c : ChartCache.t) (items : list (string * ChartData.t)) :
  NoDup (map fst (ChartCache.memoryCache c) ++ map fst items) ->
  (forall key, In key (map fst (ChartCache.memoryCache c) ++ map fst items) ->
               key <> EmptyString) ->
  (Z.of_nat (List.length (ChartCache.memoryCache c))
   <= CacheOptions.maxSize (ChartCache.options c))%Z ->
  (forall pre key data post c1,
     items = pre ++ (key, data) :: post ->
     setAll pre c = Some (tt, c1) ->
     isFull c1 ->
     exists e, In e (ChartCache.memoryCache c1) /\
               (CacheItem.timestamp (snd e)
                < ChartCache.clock c1 (S (ChartCache.reads c1)))%Z) ->
  exists c',
    setAll items c = Some (tt, c') /\
    Z.of_nat (List.length (ChartCache.memoryCache c'))
    = Z.min (Z.of_nat (List.length (ChartCache.memoryCache c) + List.length items))
        (CacheOptions.maxSize (ChartCache.options c)) /\
    forall pre key data post,
      items = pre ++ (key, data) :: post ->
      exists c1 c2,
        setAll pre c = Some (tt, c1) /\
        ChartCache.set key data c1 = Some (tt, c2) /\
        evictsOldest key data c1 c2.
Proof.
  revert c; induction items as [|[key0 data0] items IH]; intros c Hnd Hne Hsize Hold.
  - exists c. split; [reflexivity|]. split.
    + cbn [List.length]. rewrite Nat.add_0_r. lia.
    + intros [|p pre] key data post E; discriminate E.
  - assert (Hnd0 : NoDup (map fst (ChartCache.memoryCache c))).
    { now apply NoDup_app_remove_r in Hnd. }
    assert (Hnew : ~ In key0 (map fst (ChartCache.memoryCache c))).
    { cbn [map fst] in Hnd. apply NoDup_remove_2 in Hnd.
      intros X. apply Hnd, in_or_app. now left. }
    destruct (set_evictsOldest c key0 data0 Hnd0) as (c1 & E1 & Heff & Hopts).
    { intros k Hk. apply Hne, in_or_app. now left. }
    { exact Hnew. }
    { intros Hfull. apply (Hold [] key0 data0 items c eq_refl eq_refl Hfull). }
    assert (Hkeys1 : exists l1 l2 dropped,
              map fst (ChartCache.memoryCache c) = l1 ++ dropped ++ l2 /\
              map fst (ChartCache.memoryCache c1) = l1 ++ l2 ++ [key0] /\
              List.length dropped <= 1 /\
              (isFull c -> List.length dropped = 1) /\
              (~ isFull c -> dropped = [])).
    { destruct Heff as [Hf Hn].
      destruct (Z_le_gt_dec (CacheOptions.maxSize (ChartCache.options c))
                  (Z.of_nat (List.length (ChartCache.memoryCache c)))) as [Hfull|Hfree].
      - destruct (Hf Hfull) as (l1 & e & l2 & (Hm & _) & Hm1).
        exists (map fst l1), (map fst l2), [fst e].
        rewrite Hm, Hm1, !map_app. cbn [map fst app].
        repeat split; auto. intros X. contradiction.
      - assert (Hnf : ~ isFull c) by (unfold isFull; lia).
        exists (map fst (ChartCache.memoryCache c)), [], [].
        rewrite (Hn Hnf), map_app. cbn [map fst app]. rewrite app_nil_r.
        repeat split; auto. intros X. contradiction. }
    destruct Hkeys1 as (l1 & l2 & dropped & Hk & Hk1 & Hd & Hdf & Hdn).
    assert (Hlen : List.length (ChartCache.memoryCache c)
                   = List.length l1 + List.length dropped + List.length l2).
    { rewrite <- (length_map fst), Hk, !length_app. lia. }
    assert (Hlen1 : List.length (ChartCache.memoryCache c1)
                    = List.length l1 + List.length l2 + 1).
    { rewrite <- (length_map fst), Hk1, !length_app. cbn [List.length]. lia. }
    assert (Hsize1 : Z.of_nat (List.length (ChartCache.memoryCache c1))
                     = Z.min (Z.of_nat (List.length (ChartCache.memoryCache c) + 1))
                         (CacheOptions.maxSize (ChartCache.options c))).
    { destruct (Z_le_gt_dec (CacheOptions.maxSize (ChartCache.options c))
                  (Z.of_nat (List.length (ChartCache.memoryCache c)))) as [Hfull|Hfree].
      - specialize (Hdf Hfull). lia.
      - assert (Hnf : ~ isFull c) by (unfold isFull; lia).
        rewrite (Hdn Hnf) in Hlen. cbn [List.length] in Hlen. lia. }
    destruct (IH c1) as (c' & E' & Hsize' & Hsteps).
    + rewrite Hk1. rewrite Hk in Hnd. cbn [map fst] in Hnd.
      rewrite <- !app_assoc in Hnd |- *. cbn [app].
      clear - Hnd Hd. destruct dropped as [|d [|d' dropped]];
        cbn [List.length app] in *; [exact Hnd| |lia].
      now apply NoDup_remove_1 in Hnd.
    + intros k Hin. apply Hne. rewrite Hk. rewrite Hk1 in Hin. cbn [map fst].
      rewrite <- !app_assoc in Hin |- *. cbn [app] in Hin.
      apply in_app_or in Hin. apply in_or_app.
      destruct Hin as [Hin|Hin]; [now left|right].
      apply in_or_app. right. exact Hin.
    + rewrite Hopts. lia.
    + intros pre key data post c2 E Hrun Hfull.
      apply (Hold ((key0, data0) :: pre) key data post c2).
      * cbn [app]. now rewrite E.
      * unfold setAll in *. cbn [forEach]. unfold bind at 1. now rewrite E1.
      * exact Hfull.
    + exists c'. split; [|split].
      * unfold setAll in *. cbn [forEach]. unfold bind at 1. now rewrite E1.
      * rewrite Hsize', Hopts. cbn [List.length]. lia.
      * intros [|p pre] key data post E.
        -- cbn [app] in E. injection E as <- <- <-.
           exists c, c1. split; [reflexivity|]. split; [exact E1|exact Heff].
        -- cbn [app] in E. injection E as <- E.
           destruct (Hsteps pre key data post E) as (c2 & c3 & Hrun & Hset & Heff').
           exists c2, c3. split; [|split; assumption].
           unfold setAll in *. cbn [forEach]. unfold bind at 1. now rewrite E1.
Qed.

(** An instance: three keys on a cache of two entries, on a clock that
    gives each time twice.  The first two entries bear the same
    timestamp, and the third call reads the same millisecond for its
    entry and for the eviction: the first entry goes. *)
Lemma sets_evict_oldest_witness :
  exists c',
    setAll [("a"%string, mockChart); ("b"%string, mockChart); ("c"%string, mockChart)]
      (ChartCache.mk [] (CacheOptions.mk 3600000 2 false) None slowClock 0)
    = Some (tt, c') /\
    Z.of_nat (List.length (ChartCache.memoryCache c')) = 2%Z.
Proof.
  destruct (sets_evict_oldest
              (ChartCache.mk [] (CacheOptions.mk 3600000 2 false) None slowClock 0)
              [("a"%string, mockChart); ("b"%string, mockChart);
               ("c"%string, mockChart)])
    as (c' & E & Hlen & _).
  - simpl. repeat constructor; simpl; intuition discriminate.
  - simpl. intros k [<-|[<-|[<-|[]]]]; discriminate.
  - simpl. lia.
  - intros pre key data post c1 E Hrun Hfull.
    destruct pre as [|p0 [|p1 [|p2 pre]]]; cbn [app] in E.
    + injection Hrun as <-. unfold isFull in Hfull. simpl in Hfull. lia.
    + injection E as <- _. vm_compute in Hrun. injection Hrun as <-.
      unfold isFull in Hfull. simpl in Hfull. lia.
    + injection E as <- <- _. vm_compute in Hrun. injection Hrun as <-.
      eexists. split; [left; reflexivity|]. vm_compute. reflexivity.
    + injection E as _ _ _ E. destruct pre; discriminate E.
  - exists c'. split; [exact E|exact Hlen].
Defined.

(** The empty key is never evicted: [evictOldest] tests the key that it
    found with [if (oldestKey)].  Two calls on a cache of one entry, on
    a clock that advances: both entries stay. *)
Lemma empty_key_stays :
  exists c',
    setAll [(EmptyString, mockChart); ("b"%string, mockChart)]
      (ChartCache.mk [] (CacheOptions.mk 3600000 1 false) None tickingClock 0)
    = Some (tt, c') /\
    map fst (ChartCache.memoryCache c') = [EmptyString; "b"%string].
Proof. eexists. split; [vm_compute; reflexivity|reflexivity]. Qed.

(** A memory that holds more than [maxSize] entries, as a load of the
    store or calls made at one reading of the clock may leave it, stays
    above [maxSize]: a call of [set] evicts one entry and adds one. *)
Lemma oversized_memory_stays :
  exists c',
    ChartCache.set "c" mockChart
      (ChartCache.mk
         [("a"%string, CacheItem.mk mockChart 0 3600000);
          ("b"%string, CacheItem.mk mockChart 0 3600000)]
         (CacheOptions.mk 3600000 1 false) None tickingClock 5)
    = Some (tt, c') /\
    map fst (ChartCache.memoryCache c') = ["b"%string; "c"%string].
Proof. eexists. split; [vm_compute; reflexivity|reflexivity]. Qed.
